(** * AutoShorts: the chunked transcribe / detect / cut / reassemble pipeline

    A shallow embedding of [ai_video_editor.py].

    Modelling choices.
    - Times are Python floats in the source; here they are rationals [Q], so
      [+], [-], [*], [<], [min] are exact.  Results are compared with [==].
    - A Whisper transcription is the dict the source reads: a list of
      segments, each with [start], [end] and its word list.
    - MoviePy and Whisper are outside the repository.  A clip is a window onto
      a media file (origin, duration), as [subclip] builds it; encoding and
      transcription outcomes are supplied by a [Services] record.
    - The file system is explicit state; Python exceptions are a [Raise]
      result that leaves the state as it was when the exception was raised. *)

From Stdlib Require Import QArith Qminmax Qround Lqa Lia ZArith List Bool String Sorted.
From Stdlib Require Import DecimalString.
Import ListNotations.
Open Scope Q_scope.

(** ** Data model *)

(** One entry of a segment's ['words'] list. *)
Record Word := mkWord {
  w_start : Q;
  w_end : Q;
  w_text : string
}.

(** One entry of [transcription['segments']]. *)
Record Segment := mkSegment {
  seg_start : Q;
  seg_end : Q;
  seg_words : list Word
}.

(** The dict returned by [model.transcribe]. *)
Record Transcription := mkTranscription {
  segments : list Segment
}.

(** A silence period, the tuple [(start, end)]. *)
Definition Interval : Type := (Q * Q)%type.

Definition interval_eq (a b : Interval) : Prop :=
  fst a == fst b /\ snd a == snd b.

(** Python's [x > y] on numbers. *)
Definition Qgt_bool (x y : Q) : bool := negb (Qle_bool x y).

(** Python's [x < y] on numbers. *)
Definition Qlt_bool (x y : Q) : bool := negb (Qle_bool y x).

(** ** identify_silence_periods *)

Section SilenceDetector.

Variables (video_duration threshold buffer : Q).

(** The body of [for word in words], acting on
    [(silence_periods, previous_end)]. *)
Definition silence_step (st : list Interval * Q) (word : Segment)
  : list Interval * Q :=
  let '(silence_periods, previous_end) := st in
  let start_time := seg_start word in
  let silence_periods :=
    if Qgt_bool (start_time - previous_end) threshold then
      let end_time := Qmin (start_time - buffer) video_duration in
      if Qgt_bool end_time (previous_end + buffer)
      then silence_periods ++ [(previous_end + buffer, end_time)]
      else silence_periods
    else silence_periods in
  (silence_periods, seg_end word).

(** The test shared by the loop body and the final block: the silence, if
    any, between [previous_end] and the next occupied point [next]. *)
Definition candidate (previous_end next : Q) : list Interval :=
  if Qgt_bool (next - previous_end) threshold then
    let end_time := Qmin (next - buffer) video_duration in
    if Qgt_bool end_time (previous_end + buffer)
    then [(previous_end + buffer, end_time)]
    else []
  else [].

(** The same scan, written by recursion on the remaining segments. *)
Fixpoint gaps (previous_end : Q) (words : list Segment) : list Interval :=
  match words with
  | [] => candidate previous_end video_duration
  | word :: rest =>
      candidate previous_end (seg_start word) ++ gaps (seg_end word) rest
  end.

End SilenceDetector.

Definition identify_silence_periods (transcription : Transcription)
  (video_duration threshold buffer : Q) : list Interval :=
  let words := segments transcription in
  let '(silence_periods, previous_end) :=
    fold_left (silence_step video_duration threshold buffer) words ([], 0) in
  if Qgt_bool (video_duration - previous_end) threshold then
    let end_time := Qmin (video_duration - buffer) video_duration in
    if Qgt_bool end_time (previous_end + buffer)
    then silence_periods ++ [(previous_end + buffer, end_time)]
    else silence_periods
  else silence_periods.

(** A second detector that follows the specification's words: the occupied
    intervals are [[word.start, word.end]] over the flattened word list. *)
Definition flattened_words (transcription : Transcription) : list Word :=
  flat_map seg_words (segments transcription).

Definition word_as_occupied (w : Word) : Segment :=
  mkSegment (w_start w) (w_end w) [w].

Definition identify_silence_periods_word_level (transcription : Transcription)
  (video_duration threshold buffer : Q) : list Interval :=
  identify_silence_periods
    (mkTranscription (map word_as_occupied (flattened_words transcription)))
    video_duration threshold buffer.

(** Properties of returned interval lists. *)
Definition within (buffer video_duration : Q) (iv : Interval) : Prop :=
  buffer <= fst iv /\ fst iv < snd iv /\ snd iv <= video_duration.

Definition starts_increasing (l : list Interval) : Prop :=
  StronglySorted (fun a b => fst a < fst b) l.

Definition non_overlapping (l : list Interval) : Prop :=
  StronglySorted (fun a b => snd a <= fst b) l.

(** The assumption on transcripts: timestamps are non-negative, each segment
    has [start <= end], and starts do not decrease. *)
Definition segment_ok (s : Segment) : Prop :=
  0 <= seg_start s /\ seg_start s <= seg_end s.

Definition monotone_transcript (t : Transcription) : Prop :=
  Forall segment_ok (segments t) /\
  Sorted (fun a b => seg_start a <= seg_start b) (segments t).

(** ** Python numerics used by the orchestrator *)

(** [int(x)]: truncation toward zero. *)
Definition py_int (x : Q) : Z :=
  if Qlt_bool x 0 then Qceiling x else Qfloor x.

(** [a % b] for [b <> 0]: the remainder has the sign of [b]. *)
Definition py_mod (a b : Q) : Q := a - b * inject_Z (Qfloor (a / b)).

(** [range(n)]; empty when [n <= 0]. *)
Definition range (n : Z) : list Z := map Z.of_nat (seq 0 (Z.to_nat n)).

(** ** The chunk partition of process_long_video *)

(** The number of chunks of full length, [int(total_duration / chunk_duration)]
    for non-negative arguments. *)
Definition full_chunks (total_duration chunk_duration : Q) : Z :=
  Qfloor (total_duration / chunk_duration).

Record Chunk := mkChunk {
  c_index : Z;
  c_start : Q;
  c_end : Q
}.

Definition num_chunks (total_duration chunk_duration : Q) : Z :=
  (py_int (total_duration / chunk_duration)
   + (if Qgt_bool (py_mod total_duration chunk_duration) 0 then 1 else 0))%Z.

(** [start_time] and [end_time] of loop iteration [i]. *)
Definition chunk_of (total_duration chunk_duration : Q) (i : Z) : Chunk :=
  mkChunk i
    (inject_Z i * chunk_duration)
    (Qmin (inject_Z (i + 1) * chunk_duration) total_duration).

(** Every iteration of the loop, before the length test. *)
Definition candidate_chunks (total_duration chunk_duration : Q) : list Chunk :=
  map (chunk_of total_duration chunk_duration)
      (range (num_chunks total_duration chunk_duration)).

(** [end_time - start_time < 1], the test guarding [continue]. *)
Definition too_short (c : Chunk) : bool := Qlt_bool (c_end c - c_start c) 1.

(** The chunks handed to [process_video_chunk]. *)
Definition chunk_plan (total_duration chunk_duration : Q) : list Chunk :=
  filter (fun c => negb (too_short c))
         (candidate_chunks total_duration chunk_duration).

(** Contiguity: the chunks of [cs] follow one another from [a] to [b], each
    starting where the previous one ended, none empty. *)
Fixpoint chained (a : Q) (cs : list Chunk) (b : Q) : Prop :=
  match cs with
  | [] => a == b
  | c :: rest => c_start c == a /\ c_start c < c_end c /\ chained (c_end c) rest b
  end.

Definition in_chunk (t : Q) (c : Chunk) : Prop := c_start c <= t /\ t < c_end c.

(** The chunks of [cs] cover [[a, b)] exactly. *)
Definition covers (cs : list Chunk) (a b : Q) : Prop :=
  forall t, (a <= t /\ t < b) <-> Exists (in_chunk t) cs.

Definition chunks_disjoint (cs : list Chunk) : Prop :=
  StronglySorted (fun c d => c_end c <= c_start d) cs.

Definition index_increasing (cs : list Chunk) : Prop :=
  StronglySorted (fun c d => (c_index c < c_index d)%Z) cs.

(** ** Exceptions and state *)

Inductive Exn :=
| IOError | ValueError | OSError | FileNotFoundError | FileExistsError
| UnboundLocalError | ZeroDivisionError | RuntimeError.

Inductive Result (A : Type) :=
| Ok (a : A)
| Raise (e : Exn).
Arguments Ok {A} a.
Arguments Raise {A} e.

(** A computation over state [S] that returns or raises; the state reached
    when an exception is raised is kept. *)
Definition M (S A : Type) : Type := S -> Result A * S.

Definition ret {S A : Type} (a : A) : M S A := fun s => (Ok a, s).

Definition raise {S A : Type} (e : Exn) : M S A := fun s => (Raise e, s).

Definition bind {S A B : Type} (m : M S A) (k : A -> M S B) : M S B :=
  fun s =>
    match m s with
    | (Ok a, s') => k a s'
    | (Raise e, s') => (Raise e, s')
    end.

(** [try: body except Exception as e: handler]. *)
Definition try_except {S A : Type} (body : M S A) (handler : Exn -> M S A)
  : M S A :=
  fun s =>
    match body s with
    | (Ok a, s') => (Ok a, s')
    | (Raise e, s') => handler e s'
    end.

Definition lift_result {S A : Type} (r : Result A) : M S A := fun s => (r, s).

Declare Scope monad_scope.
Delimit Scope monad_scope with monad.
Notation "x <- c1 ;; c2" := (bind c1 (fun x => c2))
  (at level 61, c1 at next level, right associativity) : monad_scope.
Notation "c1 ;; c2" := (bind c1 (fun _ => c2))
  (at level 61, right associativity) : monad_scope.
Open Scope monad_scope.

(** ** Media and the file system *)

(** A clip: the window [[origin, origin + duration)] of a media file's
    timeline, which is what [VideoFileClip(...).subclip(...)] denotes. *)
Record Clip := mkClip {
  media : string;
  origin : Q;
  duration : Q
}.

Definition clip_eq (a b : Clip) : Prop :=
  media a = media b /\ origin a == origin b /\ duration a == duration b.

Definition total_duration_of (clips : list Clip) : Q :=
  fold_right (fun c acc => duration c + acc) 0 clips.

(** What a media file holds: original footage of some length, an encoding of
    a sequence of clips, or the remains of an encode that failed midway. *)
Inductive Content :=
| Raw (len : Q)
| Rendered (clips : list Clip)
| Truncated.

Record FS := mkFS {
  files : list (string * Content);
  dirs : list string
}.

Fixpoint find_file (path : string) (fl : list (string * Content))
  : option Content :=
  match fl with
  | [] => None
  | (p, c) :: rest => if String.eqb p path then Some c else find_file path rest
  end.

Fixpoint drop_file (path : string) (fl : list (string * Content))
  : list (string * Content) :=
  match fl with
  | [] => []
  | (p, c) :: rest =>
      if String.eqb p path then drop_file path rest
      else (p, c) :: drop_file path rest
  end.

Definition is_file (path : string) (fs : FS) : bool :=
  match find_file path (files fs) with Some _ => true | None => false end.

Definition is_dir (path : string) (fs : FS) : bool :=
  existsb (String.eqb path) (dirs fs).

Definition put_file (path : string) (c : Content) (fs : FS) : FS :=
  mkFS ((path, c) :: drop_file path (files fs)) (dirs fs).

(** [os.path.exists]. *)
Definition os_path_exists (path : string) : M FS bool :=
  fun fs => (Ok (is_file path fs || is_dir path fs), fs).

(** [os.remove]. *)
Definition os_remove (path : string) : M FS unit :=
  fun fs =>
    if is_file path fs
    then (Ok tt, mkFS (drop_file path (files fs)) (dirs fs))
    else if is_dir path fs then (Raise OSError, fs)
    else (Raise FileNotFoundError, fs).

(** [os.makedirs(path, exist_ok=True)]. *)
Definition os_makedirs (path : string) : M FS unit :=
  fun fs =>
    if is_dir path fs then (Ok tt, fs)
    else if is_file path fs then (Raise FileExistsError, fs)
    else (Ok tt, mkFS (files fs) (path :: dirs fs)).

(** [os.path.join] of a directory and a file name. *)
Definition os_path_join (dir name : string) : string :=
  (dir ++ "/" ++ name)%string.

Definition dir_is_empty (path : string) (fs : FS) : bool :=
  forallb (fun pc => negb (String.prefix (path ++ "/") (fst pc))) (files fs).

(** [os.rmdir]: the directory must exist and be empty. *)
Definition os_rmdir (path : string) : M FS unit :=
  fun fs =>
    if is_dir path fs then
      if dir_is_empty path fs
      then (Ok tt, mkFS (files fs)
                     (filter (fun d => negb (String.eqb path d)) (dirs fs)))
      else (Raise OSError, fs)
    else (Raise FileNotFoundError, fs).

(** ** MoviePy and Whisper *)

Inductive EncodeOutcome :=
| Encoded
| EncodeFailedClean
| EncodeFailedPartial.

(** The behaviour of the external collaborators that the file system does not
    determine: what Whisper returns for a media file, and how an encode to
    a path ends. *)
Record Services := mkServices {
  transcribe : string -> Result Transcription;
  encode : string -> EncodeOutcome
}.

(** [VideoFileClip(path)]. *)
Definition VideoFileClip (path : string) : M FS Clip :=
  fun fs =>
    match find_file path (files fs) with
    | Some (Raw d) => (Ok (mkClip path 0 d), fs)
    | Some (Rendered clips) => (Ok (mkClip path 0 (total_duration_of clips)), fs)
    | Some Truncated => (Raise IOError, fs)
    | None => (Raise IOError, fs)
    end.

(** [clip.subclip(t_start, t_end)]: a negative time counts from the end of
    the clip, a start past the end is a [ValueError], and the new clip lasts
    [t_end - t_start]. *)
Definition subclip (c : Clip) (t_start t_end : Q) : Result Clip :=
  let t_start := if Qlt_bool t_start 0 then duration c + t_start else t_start in
  if Qgt_bool t_start (duration c) then Raise ValueError
  else
    let t_end := if Qlt_bool t_end 0 then duration c + t_end else t_end in
    Ok (mkClip (media c) (origin c + t_start) (t_end - t_start)).

(** [concatenate_videoclips]: the clips played one after the other. *)
Definition concatenate_videoclips (clips : list Clip) : list Clip := clips.

Section Pipeline.

Variable sv : Services.

(** [clip.write_videofile(path, ...)], for a clip or a concatenation.  An
    encode that succeeds leaves the file at [path] and nothing else: the
    temporary audio file that MoviePy writes in the working directory is
    removed again before the call returns.  For an encode that fails, only
    what happens at [path] is recorded; the temporary audio file that MoviePy
    then leaves behind is not tracked, which is why the statements below
    about the files a call leaves untouched are made for encodes that
    succeed. *)
Definition write_videofile (clips : list Clip) (path : string) : M FS unit :=
  fun fs =>
    match encode sv path with
    | Encoded => (Ok tt, put_file path (Rendered clips) fs)
    | EncodeFailedClean => (Raise IOError, fs)
    | EncodeFailedPartial => (Raise IOError, put_file path Truncated fs)
    end.

(** [whisper.load_model("base").transcribe(path, ...)]. *)
Definition whisper_transcribe (path : string) : M FS Transcription :=
  fun fs =>
    if is_file path fs then (transcribe sv path, fs)
    else (Raise RuntimeError, fs).

(** *** cut_silences *)

(** The [for (start, end) in silence_periods] loop over
    [(clips, last_end)]; returning early is the [break]. *)
Fixpoint cut_loop (video : Clip) (silence_periods : list Interval)
  (clips : list Clip) (last_end : Q) : Result (list Clip * Q) :=
  match silence_periods with
  | [] => Ok (clips, last_end)
  | (start, end_) :: rest =>
      if Qgt_bool start (duration video) then Ok (clips, last_end)
      else if Qlt_bool last_end start then
        match subclip video last_end (Qmin start (duration video)) with
        | Ok c => cut_loop video rest (clips ++ [c]) (Qmin end_ (duration video))
        | Raise e => Raise e
        end
      else cut_loop video rest clips (Qmin end_ (duration video))
  end.

(** The block that builds [clips]: the loop, then the final clip "if
    there's any remaining video after the last silence". *)
Definition keep_clips (video : Clip) (silence_periods : list Interval)
  : Result (list Clip) :=
  match cut_loop video silence_periods [] 0 with
  | Raise e => Raise e
  | Ok (clips, last_end) =>
      if Qlt_bool last_end (duration video) then
        match subclip video last_end (duration video) with
        | Ok c => Ok (clips ++ [c])
        | Raise e => Raise e
        end
      else Ok clips
  end.

(** [video.close()] and [final_clip.close()] release handles and do not
    touch the file system; the handler's [video.close()] likewise. *)
Definition cut_silences (input_video output_video : string)
  (silence_periods : list Interval) (start_time end_time : option Q)
  : M FS unit :=
  try_except
    (video <- VideoFileClip input_video ;;
     video <- match start_time, end_time with
              | Some s, Some e => lift_result (subclip video s e)
              | _, _ => ret video
              end ;;
     clips <- lift_result (keep_clips video silence_periods) ;;
     match clips with
     | _ :: _ => write_videofile (concatenate_videoclips clips) output_video
     | [] => write_videofile [video] output_video
     end)
    (fun e => ret tt).

(** *** process_video_chunk *)

(** The function's frame: the file system together with the binding of the
    local [temp_chunk_path], which the handler reads. *)
Record Frame := mkFrame {
  frame_fs : FS;
  temp_chunk_path : option string
}.

Definition in_fs {A : Type} (m : M FS A) : M Frame A :=
  fun fr =>
    let (r, fs') := m (frame_fs fr) in (r, mkFrame fs' (temp_chunk_path fr)).

Definition assign_temp_chunk_path (p : string) : M Frame unit :=
  fun fr => (Ok tt, mkFrame (frame_fs fr) (Some p)).

(** Reading a local that was never assigned raises [UnboundLocalError]. *)
Definition read_temp_chunk_path : M Frame string :=
  fun fr =>
    match temp_chunk_path fr with
    | Some p => (Ok p, fr)
    | None => (Raise UnboundLocalError, fr)
    end.

Definition call {A : Type} (m : M Frame A) : M FS A :=
  fun fs => let (r, fr) := m (mkFrame fs None) in (r, frame_fs fr).

(** The text an f-string gives for a number.  Integers print as in Python;
    other values print as a reduced fraction, which, like Python's own
    rendering, is determined by the value.  Python prints a float with its
    decimal point ([310.0], [310.5]), so the name built from this text stands
    in for the one the source builds: the two share the prefix
    [temp_chunk_] and the suffix [.mp4], not the digits in between. *)
Definition string_of_Z (z : Z) : string := NilZero.string_of_int (Z.to_int z).

Definition repr_number (q : Q) : string :=
  let r := Qred q in
  match Qden r with
  | 1%positive => string_of_Z (Qnum r)
  | d => (string_of_Z (Qnum r) ++ "/" ++ string_of_Z (Zpos d))%string
  end.

Definition temp_chunk_name (start_time end_time : Q) : string :=
  ("temp_chunk_" ++ repr_number start_time ++ "_" ++ repr_number end_time
     ++ ".mp4")%string.

Definition adjust (start_time : Q) (silence_periods : list Interval)
  : list Interval :=
  map (fun '(s, e) => (s + start_time, e + start_time)) silence_periods.

Definition process_video_chunk (video_path : string)
  (start_time end_time : Q) (output_chunk_path : string) : M FS bool :=
  call
    (try_except
       (video <- in_fs (v <- VideoFileClip video_path ;;
                        lift_result (subclip v start_time end_time)) ;;
        let chunk_duration := duration video in
        let temp := temp_chunk_name start_time end_time in
        assign_temp_chunk_path temp ;;
        in_fs (write_videofile [video] temp) ;;
        result <- in_fs (whisper_transcribe temp) ;;
        in_fs (os_remove temp) ;;
        let silence_periods :=
          identify_silence_periods result chunk_duration (1#2) (1#10) in
        let adjusted_silence_periods := adjust start_time silence_periods in
        in_fs (cut_silences video_path output_chunk_path
                 adjusted_silence_periods (Some start_time) (Some end_time)) ;;
        ret true)
       (fun e =>
          p <- read_temp_chunk_path ;;
          present <- in_fs (os_path_exists p) ;;
          (if present : bool then in_fs (os_remove p) else ret tt) ;;
          ret false)).

(** *** process_long_video *)

Definition temp_dir : string := "temp_chunks".

Definition chunk_output_name (i : Z) : string :=
  os_path_join temp_dir ("chunk_" ++ string_of_Z i ++ ".mp4")%string.

(** [for i in range(num_chunks)], over [processed_chunks]. *)
Fixpoint chunk_loop (input_video : string)
  (total_duration chunk_duration : Q) (indices : list Z)
  (processed_chunks : list string) : M FS (list string) :=
  match indices with
  | [] => ret processed_chunks
  | i :: rest =>
      let c := chunk_of total_duration chunk_duration i in
      if too_short c then
        chunk_loop input_video total_duration chunk_duration rest
          processed_chunks
      else
        let chunk_output := chunk_output_name i in
        ok <- process_video_chunk input_video (c_start c) (c_end c)
                chunk_output ;;
        chunk_loop input_video total_duration chunk_duration rest
          (if ok : bool then processed_chunks ++ [chunk_output]
           else processed_chunks)
  end.

(** [for chunk_path in processed_chunks], over [final_clips]. *)
Fixpoint load_loop (processed_chunks : list string) (final_clips : list Clip)
  : M FS (list Clip) :=
  match processed_chunks with
  | [] => ret final_clips
  | chunk_path :: rest =>
      final_clips <-
        try_except
          (clip <- VideoFileClip chunk_path ;;
           if Qgt_bool (duration clip) 0 then ret (final_clips ++ [clip])
           else os_remove chunk_path ;; ret final_clips)
          (fun e =>
             present <- os_path_exists chunk_path ;;
             (if present : bool then os_remove chunk_path else ret tt) ;;
             ret final_clips) ;;
      load_loop rest final_clips
  end.

(** [for chunk in processed_chunks: if os.path.exists(chunk): ...]. *)
Fixpoint remove_loop (processed_chunks : list string) : M FS unit :=
  match processed_chunks with
  | [] => ret tt
  | chunk :: rest =>
      present <- os_path_exists chunk ;;
      (if present : bool then os_remove chunk else ret tt) ;;
      remove_loop rest
  end.

Definition process_long_video (input_video output_video : string)
  (chunk_duration : Q) : M FS unit :=
  video <- VideoFileClip input_video ;;
  let total_duration := duration video in
  n <- (if Qeq_bool chunk_duration 0 then raise ZeroDivisionError
        else ret (num_chunks total_duration chunk_duration)) ;;
  os_makedirs temp_dir ;;
  processed_chunks <-
    chunk_loop input_video total_duration chunk_duration (range n) [] ;;
  match processed_chunks with
  | _ :: _ =>
      final_clips <- load_loop processed_chunks [] ;;
      match final_clips with
      | _ :: _ =>
          write_videofile (concatenate_videoclips final_clips) output_video ;;
          remove_loop processed_chunks ;;
          os_rmdir temp_dir
      | [] => ret tt
      end
  | [] => ret tt
  end.

(** The loop reads its chunks off [chunk_plan]: the calls it makes are
    those of this loop over the chunks that pass the length test. *)
Fixpoint plan_loop (input_video : string) (plan : list Chunk)
  (processed_chunks : list string) : M FS (list string) :=
  match plan with
  | [] => ret processed_chunks
  | c :: rest =>
      let chunk_output := chunk_output_name (c_index c) in
      ok <- process_video_chunk input_video (c_start c) (c_end c)
              chunk_output ;;
      plan_loop input_video rest
        (if ok : bool then processed_chunks ++ [chunk_output]
         else processed_chunks)
  end.

End Pipeline.

(** A source time [t] of [path] is shown by a clip list. *)
Definition plays (clips : list Clip) (path : string) (t : Q) : Prop :=
  Exists (fun c => media c = path /\ origin c <= t /\ t < origin c + duration c)
         clips.

(** A time [t] on the clock of [video] is shown by a clip list. *)
Definition shows (video : Clip) (clips : list Clip) (t : Q) : Prop :=
  plays clips (media video) (origin video + t).

(** A time lies inside one of the given intervals. *)
Definition in_silence (silences : list Interval) (t : Q) : Prop :=
  Exists (fun iv => fst iv <= t /\ t < snd iv) silences.

(** Well-formed silence periods, as the data model has them. *)
Definition interval_ok (iv : Interval) : Prop :=
  0 <= fst iv /\ fst iv <= snd iv.

Definition positive_clip (c : Clip) : Prop := 0 < duration c.

(** What [cut_silences] encodes: the kept clips, or the whole range when none
    is kept. *)
Definition emitted (video : Clip) (kept : list Clip) : list Clip :=
  match kept with
  | [] => [video]
  | _ :: _ => kept
  end.

(** ** Sample inputs *)

Open Scope string_scope.

(** Three utterances, one word each, with a pause before the last. *)
Definition three_utterances : Transcription :=
  mkTranscription
    [ mkSegment 0 2 [mkWord 0 2 "first"];
      mkSegment 2 4 [mkWord 2 4 "second"];
      mkSegment 8 10 [mkWord 8 10 "third"] ].

(** The transcript of an untranscribed chunk. *)
Definition empty_transcript : Transcription := mkTranscription [].

(** A transcript of one segment [[0,10]] whose two words are far apart. *)
Definition one_segment_two_words : Transcription :=
  mkTranscription
    [ mkSegment 0 10 [mkWord 0 1 "so"; mkWord 9 10 "yes"] ].

(** A ten-minute source video on an otherwise empty disk. *)
Definition source_only : FS := mkFS [("in.mp4", Raw 600)] [].

(** Speech in [[0,100]] and [[200,300]] of a chunk. *)
Definition speech_pause_speech : Transcription :=
  mkTranscription
    [ mkSegment 0 100 [mkWord 0 100 "intro"];
      mkSegment 200 300 [mkWord 200 300 "outro"] ].

(** Collaborators that always succeed. *)
Definition reliable (t : Transcription) : Services :=
  mkServices (fun _ => Ok t) (fun _ => Encoded).

(** Whisper fails on every chunk. *)
Definition whisper_down : Services :=
  mkServices (fun _ => Raise RuntimeError) (fun _ => Encoded).

(** Encoding of one given path fails, leaving nothing behind. *)
Definition encode_fails_at (path : string) (t : Transcription) : Services :=
  mkServices (fun _ => Ok t)
             (fun p => if String.eqb p path then EncodeFailedClean else Encoded).

(** Encoding of every per-chunk output fails; temporary chunks and the final
    file encode. *)
Definition chunk_encodes_fail (t : Transcription) : Services :=
  mkServices (fun _ => Ok t)
             (fun p => if String.prefix "temp_chunks/" p
                       then EncodeFailedClean else Encoded).

(** The file found at [path] once a call has returned. *)
Definition output_of (r : Result bool * FS) (path : string) : option Content :=
  find_file path (files (snd r)).

(** ** Predicates for the further properties *)

(** An interval keeps a distance of [buffer] from a segment: it ends a buffer
    before the segment starts, or starts a buffer after the segment ends. *)
Definition clear_of (buffer : Q) (iv : Interval) (w : Segment) : Prop :=
  snd iv <= seg_start w - buffer \/ seg_end w + buffer <= fst iv.

(** A time at which a segment is being spoken. *)
Definition spoken (t : Transcription) (x : Q) : Prop :=
  Exists (fun w => seg_start w <= x /\ x < seg_end w) (segments t).

(** The summed length of a list of intervals. *)
Definition silence_total (l : list Interval) : Q :=
  fold_right (fun iv acc => (snd iv - fst iv) + acc) 0 l.

(** A clip that is a non-empty window [[a, b)] of [video], on its clock. *)
Definition window_of (video : Clip) (c : Clip) : Prop :=
  exists a b,
    0 <= a /\ a < b /\ b <= duration video /\
    c = mkClip (media video) (origin video + a) (b - a).

(** The file system with the file at [path], if any, removed. *)
Definition without_file (path : string) (fs : FS) : FS :=
  mkFS (drop_file path (files fs)) (dirs fs).

(** Whether the temporary chunk at [path] gets encoded and transcribed. *)
Definition transcribed (sv : Services) (path : string) : bool :=
  match encode sv path, transcribe sv path with
  | Encoded, Ok _ => true
  | _, _ => false
  end.

(** The names the pipeline gives its intermediate files: temporary chunks
    ["temp_chunk_..."] and per-chunk outputs ["temp_chunks/..."]. *)
Definition scratch_name (p : string) : bool :=
  String.prefix "temp_chunk_" p || String.prefix "temp_chunks/" p.

(** A path inside the temporary directory. *)
Definition in_temp_dir (p : string) : bool := String.prefix "temp_chunks/" p.

Definition encoded (sv : Services) (path : string) : bool :=
  match encode sv path with
  | Encoded => true
  | _ => false
  end.

(** The temporary chunk and the output of a chunk of the plan. *)
Definition chunk_temp (c : Chunk) : string :=
  temp_chunk_name (c_start c) (c_end c).

Definition chunk_output (c : Chunk) : string := chunk_output_name (c_index c).

(** A chunk for which [process_video_chunk] answers [True]. *)
Definition chunk_reported (sv : Services) (c : Chunk) : bool :=
  transcribed sv (chunk_temp c).

(** A chunk whose output reaches the final concatenation. *)
Definition chunk_delivered (sv : Services) (c : Chunk) : bool :=
  chunk_reported sv c && encoded sv (chunk_output c).

(** The state of a per-chunk output once its chunk was reported: a positive
    length encoding if the encode succeeds, otherwise nothing usable. *)
Definition chunk_file_ok (sv : Services) (fs : FS) (p : string) : Prop :=
  if encoded sv p then
    exists clips, find_file p (files fs) = Some (Rendered clips) /\
                  0 < total_duration_of clips
  else
    find_file p (files fs) = None \/ find_file p (files fs) = Some Truncated.

(** A clip that is a whole file of positive length. *)
Definition whole_file_clip (c : Clip) : Prop :=
  origin c = 0 /\ 0 < duration c.

(** A chunk lying inside a source of length [D]. *)
Definition chunk_inside (D : Q) (c : Chunk) : Prop :=
  0 <= c_start c /\ c_start c < c_end c /\ c_end c <= D.

(** What holds between two iterations of the chunk loop, [fs1] being the
    file system the loop started from, [done] the chunks already handled and
    [acc] the list [processed_chunks]. *)
Definition loop_invariant (sv : Services) (input_video : string) (D : Q)
  (fs1 fs : FS) (done : list Chunk) (acc : list string) : Prop :=
  find_file input_video (files fs) = Some (Raw D) /\
  dirs fs = dirs fs1 /\
  (forall p, scratch_name p = false ->
             find_file p (files fs) = find_file p (files fs1)) /\
  Forall (fun q => in_temp_dir q = true) acc /\
  Forall (chunk_file_ok sv fs) acc /\
  (forall p, in_temp_dir p = true -> ~ In p acc ->
             find_file p (files fs) = None) /\
  Forall (fun c => find_file (chunk_temp c) (files fs) = None) done.

(** ** Further sample inputs and predicates *)

(** The three words of [three_utterances] transcribed as one segment, and as
    two segments. *)
Definition one_segment_three_words : Transcription :=
  mkTranscription
    [ mkSegment 0 10
        [mkWord 0 2 "first"; mkWord 2 4 "second"; mkWord 8 10 "third"] ].

Definition two_segments_three_words : Transcription :=
  mkTranscription
    [ mkSegment 0 2 [mkWord 0 2 "first"];
      mkSegment 2 10 [mkWord 2 4 "second"; mkWord 8 10 "third"] ].

(** The words of a transcript, taken in order over all its segments, occupy
    the given intervals. *)
Definition occupies (t : Transcription) (ivs : list Interval) : Prop :=
  Forall2 (fun w iv => w_start w == fst iv /\ w_end w == snd iv)
          (flattened_words t) ivs.

(** Whether Whisper answered with a transcription. *)
Definition answered (r : Result Transcription) : bool :=
  match r with
  | Ok _ => true
  | Raise _ => false
  end.

(** A name that starts like a temporary chunk's. *)
Definition temp_prefixed (p : string) : bool := String.prefix "temp_chunk_" p.

(** The duration [VideoFileClip] reports for the file at [p]. *)
Definition file_length (fs : FS) (p : string) : Q :=
  match find_file p (files fs) with
  | Some (Raw d) => d
  | Some (Rendered clips) => total_duration_of clips
  | _ => 0
  end.

(** The clip [VideoFileClip(p)] denotes in [fs]: the whole of the file. *)
Definition loaded_clip (fs : FS) (p : string) : Clip :=
  mkClip p 0 (file_length fs p).

(** A file that holds an encoding of positive length. *)
Definition playable (fs : FS) (p : string) : Prop :=
  exists clips,
    find_file p (files fs) = Some (Rendered clips) /\
    0 < total_duration_of clips.

(** The source video on a disk where the temporary directory exists. *)
Definition source_and_temp_dir : FS :=
  mkFS [("in.mp4", Raw 600)] ["temp_chunks"].

Close Scope string_scope.

(** ** Lemmas on comparisons *)

Lemma Qgt_bool_true (x y : Q) : Qgt_bool x y = true <-> y < x.
Proof.
  unfold Qgt_bool. rewrite negb_true_iff.
  destruct (Qle_bool x y) eqn:E.
  - apply Qle_bool_iff in E. split; [discriminate | intro H; lra].
  - split; [intros _ | reflexivity].
    apply Qnot_le_lt. intro H. apply Qle_bool_iff in H. congruence.
Qed.

Lemma Qgt_bool_false (x y : Q) : Qgt_bool x y = false <-> x <= y.
Proof.
  unfold Qgt_bool. rewrite negb_false_iff. apply Qle_bool_iff.
Qed.

Lemma Qlt_bool_true (x y : Q) : Qlt_bool x y = true <-> x < y.
Proof. unfold Qlt_bool. apply (Qgt_bool_true y x). Qed.

Lemma Qlt_bool_false (x y : Q) : Qlt_bool x y = false <-> y <= x.
Proof. unfold Qlt_bool. apply (Qgt_bool_false y x). Qed.

Lemma Qmin_cases (x y : Q) :
  (x <= y /\ Qmin x y = x) \/ (y < x /\ Qmin x y = y).
Proof.
  unfold Qmin, GenericMinMax.gmin.
  destruct (x ?= y) eqn:E.
  - left. apply Qeq_alt in E. split; [lra | reflexivity].
  - left. apply Qlt_alt in E. split; [lra | reflexivity].
  - right. apply Qgt_alt in E. split; [lra | reflexivity].
Qed.

(** ** The loop and its recursive reading agree *)

Lemma fold_silence_step (vd th buf : Q) (words : list Segment) :
  forall (acc : list Interval) (prev : Q),
    (let '(sp, pe) := fold_left (silence_step vd th buf) words (acc, prev) in
     sp ++ candidate vd th buf pe vd) = acc ++ gaps vd th buf prev words.
Proof.
  induction words as [|w r IH]; intros acc prev; simpl.
  - reflexivity.
  - unfold candidate at 2.
    destruct (Qgt_bool (seg_start w - prev) th).
    + cbv zeta. destruct (Qgt_bool _ (prev + buf)).
      * rewrite IH. rewrite <- app_assoc. reflexivity.
      * rewrite IH. reflexivity.
    + rewrite IH. reflexivity.
Qed.

Lemma identify_silence_periods_gaps (vd th buf : Q) (t : Transcription) :
  identify_silence_periods t vd th buf = gaps vd th buf 0 (segments t).
Proof.
  unfold identify_silence_periods.
  pose proof (fold_silence_step vd th buf (segments t) [] 0) as H.
  destruct (fold_left _ _ _) as [sp pe]. simpl in H. rewrite <- H.
  unfold candidate.
  destruct (Qgt_bool (vd - pe) th).
  - cbv zeta. destruct (Qgt_bool _ (pe + buf)); [reflexivity|].
    now rewrite app_nil_r.
  - now rewrite app_nil_r.
Qed.

(** ** Properties of the detector *)

Lemma candidate_cases (vd th buf prev next : Q) :
  candidate vd th buf prev next = [] \/
  exists e, candidate vd th buf prev next = [(prev + buf, e)] /\
            prev + buf < e /\ e <= next - buf /\ e <= vd /\ th < next - prev.
Proof.
  unfold candidate.
  destruct (Qgt_bool (next - prev) th) eqn:G; [|now left].
  cbv zeta. destruct (Qgt_bool _ (prev + buf)) eqn:E; [|now left].
  right. exists (Qmin (next - buf) vd).
  apply Qgt_bool_true in G. apply Qgt_bool_true in E.
  destruct (Qmin_cases (next - buf) vd) as [[H1 H2]|[H1 H2]];
    rewrite H2 in *; repeat split; lra.
Qed.

Lemma within_weaken (m m' vd : Q) (l : list Interval) :
  m <= m' -> Forall (within m' vd) l -> Forall (within m vd) l.
Proof.
  intros Hm. apply Forall_impl. intros iv (H1 & H2 & H3).
  unfold within. repeat split; lra.
Qed.

(** Every returned interval starts a buffer after an occupied end, is not
    empty and ends inside the chunk, whatever the order of the segments. *)
Lemma gaps_within (vd th buf : Q) (words : list Segment) :
  forall prev m,
    m <= prev ->
    Forall (fun s => m <= seg_start s /\ seg_start s <= seg_end s) words ->
    Forall (within (m + buf) vd) (gaps vd th buf prev words).
Proof.
  induction words as [|w r IH]; intros prev m Hm Hall; simpl.
  - destruct (candidate_cases vd th buf prev vd)
      as [E|(e & E & H1 & H2 & H3 & H4)]; rewrite E; [constructor|].
    constructor; [|constructor]. unfold within; simpl. repeat split; lra.
  - inversion Hall as [|? ? [Hw1 Hw2] Hr]; subst.
    apply Forall_app. split.
    + destruct (candidate_cases vd th buf prev (seg_start w))
        as [E|(e & E & H1 & H2 & H3 & H4)]; rewrite E; [constructor|].
      constructor; [|constructor]. unfold within; simpl. repeat split; lra.
    + apply IH; [lra | exact Hr].
Qed.

Section GapsInvariant.

Variables (vd th buf : Q).
Hypothesis buf_nonneg : 0 <= buf.

(** Scanning from [prev] over segments that start at or after [m] yields
    intervals at or after [m + buf], in order and disjoint. *)
Lemma gaps_sound (words : list Segment) :
  forall prev m,
    m <= prev ->
    Forall (fun s => m <= seg_start s /\ seg_start s <= seg_end s) words ->
    StronglySorted (fun a b => seg_start a <= seg_start b) words ->
    Forall (within (m + buf) vd) (gaps vd th buf prev words) /\
    starts_increasing (gaps vd th buf prev words) /\
    non_overlapping (gaps vd th buf prev words).
Proof.
  induction words as [|w r IH]; intros prev m Hm Hall Hsort; simpl.
  - destruct (candidate_cases vd th buf prev vd) as [E|(e & E & H1 & H2 & H3 & H4)];
      rewrite E.
    + repeat split; constructor.
    + repeat split.
      * constructor; [|constructor]. unfold within; simpl. repeat split; lra.
      * repeat constructor.
      * repeat constructor.
  - inversion Hall as [|? ? [Hw1 Hw2] Hr]; subst.
    inversion Hsort as [|? ? Hsr Hlow]; subst.
    assert (Hr' : Forall (fun s => seg_start w <= seg_start s /\
                                   seg_start s <= seg_end s) r).
    { rewrite Forall_forall in *. intros s Hs.
      split; [apply Hlow, Hs | apply (Hr s Hs)]. }
    destruct (IH (seg_end w) (seg_start w) Hw2 Hr' Hsr) as (B & I & N).
    destruct (candidate_cases vd th buf prev (seg_start w))
      as [E|(e & E & H1 & H2 & H3 & H4)]; rewrite E; simpl.
    + repeat split; try assumption.
      apply within_weaken with (m' := seg_start w + buf); [lra | exact B].
    + repeat split.
      * constructor.
        -- unfold within; simpl. repeat split; lra.
        -- apply within_weaken with (m' := seg_start w + buf); [lra | exact B].
      * constructor; [exact I|].
        eapply Forall_impl; [|exact B]. intros iv (K1 & _ & _). simpl. lra.
      * constructor; [exact N|].
        eapply Forall_impl; [|exact B]. intros iv (K1 & _ & _). simpl. lra.
Qed.

End GapsInvariant.

Lemma seg_start_le_trans :
  Relations_1.Transitive (fun a b : Segment => seg_start a <= seg_start b).
Proof. intros x y z H1 H2. lra. Qed.

Lemma three_utterances_monotone : monotone_transcript three_utterances.
Proof.
  split.
  - repeat constructor; simpl; lra.
  - repeat constructor; simpl; lra.
Defined.

(** C10. For a transcription whose segment timestamps are non-negative, with
    non-decreasing starts and [start <= end] in each segment, every interval
    [(s, e)] returned by [identify_silence_periods] has
    [buffer <= s < e <= video_duration], so the first [buffer] seconds of a
    chunk are never marked silent; and, the buffer being a margin that is not
    negative, the list is strictly increasing by start and no two intervals
    overlap. *)
Theorem identify_silence_periods_bounded_ordered
  (t : Transcription) (video_duration threshold buffer : Q) :
  monotone_transcript t ->
  Forall (within buffer video_duration)
         (identify_silence_periods t video_duration threshold buffer) /\
  (0 <= buffer ->
   starts_increasing
     (identify_silence_periods t video_duration threshold buffer) /\
   non_overlapping
     (identify_silence_periods t video_duration threshold buffer)).
Proof.
  intros [Hok Hsorted].
  rewrite identify_silence_periods_gaps.
  assert (Hok' : Forall (fun s => 0 <= seg_start s /\ seg_start s <= seg_end s)
                        (segments t)).
  { eapply Forall_impl; [|exact Hok]. intros s [H1 H2]. split; assumption. }
  split.
  - apply within_weaken with (m' := 0 + buffer); [lra|].
    apply gaps_within; [lra | exact Hok'].
  - intros Hb.
    apply Sorted_StronglySorted in Hsorted; [|exact seg_start_le_trans].
    destruct (gaps_sound video_duration threshold buffer Hb (segments t) 0 0)
      as (_ & I & N); try assumption; [lra|].
    split; assumption.
Qed.

Lemma identify_silence_periods_bounded_ordered_witness :
  monotone_transcript three_utterances /\ 0 <= 1#10 /\
  Forall (within (1#10) 10)
         (identify_silence_periods three_utterances 10 1 (1#10)) /\
  starts_increasing (identify_silence_periods three_utterances 10 1 (1#10)) /\
  non_overlapping (identify_silence_periods three_utterances 10 1 (1#10)).
Proof.
  assert (Hb : 0 <= 1#10) by lra.
  split; [exact three_utterances_monotone|]. split; [exact Hb|].
  destruct (identify_silence_periods_bounded_ordered three_utterances 10 1
              (1#10) three_utterances_monotone) as [W O].
  split; [exact W | exact (O Hb)].
Defined.

(** The scan over the flattened word list depends on the words only; for
    words at [[0,2]], [[2,4]], [[8,10]] it finds the pause [(4.1, 7.9)]. *)
Lemma word_level_round_trip (t : Transcription) :
  occupies t [(0, 2); (2, 4); (8, 10)] ->
  Forall2 interval_eq
    (identify_silence_periods_word_level t 10 1 (1#10))
    [(41#10, 79#10)].
Proof.
  unfold occupies, identify_silence_periods_word_level.
  generalize (flattened_words t). intros ws H.
  destruct ws as [|w1 [|w2 [|w3 [|w4 ws]]]];
    try (exfalso; repeat
           match goal with
           | H : Forall2 _ _ _ |- _ => inversion H; subst; clear H
           end; fail).
  inversion H as [|? ? ? ? [S1 E1] H1]; subst; clear H.
  inversion H1 as [|? ? ? ? [S2 E2] H2]; subst; clear H1.
  inversion H2 as [|? ? ? ? [S3 E3] H3]; subst; clear H2.
  clear H3. simpl in *.
  rewrite identify_silence_periods_gaps. simpl.
  assert (G1 : candidate 10 1 (1#10) 0 (w_start w1) = []).
  { unfold candidate.
    assert (B : Qgt_bool (w_start w1 - 0) 1 = false)
      by (apply Qgt_bool_false; lra).
    now rewrite B. }
  assert (G2 : candidate 10 1 (1#10) (w_end w1) (w_start w2) = []).
  { unfold candidate.
    assert (B : Qgt_bool (w_start w2 - w_end w1) 1 = false)
      by (apply Qgt_bool_false; lra).
    now rewrite B. }
  assert (G4 : candidate 10 1 (1#10) (w_end w3) 10 = []).
  { unfold candidate.
    assert (B : Qgt_bool (10 - w_end w3) 1 = false)
      by (apply Qgt_bool_false; lra).
    now rewrite B. }
  rewrite G1, G2, G4. simpl.
  destruct (candidate_cases 10 1 (1#10) (w_end w2) (w_start w3))
    as [E|(e & E & C1 & C2 & C3 & C4)].
  - exfalso. revert E. unfold candidate.
    assert (B : Qgt_bool (w_start w3 - w_end w2) 1 = true)
      by (apply Qgt_bool_true; lra).
    rewrite B. cbv zeta.
    assert (B' : Qgt_bool (Qmin (w_start w3 - (1#10)) 10)
                   (w_end w2 + (1#10)) = true).
    { apply Qgt_bool_true.
      destruct (Qmin_cases (w_start w3 - (1#10)) 10) as [[M1 M2]|[M1 M2]];
        rewrite M2; lra. }
    rewrite B'. discriminate.
  - revert E. unfold candidate.
    destruct (Qgt_bool (w_start w3 - w_end w2) 1); [|discriminate].
    cbv zeta. destruct (Qgt_bool _ (w_end w2 + (1#10))); [|discriminate].
    intros E. rewrite E. constructor; [|constructor].
    injection E as E. unfold interval_eq. cbn [fst snd]. split; [lra|].
    rewrite <- E.
    destruct (Qmin_cases (w_start w3 - (1#10)) 10) as [[M1 M2]|[M1 M2]];
      rewrite M2; lra.
Qed.

(** C5. For words occupying [[0,2]], [[2,4]], [[8,10]] in a chunk of duration
    10, with threshold 1.0 and buffer 0.1, the scan over the flattened word
    list finds exactly [(4.1, 7.9)], however the words are grouped in
    segments.  The source reads segment bounds instead: it finds that
    interval when every word is a segment of its own, and finds nothing when
    the three words share one segment [[0,10]] or are split as [[0,2]],
    [[2,10]]. *)
Theorem identify_silence_periods_round_trip_by_segmentation :
  (forall t, occupies t [(0, 2); (2, 4); (8, 10)] ->
             Forall2 interval_eq
               (identify_silence_periods_word_level t 10 1 (1#10))
               [(41#10, 79#10)]) /\
  (occupies one_segment_three_words [(0, 2); (2, 4); (8, 10)] /\
   identify_silence_periods one_segment_three_words 10 1 (1#10) = []) /\
  (occupies two_segments_three_words [(0, 2); (2, 4); (8, 10)] /\
   identify_silence_periods two_segments_three_words 10 1 (1#10) = []) /\
  (occupies three_utterances [(0, 2); (2, 4); (8, 10)] /\
   Forall2 interval_eq
     (identify_silence_periods three_utterances 10 1 (1#10))
     [(41#10, 79#10)]).
Proof.
  split; [exact word_level_round_trip|].
  split; [split; [|vm_compute; reflexivity]|].
  { unfold occupies. simpl. repeat constructor; simpl; lra. }
  split; [split; [|vm_compute; reflexivity]|].
  { unfold occupies. simpl. repeat constructor; simpl; lra. }
  split.
  - unfold occupies. simpl. repeat constructor; simpl; lra.
  - vm_compute. repeat constructor.
Qed.

Lemma identify_silence_periods_round_trip_by_segmentation_witness :
  occupies one_segment_three_words [(0, 2); (2, 4); (8, 10)] /\
  Forall2 interval_eq
    (identify_silence_periods_word_level one_segment_three_words 10 1 (1#10))
    [(41#10, 79#10)] /\
  identify_silence_periods one_segment_three_words 10 1 (1#10) = [].
Proof.
  destruct identify_silence_periods_round_trip_by_segmentation
    as (Hw & (Ho & Hn) & _).
  split; [exact Ho|]. split; [exact (Hw _ Ho) | exact Hn].
Defined.

(** C8, as stated, fails: for an empty segment list, duration 10, threshold 1
    and buffer 0.1 the result is not the whole chunk [(0, 10)]. *)
Lemma empty_transcript_not_whole_chunk :
  ~ Forall2 interval_eq
      (identify_silence_periods empty_transcript 10 1 (1#10)) [(0, 10)].
Proof.
  vm_compute. intro H. inversion H as [|? ? ? ? [H1 H2] ?]; subst.
  vm_compute in H1. discriminate H1.
Qed.

(** C8, amended. For an empty segment list and a buffer that is not negative:
    a chunk longer than the threshold and longer than twice the buffer yields
    the single interval [(buffer, video_duration - buffer)]; a chunk longer
    than the threshold but not longer than twice the buffer yields none; and a
    chunk not longer than the threshold yields none. *)
Theorem identify_silence_periods_empty_transcript
  (video_duration threshold buffer : Q) :
  0 <= buffer ->
  (threshold < video_duration -> 2 * buffer < video_duration ->
   Forall2 interval_eq
     (identify_silence_periods empty_transcript video_duration threshold buffer)
     [(buffer, video_duration - buffer)]) /\
  (threshold < video_duration -> video_duration <= 2 * buffer ->
   identify_silence_periods empty_transcript video_duration threshold buffer
   = []) /\
  (video_duration <= threshold ->
   identify_silence_periods empty_transcript video_duration threshold buffer
   = []).
Proof.
  intros Hb. unfold identify_silence_periods; simpl.
  destruct (Qmin_cases (video_duration - buffer) video_duration)
    as [[M1 M2]|[M1 M2]]; [|lra].
  rewrite M2.
  repeat split.
  - intros Ht Hd.
    assert (G : Qgt_bool (video_duration - 0) threshold = true)
      by (apply Qgt_bool_true; lra).
    assert (E : Qgt_bool (video_duration - buffer) (0 + buffer) = true)
      by (apply Qgt_bool_true; lra).
    rewrite G, E. constructor; [|constructor].
    split; simpl; lra.
  - intros Ht Hd.
    assert (E : Qgt_bool (video_duration - buffer) (0 + buffer) = false)
      by (apply Qgt_bool_false; lra).
    rewrite E. now destruct (Qgt_bool _ threshold).
  - intros Hd.
    assert (G : Qgt_bool (video_duration - 0) threshold = false)
      by (apply Qgt_bool_false; lra).
    now rewrite G.
Qed.

Lemma identify_silence_periods_empty_transcript_witness :
  0 <= 1#10 /\
  (1 < 10 /\ 2 * (1#10) < 10 /\
   Forall2 interval_eq
     (identify_silence_periods empty_transcript 10 1 (1#10))
     [(1#10, 10 - (1#10))]) /\
  ((1#20) < (3#20) /\ (3#20) <= 2 * (1#10) /\
   identify_silence_periods empty_transcript (3#20) (1#20) (1#10) = []) /\
  ((1#2) <= 1 /\
   identify_silence_periods empty_transcript (1#2) 1 (1#10) = []).
Proof.
  assert (Hb : 0 <= 1#10) by lra.
  assert (Ht : 1 < 10) by lra.
  assert (Hd : 2 * (1#10) < 10) by lra.
  assert (Ht' : (1#20) < (3#20)) by lra.
  assert (Hd' : (3#20) <= 2 * (1#10)) by lra.
  assert (Hs : (1#2) <= 1) by lra.
  split; [exact Hb|]. split; [|split].
  - split; [exact Ht|]. split; [exact Hd|].
    exact (proj1 (identify_silence_periods_empty_transcript 10 1 (1#10) Hb)
             Ht Hd).
  - split; [exact Ht'|]. split; [exact Hd'|].
    exact (proj1 (proj2 (identify_silence_periods_empty_transcript
                           (3#20) (1#20) (1#10) Hb)) Ht' Hd').
  - split; [exact Hs|].
    exact (proj2 (proj2 (identify_silence_periods_empty_transcript
                           (1#2) 1 (1#10) Hb)) Hs).
Defined.

(** C6. On one segment [[0,10]] holding the words [[0,1]] and [[9,10]], the
    source, which reads segment bounds, finds no silence, while the scan over
    the flattened word list finds [(1.1, 8.9)]. *)
Theorem identify_silence_periods_reads_segments :
  identify_silence_periods one_segment_two_words 10 1 (1#10) = [] /\
  Forall2 interval_eq
    (identify_silence_periods_word_level one_segment_two_words 10 1 (1#10))
    [(11#10, 89#10)].
Proof.
  split.
  - vm_compute. reflexivity.
  - vm_compute. repeat constructor.
Qed.

(** ** The chunk partition *)

Lemma chained_proper (cs : list Chunk) (a a' b : Q) :
  a == a' -> chained a cs b -> chained a' cs b.
Proof.
  destruct cs as [|c r]; simpl; intros E H.
  - lra.
  - destruct H as (H1 & H2 & H3). repeat split; try assumption. lra.
Qed.

Lemma chained_le (cs : list Chunk) : forall a b, chained a cs b -> a <= b.
Proof.
  induction cs as [|c r IH]; simpl; intros a b H.
  - lra.
  - destruct H as (H1 & H2 & H3). apply IH in H3. lra.
Qed.

Lemma chained_lower (cs : list Chunk) :
  forall a b, chained a cs b -> Forall (fun c => a <= c_start c) cs.
Proof.
  induction cs as [|c r IH]; simpl; intros a b H; constructor.
  - destruct H as (H1 & _). lra.
  - destruct H as (H1 & H2 & H3).
    eapply Forall_impl; [|exact (IH _ _ H3)]. simpl. intros d Hd. lra.
Qed.

Lemma chained_covers (cs : list Chunk) :
  forall a b, chained a cs b -> covers cs a b.
Proof.
  induction cs as [|c r IH]; simpl; intros a b H t.
  - split.
    + intros [H1 H2]. lra.
    + intros E. inversion E.
  - destruct H as (H1 & H2 & H3).
    pose proof (chained_le _ _ _ H3) as Hle.
    specialize (IH _ _ H3 t). split.
    + intros [T1 T2]. destruct (Qlt_le_dec t (c_end c)) as [L|L].
      * apply Exists_cons_hd. unfold in_chunk. split; lra.
      * apply Exists_cons_tl. apply IH. split; lra.
    + intros E. inversion E as [? ? [T1 T2]|? ? T]; subst.
      * split; lra.
      * apply IH in T. split; lra.
Qed.

Lemma chained_disjoint (cs : list Chunk) :
  forall a b, chained a cs b -> chunks_disjoint cs.
Proof.
  induction cs as [|c r IH]; simpl; intros a b H; constructor.
  - destruct H as (_ & _ & H3). exact (IH _ _ H3).
  - destruct H as (_ & _ & H3). exact (chained_lower _ _ _ H3).
Qed.

Lemma StronglySorted_filter {A : Type} (R : A -> A -> Prop) (f : A -> bool)
  (l : list A) : StronglySorted R l -> StronglySorted R (filter f l).
Proof.
  induction 1 as [|a l Hl IH Ha]; simpl.
  - constructor.
  - destruct (f a); [|exact IH].
    constructor; [exact IH|].
    rewrite Forall_forall in *. intros x Hx. apply Ha.
    apply filter_In in Hx. tauto.
Qed.

Lemma indices_increasing (D C : Q) (len : nat) :
  forall k : nat,
    index_increasing (map (chunk_of D C) (map Z.of_nat (seq k len))) /\
    Forall (fun c => (Z.of_nat k <= c_index c)%Z)
           (map (chunk_of D C) (map Z.of_nat (seq k len))).
Proof.
  induction len as [|l IH]; intros k; simpl.
  - split; constructor.
  - destruct (IH (S k)) as [I L]. split.
    + constructor; [exact I|].
      eapply Forall_impl; [|exact L]. simpl. intros c Hc. lia.
    + constructor; [simpl; lia|].
      eapply Forall_impl; [|exact L]. simpl. intros c Hc. lia.
Qed.

Section Partition.

Variables (D C : Q).
Hypothesis D_nonneg : 0 <= D.
Hypothesis C_pos : 0 < C.

Local Abbreviation n0 := (full_chunks D C).

Lemma quotient_nonneg : 0 <= D / C.
Proof. apply Qle_shift_div_l; [exact C_pos | lra]. Qed.

Lemma floor_bounds : inject_Z n0 * C <= D /\ D < (inject_Z n0 + 1) * C.
Proof.
  assert (E : D / C * C == D) by (field; lra).
  pose proof (Qfloor_le (D / C)) as L.
  pose proof (Qlt_floor (D / C)) as U.
  rewrite inject_Z_plus in U. fold n0 in L, U.
  change (inject_Z 1) with 1 in U.
  assert (H1 : inject_Z n0 * C <= D / C * C)
    by (apply Qmult_le_compat_r; [exact L | lra]).
  assert (H2 : D / C * C < (inject_Z n0 + 1) * C)
    by (apply Qmult_lt_compat_r; [exact C_pos | exact U]).
  set (q := D / C * C) in *. clearbody q. split; lra.
Qed.

Lemma n0_nonneg : (0 <= n0)%Z.
Proof.
  change 0%Z with (Qfloor 0). apply Qfloor_resp_le. exact quotient_nonneg.
Qed.

Lemma py_int_quotient : py_int (D / C) = n0.
Proof.
  unfold py_int.
  assert (H : Qlt_bool (D / C) 0 = false)
    by (apply Qlt_bool_false; exact quotient_nonneg).
  now rewrite H.
Qed.

Lemma py_mod_bounds : 0 <= py_mod D C /\ py_mod D C < C.
Proof.
  unfold py_mod. fold n0. destruct floor_bounds as [L U]. split; lra.
Qed.

Lemma num_chunks_cases :
  (0 < py_mod D C /\ num_chunks D C = (n0 + 1)%Z) \/
  (py_mod D C == 0 /\ num_chunks D C = n0).
Proof.
  unfold num_chunks. rewrite py_int_quotient.
  destruct (Qgt_bool (py_mod D C) 0) eqn:G.
  - left. apply Qgt_bool_true in G. split; [exact G | reflexivity].
  - right. apply Qgt_bool_false in G. destruct py_mod_bounds as [L _].
    split; [lra | lia].
Qed.

Lemma num_chunks_nonneg : (0 <= num_chunks D C)%Z.
Proof.
  pose proof n0_nonneg. destruct num_chunks_cases as [[_ E]|[_ E]]; lia.
Qed.

(** Every loop index starts strictly inside the video. *)
Lemma index_starts_inside (i : Z) :
  (i < num_chunks D C)%Z -> inject_Z i * C < D.
Proof.
  intros Hi. destruct floor_bounds as [L U].
  destruct num_chunks_cases as [[Hm E]|[Hm E]]; rewrite E in Hi.
  - assert (Hle : inject_Z i <= inject_Z n0) by (rewrite <- Zle_Qle; lia).
    unfold py_mod in Hm. fold n0 in Hm.
    assert (inject_Z i * C <= inject_Z n0 * C)
      by (apply Qmult_le_compat_r; lra).
    lra.
  - assert (Hle : inject_Z (i + 1) <= inject_Z n0) by (rewrite <- Zle_Qle; lia).
    rewrite inject_Z_plus in Hle. change (inject_Z 1) with 1 in Hle.
    assert (inject_Z i * C <= (inject_Z n0 - 1) * C)
      by (apply Qmult_le_compat_r; lra).
    lra.
Qed.

(** The last loop index reaches the end of the video. *)
Lemma last_index_reaches_end : D <= inject_Z (num_chunks D C) * C.
Proof.
  destruct floor_bounds as [L U].
  destruct num_chunks_cases as [[Hm E]|[Hm E]]; rewrite E.
  - rewrite inject_Z_plus. change (inject_Z 1) with 1. lra.
  - unfold py_mod in Hm. fold n0 in Hm. lra.
Qed.

Lemma candidates_chained_from (len : nat) :
  forall (k : nat) (a : Q),
    Z.of_nat (k + len) = num_chunks D C ->
    match len with
    | O => a == D
    | S _ => a == inject_Z (Z.of_nat k) * C
    end ->
    chained a (map (chunk_of D C) (map Z.of_nat (seq k len))) D.
Proof.
  induction len as [|l IH]; intros k a Hn Ha; simpl.
  - exact Ha.
  - assert (Hk : inject_Z (Z.of_nat k) * C < D)
      by (apply index_starts_inside; lia).
    assert (Hs : inject_Z (Z.of_nat k + 1) * C
                 == inject_Z (Z.of_nat k) * C + C)
      by (rewrite inject_Z_plus; change (inject_Z 1) with 1; ring).
    split; [lra|]. split.
    + destruct (Qmin_cases (inject_Z (Z.of_nat k + 1) * C) D)
        as [[M1 M2]|[M1 M2]]; rewrite M2; lra.
    + apply IH; [lia|].
      replace (Z.of_nat (S k)) with (Z.of_nat k + 1)%Z by lia.
      destruct l as [|l'].
      * assert (Hend : D <= inject_Z (Z.of_nat k + 1) * C).
        { replace (Z.of_nat k + 1)%Z with (num_chunks D C) by lia.
          exact last_index_reaches_end. }
        destruct (Qmin_cases (inject_Z (Z.of_nat k + 1) * C) D)
          as [[M1 M2]|[M1 M2]]; rewrite M2; lra.
      * assert (Hin : inject_Z (Z.of_nat k + 1) * C < D)
          by (apply index_starts_inside; lia).
        destruct (Qmin_cases (inject_Z (Z.of_nat k + 1) * C) D)
          as [[M1 M2]|[M1 M2]]; rewrite M2; lra.
Qed.

Lemma candidate_chunks_chained : chained 0 (candidate_chunks D C) D.
Proof.
  unfold candidate_chunks, range.
  pose proof num_chunks_nonneg as Hn.
  apply candidates_chained_from.
  - simpl. apply Z2Nat.id. exact Hn.
  - destruct (Z.to_nat (num_chunks D C)) eqn:E.
    + pose proof last_index_reaches_end as H.
      replace (num_chunks D C) with 0%Z in H by lia.
      change (inject_Z 0) with 0 in H. lra.
    + change (inject_Z (Z.of_nat 0)) with 0. lra.
Qed.

(** With a chunk size of at least one second only the final remainder can
    fail the length test, so the plan is a chain from 0 to an end [E] that
    is [D], or [D] less a remainder shorter than one second. *)
Lemma plan_chained_from (len : nat) :
  1 <= C ->
  forall (k : nat) (a : Q),
    Z.of_nat (k + len) = num_chunks D C ->
    match len with
    | O => a == D
    | S _ => a == inject_Z (Z.of_nat k) * C
    end ->
    exists E,
      chained a (filter (fun c => negb (too_short c))
                   (map (chunk_of D C) (map Z.of_nat (seq k len)))) E /\
      (E == D \/
       (E == inject_Z (num_chunks D C - 1) * C /\ D - E < 1 /\ E < D)).
Proof.
  intros HC. induction len as [|l IH]; intros k a Hn Ha; simpl.
  - exists a. split; [lra | left; exact Ha].
  - assert (Hk : inject_Z (Z.of_nat k) * C < D)
      by (apply index_starts_inside; lia).
    assert (Hs : inject_Z (Z.of_nat k + 1) * C
                 == inject_Z (Z.of_nat k) * C + C)
      by (rewrite inject_Z_plus; change (inject_Z 1) with 1; ring).
    unfold too_short at 1. simpl.
    destruct (Qlt_bool _ 1) eqn:T; simpl.
    + apply Qlt_bool_true in T.
      destruct l as [|l'].
      * simpl. exists a. split; [lra|]. right.
        assert (Hend : D <= inject_Z (Z.of_nat k + 1) * C).
        { replace (Z.of_nat k + 1)%Z with (num_chunks D C) by lia.
          exact last_index_reaches_end. }
        replace (num_chunks D C - 1)%Z with (Z.of_nat k) by lia.
        destruct (Qmin_cases (inject_Z (Z.of_nat k + 1) * C) D)
          as [[M1 M2]|[M1 M2]]; rewrite M2 in T; repeat split; lra.
      * exfalso.
        assert (Hin : inject_Z (Z.of_nat k + 1) * C < D)
          by (apply index_starts_inside; lia).
        destruct (Qmin_cases (inject_Z (Z.of_nat k + 1) * C) D)
          as [[M1 M2]|[M1 M2]]; rewrite M2 in T; lra.
    + destruct (IH (S k) (Qmin (inject_Z (Z.of_nat k + 1) * C) D))
        as (E & HE & Hcase).
      * lia.
      * replace (Z.of_nat (S k)) with (Z.of_nat k + 1)%Z by lia.
        destruct l as [|l'].
        -- assert (Hend : D <= inject_Z (Z.of_nat k + 1) * C).
           { replace (Z.of_nat k + 1)%Z with (num_chunks D C) by lia.
             exact last_index_reaches_end. }
           destruct (Qmin_cases (inject_Z (Z.of_nat k + 1) * C) D)
             as [[M1 M2]|[M1 M2]]; rewrite M2; lra.
        -- assert (Hin : inject_Z (Z.of_nat k + 1) * C < D)
             by (apply index_starts_inside; lia).
           destruct (Qmin_cases (inject_Z (Z.of_nat k + 1) * C) D)
             as [[M1 M2]|[M1 M2]]; rewrite M2; lra.
      * exists E. split; [|exact Hcase].
        simpl. split; [lra|]. split; [|exact HE].
        destruct (Qmin_cases (inject_Z (Z.of_nat k + 1) * C) D)
          as [[M1 M2]|[M1 M2]]; rewrite M2; lra.
Qed.

Lemma chunk_plan_chained :
  1 <= C ->
  exists E,
    chained 0 (chunk_plan D C) E /\
    (E == D \/
     (0 < py_mod D C /\ py_mod D C < 1 /\ E == D - py_mod D C)).
Proof.
  intros HC. unfold chunk_plan, candidate_chunks, range.
  pose proof num_chunks_nonneg as Hn.
  destruct (plan_chained_from (Z.to_nat (num_chunks D C)) HC 0%nat 0)
    as (E & HE & Hcase).
  - simpl. apply Z2Nat.id. exact Hn.
  - destruct (Z.to_nat (num_chunks D C)) eqn:Eq.
    + pose proof last_index_reaches_end as H.
      replace (num_chunks D C) with 0%Z in H by lia.
      change (inject_Z 0) with 0 in H. lra.
    + change (inject_Z (Z.of_nat 0)) with 0. lra.
  - exists E. split; [exact HE|].
    destruct Hcase as [Hd|(H1 & H2 & H3)]; [left; exact Hd|].
    destruct floor_bounds as [L U].
    destruct num_chunks_cases as [[Hm En]|[Hm En]]; rewrite En in H1.
    + right. replace (n0 + 1 - 1)%Z with n0 in H1 by lia.
      unfold py_mod in *. fold n0 in Hm |- *. repeat split; lra.
    + exfalso. unfold py_mod in Hm. fold n0 in Hm.
      assert (Hq : inject_Z (n0 - 1) == inject_Z n0 - 1)
        by (unfold Z.sub; rewrite inject_Z_plus; reflexivity).
      rewrite Hq in H1. lra.
Qed.

End Partition.

(** The orchestrator's loop makes exactly the calls of [plan_loop] over the
    indices that pass the length test. *)
Lemma chunk_loop_follows_plan (sv : Services) (input_video : string) (D C : Q)
  (indices : list Z) :
  forall (processed_chunks : list string) (fs : FS),
    chunk_loop sv input_video D C indices processed_chunks fs =
    plan_loop sv input_video
      (filter (fun c => negb (too_short c)) (map (chunk_of D C) indices))
      processed_chunks fs.
Proof.
  induction indices as [|i r IH]; intros acc fs; simpl.
  - reflexivity.
  - destruct (too_short (chunk_of D C i)); simpl.
    + apply IH.
    + unfold bind.
      destruct (process_video_chunk sv input_video _ _ _ fs) as [[ok|e] fs'].
      * apply IH.
      * reflexivity.
Qed.

(** C4, as stated, fails: for a 300.5 s video cut in 300 s chunks, the chunks
    that are processed do not cover [[0, 300.5)]. *)
Lemma chunk_plan_misses_short_tail :
  ~ covers (chunk_plan (601#2) 300) 0 (601#2).
Proof.
  intro H. destruct (H 300) as [Hin _].
  assert (R : 0 <= 300 /\ 300 < 601#2) by (split; lra).
  apply Hin in R. vm_compute in R.
  inversion R as [? ? [_ T]|? ? T]; subst.
  - discriminate T.
  - inversion T.
Qed.

(** C4, amended. For a total duration [D >= 0] and a chunk size [C > 0]: the
    loop's iterations are contiguous, non-overlapping, non-empty chunks in
    increasing index order that cover [[0, D)] exactly; the chunks processed
    are those iterations at least one second long, still disjoint and in
    index order; and when [C >= 1] they form a contiguous run from 0 that
    covers [[0, E)], where [E] is [D], or [D] less a final remainder shorter
    than one second. *)
Theorem chunk_partition (D C : Q) :
  0 <= D -> 0 < C ->
  (chained 0 (candidate_chunks D C) D /\
   covers (candidate_chunks D C) 0 D /\
   chunks_disjoint (candidate_chunks D C) /\
   index_increasing (candidate_chunks D C)) /\
  (forall sv input_video fs,
     chunk_loop sv input_video D C (range (num_chunks D C)) [] fs =
     plan_loop sv input_video (chunk_plan D C) [] fs) /\
  (forall c, In c (chunk_plan D C) <->
             In c (candidate_chunks D C) /\ 1 <= c_end c - c_start c) /\
  chunks_disjoint (chunk_plan D C) /\
  index_increasing (chunk_plan D C) /\
  (1 <= C ->
   exists E,
     chained 0 (chunk_plan D C) E /\
     covers (chunk_plan D C) 0 E /\
     (E == D \/ (0 < py_mod D C /\ py_mod D C < 1 /\ E == D - py_mod D C))).
Proof.
  intros HD HC.
  pose proof (candidate_chunks_chained D C HD HC) as Hch.
  assert (Hidx : index_increasing (candidate_chunks D C))
    by apply (indices_increasing D C _ 0%nat).
  split.
  { split; [exact Hch|].
    split; [exact (chained_covers _ _ _ Hch)|].
    split; [exact (chained_disjoint _ _ _ Hch) | exact Hidx]. }
  split.
  { intros sv input_video fs. apply chunk_loop_follows_plan. }
  split.
  { intro c. unfold chunk_plan. rewrite filter_In, negb_true_iff.
    unfold too_short. rewrite Qlt_bool_false. tauto. }
  split.
  { apply StronglySorted_filter. exact (chained_disjoint _ _ _ Hch). }
  split.
  { apply StronglySorted_filter. exact Hidx. }
  intros H1.
  destruct (chunk_plan_chained D C HD HC H1) as (E & HE & Hcase).
  exists E.
  split; [exact HE|]. split; [exact (chained_covers _ _ _ HE) | exact Hcase].
Qed.

Lemma chunk_partition_witness :
  0 <= 310 /\ 0 < 300 /\ 1 <= 300 /\
  (chained 0 (candidate_chunks 310 300) 310 /\
   covers (candidate_chunks 310 300) 0 310 /\
   chunks_disjoint (candidate_chunks 310 300) /\
   index_increasing (candidate_chunks 310 300)) /\
  (forall sv input_video fs,
     chunk_loop sv input_video 310 300 (range (num_chunks 310 300)) [] fs =
     plan_loop sv input_video (chunk_plan 310 300) [] fs) /\
  (forall c, In c (chunk_plan 310 300) <->
             In c (candidate_chunks 310 300) /\ 1 <= c_end c - c_start c) /\
  chunks_disjoint (chunk_plan 310 300) /\
  index_increasing (chunk_plan 310 300) /\
  exists E,
    chained 0 (chunk_plan 310 300) E /\
    covers (chunk_plan 310 300) 0 E /\
    (E == 310 \/
     (0 < py_mod 310 300 /\ py_mod 310 300 < 1 /\ E == 310 - py_mod 310 300)).
Proof.
  assert (HD : 0 <= 310) by lra.
  assert (HC : 0 < 300) by lra.
  assert (H1 : 1 <= 300) by lra.
  split; [exact HD|]. split; [exact HC|]. split; [exact H1|].
  destruct (chunk_partition 310 300 HD HC) as (P1 & P2 & P3 & P4 & P5 & P6).
  split; [exact P1|]. split; [exact P2|]. split; [exact P3|].
  split; [exact P4|]. split; [exact P5|]. exact (P6 H1).
Defined.

(** ** The cutter *)

Lemma subclip_inside (c : Clip) (a b : Q) :
  0 <= a -> a <= duration c -> 0 <= b ->
  subclip c a b = Ok (mkClip (media c) (origin c + a) (b - a)).
Proof.
  intros Ha Hd Hb. unfold subclip.
  assert (E1 : Qlt_bool a 0 = false) by (apply Qlt_bool_false; exact Ha).
  rewrite E1.
  assert (E2 : Qgt_bool a (duration c) = false) by (apply Qgt_bool_false; exact Hd).
  rewrite E2.
  assert (E3 : Qlt_bool b 0 = false) by (apply Qlt_bool_false; exact Hb).
  now rewrite E3.
Qed.

Lemma total_duration_of_app (l1 l2 : list Clip) :
  total_duration_of (l1 ++ l2) == total_duration_of l1 + total_duration_of l2.
Proof.
  induction l1 as [|c r IH]; simpl; [lra | rewrite IH; lra].
Qed.

Lemma total_duration_of_positive (l : list Clip) :
  l <> [] -> Forall positive_clip l -> 0 < total_duration_of l.
Proof.
  intros Hne Hall. destruct l as [|c r]; [congruence|].
  inversion Hall as [|? ? Hc Hr]; subst. simpl.
  assert (0 <= total_duration_of r).
  { clear -Hr. induction Hr as [|d r Hd _ IH]; simpl; [lra|].
    unfold positive_clip in Hd. lra. }
  unfold positive_clip in Hc. lra.
Qed.

Section Cutter.

Variable video : Clip.
Hypothesis video_nonempty : 0 < duration video.

(** The loop keeps [last_end] inside the clip and appends only clips of
    positive length; it never raises on well-formed silences. *)
Lemma cut_loop_sound (silence_periods : list Interval) :
  Forall interval_ok silence_periods ->
  forall (clips : list Clip) (last_end : Q),
    0 <= last_end -> last_end <= duration video ->
    Forall positive_clip clips ->
    exists clips' last_end',
      cut_loop video silence_periods clips last_end = Ok (clips', last_end') /\
      0 <= last_end' /\ last_end' <= duration video /\
      Forall positive_clip clips'.
Proof.
  induction 1 as [|[s e] r [Hs He] _ IH]; intros clips last_end L1 L2 Hc;
    simpl in *.
  - exists clips, last_end. auto.
  - destruct (Qgt_bool s (duration video)) eqn:B.
    + exists clips, last_end. auto.
    + apply Qgt_bool_false in B.
      assert (M1 : 0 <= Qmin e (duration video) /\
                   Qmin e (duration video) <= duration video).
      { destruct (Qmin_cases e (duration video)) as [[K1 K2]|[K1 K2]];
          rewrite K2; split; lra. }
      destruct (Qlt_bool last_end s) eqn:T.
      * apply Qlt_bool_true in T.
        assert (K : Qmin s (duration video) = s).
        { destruct (Qmin_cases s (duration video)) as [[K1 K2]|[K1 K2]];
            [exact K2 | lra]. }
        rewrite K, subclip_inside by lra.
        apply IH; try tauto.
        apply Forall_app. split; [exact Hc|].
        constructor; [|constructor]. unfold positive_clip. simpl. lra.
      * apply IH; tauto.
Qed.

Lemma keep_clips_sound (silence_periods : list Interval) :
  Forall interval_ok silence_periods ->
  exists kept,
    keep_clips video silence_periods = Ok kept /\ Forall positive_clip kept.
Proof.
  intros Hok. unfold keep_clips.
  destruct (cut_loop_sound silence_periods Hok [] 0)
    as (clips & last_end & E & L1 & L2 & Hc).
  - lra.
  - lra.
  - constructor.
  - rewrite E. destruct (Qlt_bool last_end (duration video)) eqn:T.
    + apply Qlt_bool_true in T. rewrite subclip_inside by lra.
      eexists. split; [reflexivity|].
      apply Forall_app. split; [exact Hc|].
      constructor; [|constructor]. unfold positive_clip. simpl. lra.
    + exists clips. auto.
Qed.

End Cutter.

Section CutterExact.

Variable video : Clip.
Hypothesis video_nonempty : 0 < duration video.

Local Abbreviation shows := (shows video).

Lemma shows_app (l1 l2 : list Clip) (t : Q) :
  shows (l1 ++ l2) t <-> shows l1 t \/ shows l2 t.
Proof. unfold shows, plays. apply Exists_app. Qed.

Lemma shows_window (a b t : Q) :
  shows [mkClip (media video) (origin video + a) (b - a)] t <-> a <= t /\ t < b.
Proof.
  unfold shows, plays. rewrite Exists_cons, Exists_nil. simpl. split.
  - intros [(_ & H1 & H2)|[]]. split; lra.
  - intros [H1 H2]. left. repeat split; lra.
Qed.

(** Given silences relative to the clip, in order, disjoint and inside it,
    the loop keeps exactly the times between them. *)
Lemma cut_loop_exact (silence_periods : list Interval) :
  non_overlapping silence_periods ->
  forall (clips : list Clip) (last_end : Q),
    0 <= last_end -> last_end <= duration video ->
    Forall (within last_end (duration video)) silence_periods ->
    exists new last_end',
      cut_loop video silence_periods clips last_end
      = Ok (clips ++ new, last_end') /\
      last_end <= last_end' /\ last_end' <= duration video /\
      (forall t, shows new t <->
                 last_end <= t /\ t < last_end' /\
                 ~ in_silence silence_periods t) /\
      (forall t, last_end' <= t -> ~ in_silence silence_periods t).
Proof.
  induction 1 as [|[s e] r Hr IH Hlow]; intros clips last_end L1 L2 Hin;
    simpl.
  - exists [], last_end. rewrite app_nil_r.
    split; [reflexivity|]. split; [lra|]. split; [lra|]. split.
    + intros t. split.
      * intros Hs. inversion Hs.
      * intros (H1 & H2 & _). lra.
    + intros t _ Hs. inversion Hs.
  - inversion Hin as [|? ? (W1 & W2 & W3) Hin']; subst. simpl in W1, W2, W3.
    assert (B : Qgt_bool s (duration video) = false)
      by (apply Qgt_bool_false; lra).
    rewrite B.
    assert (Ke : Qmin e (duration video) = e).
    { destruct (Qmin_cases e (duration video)) as [[K1 K2]|[K1 K2]];
        [exact K2 | lra]. }
    assert (Ks : Qmin s (duration video) = s).
    { destruct (Qmin_cases s (duration video)) as [[K1 K2]|[K1 K2]];
        [exact K2 | lra]. }
    rewrite Ke, Ks.
    assert (Hr' : Forall (within e (duration video)) r).
    { rewrite Forall_forall in *. intros iv Hiv.
      destruct (Hin' iv Hiv) as (V1 & V2 & V3).
      specialize (Hlow iv Hiv). simpl in Hlow.
      unfold within. repeat split; lra. }
    assert (Hfar : forall t, t < e -> ~ in_silence r t).
    { intros t Ht Hs. unfold in_silence in Hs. rewrite Exists_exists in Hs.
      destruct Hs as (iv & Hiv & S1 & S2).
      rewrite Forall_forall in Hlow. specialize (Hlow iv Hiv). simpl in Hlow.
      lra. }
    assert (Hhead : forall t, in_silence ((s, e) :: r) t <->
                              (s <= t /\ t < e) \/ in_silence r t).
    { intros t. unfold in_silence. rewrite Exists_cons. simpl. tauto. }
    destruct (Qlt_bool last_end s) eqn:T.
    + apply Qlt_bool_true in T.
      rewrite subclip_inside by lra.
      destruct (IH (clips ++ [mkClip (media video) (origin video + last_end)
                                (s - last_end)]) e)
        as (new & last' & E & M1 & M2 & Hshow & Hafter); try lra; [exact Hr'|].
      rewrite E. rewrite <- app_assoc.
      eexists _, last'. split; [reflexivity|].
      split; [lra|]. split; [lra|]. split.
      * intros t. rewrite shows_app, shows_window, Hshow, Hhead. split.
        -- intros [[H1 H2]|(H1 & H2 & H3)].
           ++ split; [lra|]. split; [lra|].
              intros [[S1 S2]|S]; [lra | exact (Hfar t ltac:(lra) S)].
           ++ split; [lra|]. split; [lra|].
              intros [[S1 S2]|S]; [lra | exact (H3 S)].
        -- intros (H1 & H2 & H3).
           destruct (Qlt_le_dec t s) as [C|C]; [left; split; lra|].
           right. split; [|split; [lra | tauto]].
           destruct (Qlt_le_dec t e) as [C'|C']; [|lra].
           exfalso. apply H3. left. split; lra.
      * intros t Ht. rewrite Hhead. intros [[S1 S2]|S]; [lra|].
        exact (Hafter t Ht S).
    + apply Qlt_bool_false in T.
      destruct (IH clips e) as (new & last' & E & M1 & M2 & Hshow & Hafter);
        try lra; [exact Hr'|].
      rewrite E. exists new, last'. split; [reflexivity|].
      split; [lra|]. split; [lra|]. split.
      * intros t. rewrite Hshow, Hhead. split.
        -- intros (H1 & H2 & H3). split; [lra|]. split; [lra|].
           intros [[S1 S2]|S]; [lra | exact (H3 S)].
        -- intros (H1 & H2 & H3). split; [|split; [lra | tauto]].
           destruct (Qlt_le_dec t e) as [C'|C']; [|lra].
           exfalso. apply H3. left. split; lra.
      * intros t Ht. rewrite Hhead. intros [[S1 S2]|S]; [lra|].
        exact (Hafter t Ht S).
Qed.

(** The cutter's contract: for silences relative to the range, the kept clips
    show exactly the times of the range that lie in no silence. *)
Lemma keep_clips_exact (silence_periods : list Interval) :
  non_overlapping silence_periods ->
  Forall (within 0 (duration video)) silence_periods ->
  exists kept,
    keep_clips video silence_periods = Ok kept /\
    forall t, shows kept t <->
              0 <= t /\ t < duration video /\ ~ in_silence silence_periods t.
Proof.
  intros Hno Hin. unfold keep_clips.
  destruct (cut_loop_exact silence_periods Hno [] 0)
    as (new & last' & E & M1 & M2 & Hshow & Hafter); try lra; [exact Hin|].
  rewrite E. simpl.
  destruct (Qlt_bool last' (duration video)) eqn:T.
  - apply Qlt_bool_true in T. rewrite subclip_inside by lra.
    eexists. split; [reflexivity|]. intros t.
    rewrite shows_app, shows_window, Hshow. split.
    + intros [(H1 & H2 & H3)|[H1 H2]].
      * split; [lra|]. split; [lra | exact H3].
      * split; [lra|]. split; [lra | exact (Hafter t H1)].
    + intros (H1 & H2 & H3).
      destruct (Qlt_le_dec t last') as [C|C].
      * left. split; [lra|]. split; [lra | exact H3].
      * right. split; lra.
  - apply Qlt_bool_false in T. exists new. split; [reflexivity|]. intros t.
    rewrite Hshow. split.
    + intros (H1 & H2 & H3). split; [lra|]. split; [lra | exact H3].
    + intros (H1 & H2 & H3). split; [lra|]. split; [lra | exact H3].
Qed.

End CutterExact.

(** C7. For a non-empty range [[start_time, end_time)] of the source and
    well-formed silence periods, when the encode succeeds [cut_silences]
    writes an output of positive duration: the kept clips, each of positive
    length, or, when no clip is kept, the full unmodified range. *)
Theorem cut_silences_never_empty (sv : Services) (fs : FS)
  (input_video output_video : string) (silence_periods : list Interval)
  (start_time end_time D : Q) :
  find_file input_video (files fs) = Some (Raw D) ->
  0 <= start_time -> start_time < end_time -> start_time <= D ->
  Forall interval_ok silence_periods ->
  encode sv output_video = Encoded ->
  let video := mkClip input_video (0 + start_time) (end_time - start_time) in
  exists kept,
    keep_clips video silence_periods = Ok kept /\
    Forall positive_clip kept /\
    cut_silences sv input_video output_video silence_periods
      (Some start_time) (Some end_time) fs
    = (Ok tt, put_file output_video (Rendered (emitted video kept)) fs) /\
    0 < total_duration_of (emitted video kept).
Proof.
  intros Hf H0 Hlt HD Hok Henc video.
  assert (Hv : 0 < duration video) by (simpl; lra).
  destruct (keep_clips_sound video Hv silence_periods Hok) as (kept & Ek & Hk).
  exists kept. split; [exact Ek|]. split; [exact Hk|]. split.
  - unfold cut_silences, try_except, bind, VideoFileClip, lift_result.
    rewrite Hf. rewrite subclip_inside by (simpl; lra). simpl.
    fold video. rewrite Ek.
    unfold write_videofile, concatenate_videoclips. rewrite Henc.
    destruct kept; reflexivity.
  - destruct kept as [|c r]; simpl emitted.
    + simpl. lra.
    + apply total_duration_of_positive; [discriminate | exact Hk].
Qed.

Lemma cut_silences_never_empty_witness :
  find_file "in.mp4" (files source_only) = Some (Raw 600) /\
  0 <= 0 /\ 0 < 10 /\ 0 <= 600 /\
  Forall interval_ok [(0, 10)] /\
  encode (reliable empty_transcript) "out.mp4" = Encoded /\
  let video := mkClip "in.mp4" (0 + 0) (10 - 0) in
  exists kept,
    keep_clips video [(0, 10)] = Ok kept /\
    Forall positive_clip kept /\
    cut_silences (reliable empty_transcript) "in.mp4" "out.mp4" [(0, 10)]
      (Some 0) (Some 10) source_only
    = (Ok tt, put_file "out.mp4" (Rendered (emitted video kept)) source_only) /\
    0 < total_duration_of (emitted video kept).
Proof.
  assert (Hf : find_file "in.mp4" (files source_only) = Some (Raw 600))
    by reflexivity.
  assert (H0 : 0 <= 0) by lra.
  assert (H1 : 0 < 10) by lra.
  assert (H2 : 0 <= 600) by lra.
  assert (Hs : Forall interval_ok [(0, 10)]).
  { constructor; [|constructor]. unfold interval_ok. simpl. split; lra. }
  assert (He : encode (reliable empty_transcript) "out.mp4" = Encoded)
    by reflexivity.
  repeat (split; [assumption|]).
  exact (cut_silences_never_empty (reliable empty_transcript) source_only
           "in.mp4" "out.mp4" [(0, 10)] 0 10 600 Hf H0 H1 H2 Hs He).
Defined.

(** When the silences cover the whole range no clip is kept, and the full
    range is what gets encoded. *)
Example cut_silences_falls_back_to_full_range :
  cut_silences (reliable empty_transcript) "in.mp4" "out.mp4" [(0, 4); (4, 10)]
    (Some 20) (Some 30) source_only
  = (Ok tt, put_file "out.mp4" (Rendered [mkClip "in.mp4" (0 + 20) (30 - 20)])
              source_only).
Proof. vm_compute. reflexivity. Qed.

(** A chunk that does not start at 0 keeps everything: translated silences
    start after the chunk's own duration, so the loop breaks at once. *)
Lemma keep_clips_translated (video : Clip) (start_time : Q)
  (silence_periods : list Interval) :
  0 < duration video -> duration video <= start_time ->
  Forall (fun iv => 0 < fst iv) silence_periods ->
  keep_clips video (adjust start_time silence_periods)
  = Ok [mkClip (media video) (origin video + 0) (duration video - 0)].
Proof.
  intros Hd Hs Hall. unfold keep_clips.
  assert (E : cut_loop video (adjust start_time silence_periods) [] 0 = Ok ([], 0)).
  { destruct Hall as [|[s e] r Hpos _]; simpl; [reflexivity|].
    simpl in Hpos.
    assert (B : Qgt_bool (s + start_time) (duration video) = true)
      by (apply Qgt_bool_true; lra).
    now rewrite B. }
  rewrite E.
  assert (T : Qlt_bool 0 (duration video) = true) by (apply Qlt_bool_true; exact Hd).
  rewrite T, subclip_inside by lra. reflexivity.
Qed.

(** C1. On the chunk [[300, 600)] of a 600 s source whose transcript has
    speech in [[0,100]] and [[200,300]], the detected silence translated to
    source time contains second 450, yet the chunk's output is the whole
    range and still plays second 450. *)
Theorem process_video_chunk_keeps_translated_silence :
  let r := process_video_chunk (reliable speech_pause_speech)
             "in.mp4" 300 600 "out.mp4" source_only in
  let silences :=
    adjust 300 (identify_silence_periods speech_pause_speech 300 (1#2) (1#10)) in
  fst r = Ok true /\
  in_silence silences 450 /\
  exists clips,
    output_of r "out.mp4" = Some (Rendered clips) /\
    Forall2 clip_eq clips [mkClip "in.mp4" 300 300] /\
    plays clips "in.mp4" 450.
Proof.
  cbv zeta. split; [vm_compute; reflexivity|]. split.
  - set (l := adjust _ _). vm_compute in l. subst l.
    apply Exists_cons_hd. simpl. split; lra.
  - eexists. split; [vm_compute; reflexivity|]. split.
    + repeat constructor.
    + apply Exists_cons_hd. simpl. repeat split; lra.
Qed.

(** ** File-system lemmas *)

Lemma find_file_drop_same (p : string) (l : list (string * Content)) :
  find_file p (drop_file p l) = None.
Proof.
  induction l as [|[q c] r IH]; simpl; [reflexivity|].
  destruct (String.eqb q p) eqn:E; [exact IH|].
  simpl. now rewrite E.
Qed.

Lemma find_file_drop_other (p q : string) (l : list (string * Content)) :
  p <> q -> find_file p (drop_file q l) = find_file p l.
Proof.
  intros Hne. induction l as [|[x c] r IH]; simpl; [reflexivity|].
  destruct (String.eqb x q) eqn:E.
  - apply String.eqb_eq in E. subst x.
    destruct (String.eqb q p) eqn:E'; [|exact IH].
    apply String.eqb_eq in E'. congruence.
  - simpl. now rewrite IH.
Qed.

Lemma is_file_put_same (p : string) (c : Content) (fs : FS) :
  is_file p (put_file p c fs) = true.
Proof. unfold is_file, put_file. simpl. now rewrite String.eqb_refl. Qed.

Lemma is_file_put_other (p q : string) (c : Content) (fs : FS) :
  p <> q -> is_file p (put_file q c fs) = is_file p fs.
Proof.
  intros Hne. unfold is_file, put_file. simpl.
  destruct (String.eqb q p) eqn:E.
  - apply String.eqb_eq in E. congruence.
  - now rewrite find_file_drop_other.
Qed.

Lemma is_file_removed (p : string) (fs : FS) :
  is_file p (mkFS (drop_file p (files fs)) (dirs fs)) = false.
Proof. unfold is_file. simpl. now rewrite find_file_drop_same. Qed.

(** [cut_silences] returns normally whatever happens inside it, and touches
    at most its output file. *)
Lemma cut_silences_contained (sv : Services) (input_video output_video : string)
  (silence_periods : list Interval) (start_time end_time : option Q) (fs : FS) :
  exists fs',
    cut_silences sv input_video output_video silence_periods
      start_time end_time fs = (Ok tt, fs') /\
    (fs' = fs \/ exists c, fs' = put_file output_video c fs).
Proof.
  unfold cut_silences, try_except, bind, VideoFileClip, lift_result, ret,
    write_videofile, concatenate_videoclips.
  destruct (find_file input_video (files fs)) as [[d|cl|]|];
    try (exists fs; split; [reflexivity | now left]);
    (destruct start_time as [s|], end_time as [e|];
     try destruct (subclip _ s e) as [v|x];
     try (exists fs; split; [reflexivity | now left]);
     destruct (keep_clips _ silence_periods) as [[|k ks]|x];
     try (exists fs; split; [reflexivity | now left]);
     destruct (encode sv output_video);
     eexists; (split; [reflexivity|]); eauto).
Qed.

(** ** Failure handling in process_video_chunk *)

(** One step of symbolic execution that leaves file-system operations and
    the called functions folded. *)
Ltac run_step :=
  cbn -[put_file is_file drop_file cut_silences identify_silence_periods
        temp_chunk_name].

(** Once the extraction on line 21 has succeeded, every later failure is
    contained: the call returns a boolean and the temporary chunk is gone. *)
Lemma process_video_chunk_contains_later_failures (sv : Services) (fs : FS)
  (video_path output_chunk_path : string) (start_time end_time D : Q) :
  find_file video_path (files fs) = Some (Raw D) ->
  0 <= start_time -> start_time <= D -> 0 <= end_time ->
  is_dir (temp_chunk_name start_time end_time) fs = false ->
  output_chunk_path <> temp_chunk_name start_time end_time ->
  exists (ok : bool) (fs' : FS),
    process_video_chunk sv video_path start_time end_time output_chunk_path fs
    = (Ok ok, fs') /\
    is_file (temp_chunk_name start_time end_time) fs' = false.
Proof.
  intros Hf H0 HD He.
  remember (temp_chunk_name start_time end_time) as temp eqn:Etemp.
  intros Hdir Hout.
  assert (Hremoved : forall c,
    is_file temp (mkFS (drop_file temp (files (put_file temp c fs)))
                       (dirs (put_file temp c fs))) = false)
    by (intro c; apply is_file_removed).
  unfold process_video_chunk, call, try_except, bind, in_fs, VideoFileClip,
    lift_result, assign_temp_chunk_path, read_temp_chunk_path, ret.
  run_step.
  rewrite Hf. rewrite subclip_inside by (simpl; lra).
  run_step.
  rewrite <- Etemp. unfold write_videofile.
  destruct (encode sv temp) eqn:Enc;
    run_step.
  - unfold whisper_transcribe. rewrite is_file_put_same.
    destruct (transcribe sv temp) as [t|e];
      run_step.
    + unfold os_remove at 1. rewrite is_file_put_same.
      run_step.
      match goal with
      | |- context [cut_silences sv ?i ?o ?s ?a ?b ?f] =>
          destruct (cut_silences_contained sv i o s a b f) as (fs' & Ec & Hfs')
      end.
      rewrite Ec.
      run_step.
      exists true, fs'. split; [reflexivity|].
      destruct Hfs' as [->|[c ->]].
      * apply Hremoved.
      * rewrite is_file_put_other by congruence. apply Hremoved.
    + unfold os_path_exists, os_remove.
      run_step.
      rewrite is_file_put_same.
      run_step.
      rewrite is_file_put_same.
      eexists false, _. split; [reflexivity|]. apply Hremoved.
  - unfold os_path_exists, os_remove.
    run_step. rewrite Hdir.
    destruct (is_file temp fs) eqn:F; run_step.
    + rewrite F. eexists false, _. split; [reflexivity|]. apply is_file_removed.
    + exists false, fs. split; [reflexivity | exact F].
  - unfold os_path_exists, os_remove.
    run_step.
    rewrite is_file_put_same.
    run_step.
    rewrite is_file_put_same.
    eexists false, _. split; [reflexivity|]. apply Hremoved.
Qed.

(** C2. When the extraction itself fails, here because the source file is
    missing or because the chunk starts past the end of the source, the
    handler reads [temp_chunk_path] before it was ever assigned and the call
    raises instead of returning [False]. *)
Theorem process_video_chunk_raises_when_extraction_fails :
  process_video_chunk (reliable speech_pause_speech)
    "missing.mp4" 0 300 "out.mp4" source_only
  = (Raise UnboundLocalError, source_only) /\
  process_video_chunk (reliable speech_pause_speech)
    "in.mp4" 700 800 "out.mp4" source_only
  = (Raise UnboundLocalError, source_only).
Proof.
  split; vm_compute; reflexivity.
Qed.

(** C3. [cut_silences] never raises; but when its encode fails the processor
    still answers [True], with no output file written. *)
Theorem process_video_chunk_reports_success_when_cut_fails :
  (forall sv input_video output_video silence_periods start_time end_time fs,
     fst (cut_silences sv input_video output_video silence_periods
            start_time end_time fs) = Ok tt) /\
  let r := process_video_chunk (encode_fails_at "out.mp4" speech_pause_speech)
             "in.mp4" 0 300 "out.mp4" source_only in
  fst r = Ok true /\ is_file "out.mp4" (snd r) = false.
Proof.
  split.
  - intros sv i o s a b fs.
    destruct (cut_silences_contained sv i o s a b fs) as (fs' & E & _).
    now rewrite E.
  - cbv zeta. split; vm_compute; reflexivity.
Qed.

(** C9. When every chunk fails, and when no processed chunk can be loaded,
    [process_long_video] returns with the temporary directory still in
    place; only the path through the final write removes it. *)
Theorem process_long_video_leaves_temp_dir :
  (let r := process_long_video whisper_down "in.mp4" "final.mp4" 300
              source_only in
   fst r = Ok tt /\ is_dir temp_dir (snd r) = true) /\
  (let r := process_long_video (chunk_encodes_fail speech_pause_speech)
              "in.mp4" "final.mp4" 300 source_only in
   fst r = Ok tt /\ is_dir temp_dir (snd r) = true) /\
  (let r := process_long_video (reliable speech_pause_speech)
              "in.mp4" "final.mp4" 300 source_only in
   fst r = Ok tt /\ is_dir temp_dir (snd r) = false /\
   is_file (chunk_output_name 0) (snd r) = false /\
   is_file (chunk_output_name 1) (snd r) = false /\
   is_file "final.mp4" (snd r) = true).
Proof.
  cbv zeta. repeat split; vm_compute; reflexivity.
Qed.

(** ** Further properties of the detector *)

Lemma seg_end_le_trans :
  Relations_1.Transitive (fun a b : Segment => seg_end a <= seg_end b).
Proof. intros x y z H1 H2. lra. Qed.

(** Scanning [words] after the segments [done]: every interval found stays a
    buffer away from the segments already passed and from those to come. *)
Lemma gaps_clear (vd th buf : Q) (words : list Segment) :
  forall (prev : Q) (done : list Segment),
    Forall (fun d => seg_end d <= prev) done ->
    Forall (fun d => Forall (fun w => seg_end d <= seg_end w) words) done ->
    StronglySorted (fun a b => seg_start a <= seg_start b) words ->
    StronglySorted (fun a b => seg_end a <= seg_end b) words ->
    Forall (fun iv => Forall (clear_of buf iv) (done ++ words))
           (gaps vd th buf prev words).
Proof.
  induction words as [|w r IH]; intros prev done Hprev Hlater Hs He; simpl.
  - destruct (candidate_cases vd th buf prev vd)
      as [E|(e & E & H1 & H2 & H3 & H4)]; rewrite E; [constructor|].
    constructor; [|constructor]. rewrite app_nil_r.
    eapply Forall_impl; [|exact Hprev]. intros d Hd. right. simpl in *. lra.
  - inversion Hs as [|? ? Hs' Hstart]; subst.
    inversion He as [|? ? He' Hend]; subst.
    apply Forall_app. split.
    + destruct (candidate_cases vd th buf prev (seg_start w))
        as [E|(e & E & H1 & H2 & H3 & H4)]; rewrite E; [constructor|].
      constructor; [|constructor]. apply Forall_app. split.
      * eapply Forall_impl; [|exact Hprev]. intros d Hd. right. simpl in *. lra.
      * constructor; [left; simpl; lra|].
        eapply Forall_impl; [|exact Hstart]. intros x Hx. left. simpl in *. lra.
    + replace (done ++ w :: r) with ((done ++ [w]) ++ r)
        by (rewrite <- app_assoc; reflexivity).
      apply IH; try assumption.
      * apply Forall_app. split.
        -- eapply Forall_impl; [|exact Hlater]. intros d Hd.
           inversion Hd; subst. assumption.
        -- constructor; [lra | constructor].
      * apply Forall_app. split.
        -- eapply Forall_impl; [|exact Hlater]. intros d Hd.
           inversion Hd; subst. assumption.
        -- constructor; [exact Hend | constructor].
Qed.

(** X1. When segment starts and segment ends are both non-decreasing, every
    interval returned by [identify_silence_periods] stays at least [buffer]
    away from every segment; so, for a buffer that is not negative, no
    instant is both reported silent and inside a segment. *)
Theorem identify_silence_periods_spares_speech
  (t : Transcription) (video_duration threshold buffer : Q) :
  Sorted (fun a b => seg_start a <= seg_start b) (segments t) ->
  Sorted (fun a b => seg_end a <= seg_end b) (segments t) ->
  Forall (fun iv => Forall (clear_of buffer iv) (segments t))
         (identify_silence_periods t video_duration threshold buffer) /\
  (0 <= buffer ->
   forall x,
     in_silence (identify_silence_periods t video_duration threshold buffer) x ->
     ~ spoken t x).
Proof.
  intros Hs He.
  apply Sorted_StronglySorted in Hs; [|exact seg_start_le_trans].
  apply Sorted_StronglySorted in He; [|exact seg_end_le_trans].
  assert (Hclear : Forall (fun iv => Forall (clear_of buffer iv) (segments t))
            (identify_silence_periods t video_duration threshold buffer)).
  { rewrite identify_silence_periods_gaps.
    apply (gaps_clear video_duration threshold buffer (segments t) 0 []);
      try assumption; constructor. }
  split; [exact Hclear|].
  intros Hb x Hsil Hsp. unfold in_silence in Hsil. unfold spoken in Hsp.
  rewrite Exists_exists in Hsil, Hsp.
  destruct Hsil as (iv & Hiv & I1 & I2). destruct Hsp as (w & Hw & W1 & W2).
  rewrite Forall_forall in Hclear. specialize (Hclear iv Hiv).
  rewrite Forall_forall in Hclear. destruct (Hclear w Hw) as [C|C]; lra.
Qed.

Lemma three_utterances_ends_sorted :
  Sorted (fun a b => seg_end a <= seg_end b) (segments three_utterances).
Proof. repeat constructor; simpl; lra. Defined.

Lemma identify_silence_periods_spares_speech_witness :
  Sorted (fun a b => seg_start a <= seg_start b) (segments three_utterances) /\
  Sorted (fun a b => seg_end a <= seg_end b) (segments three_utterances) /\
  0 <= 1#10 /\
  Forall (fun iv => Forall (clear_of (1#10) iv) (segments three_utterances))
         (identify_silence_periods three_utterances 10 1 (1#10)) /\
  forall x,
    in_silence (identify_silence_periods three_utterances 10 1 (1#10)) x ->
    ~ spoken three_utterances x.
Proof.
  assert (Hb : 0 <= 1#10) by lra.
  pose proof (proj2 three_utterances_monotone) as Hs.
  pose proof three_utterances_ends_sorted as He.
  split; [exact Hs|]. split; [exact He|]. split; [exact Hb|].
  destruct (identify_silence_periods_spares_speech three_utterances 10 1 (1#10)
              Hs He) as [C N].
  split; [exact C | exact (N Hb)].
Defined.

(** A chunk not longer than the threshold has no gap that exceeds it. *)
Lemma gaps_short_chunk (vd th buf : Q) (words : list Segment) :
  vd <= th ->
  forall prev,
    0 <= prev ->
    Forall (fun w => 0 <= seg_end w /\ seg_start w <= vd) words ->
    gaps vd th buf prev words = [].
Proof.
  intros Hshort. induction words as [|w r IH]; intros prev Hp Hall; simpl.
  - unfold candidate.
    assert (G : Qgt_bool (vd - prev) th = false) by (apply Qgt_bool_false; lra).
    now rewrite G.
  - inversion Hall as [|? ? [H1 H2] Hr]; subst.
    unfold candidate at 1.
    assert (G : Qgt_bool (seg_start w - prev) th = false)
      by (apply Qgt_bool_false; lra).
    rewrite G. simpl. apply IH; assumption.
Qed.

(** X2. A chunk whose duration does not exceed the threshold yields no
    silence at all, for any transcript whose segments end at non-negative
    times and start inside the chunk. *)
Theorem identify_silence_periods_short_chunk
  (t : Transcription) (video_duration threshold buffer : Q) :
  video_duration <= threshold ->
  Forall (fun w => 0 <= seg_end w /\ seg_start w <= video_duration)
         (segments t) ->
  identify_silence_periods t video_duration threshold buffer = [].
Proof.
  intros Hshort Hall. rewrite identify_silence_periods_gaps.
  apply gaps_short_chunk; [exact Hshort | lra | exact Hall].
Qed.

Lemma identify_silence_periods_short_chunk_witness :
  10 <= 12 /\
  Forall (fun w => 0 <= seg_end w /\ seg_start w <= 10)
         (segments three_utterances) /\
  identify_silence_periods three_utterances 10 12 (1#10) = [].
Proof.
  assert (H1 : 10 <= 12) by lra.
  assert (H2 : Forall (fun w => 0 <= seg_end w /\ seg_start w <= 10)
                      (segments three_utterances)).
  { repeat constructor; simpl; lra. }
  split; [exact H1|]. split; [exact H2|].
  exact (identify_silence_periods_short_chunk three_utterances 10 12 (1#10)
           H1 H2).
Defined.

(** ** Further properties of the cutter *)

Lemma silence_total_nonneg (d lo : Q) (l : list Interval) :
  Forall (within lo d) l -> 0 <= silence_total l.
Proof.
  induction 1 as [|iv r (H1 & H2 & H3) _ IH]; simpl; lra.
Qed.

Lemma window_of_positive (video c : Clip) : window_of video c -> positive_clip c.
Proof.
  intros (a & b & H1 & H2 & H3 & ->). unfold positive_clip. simpl. lra.
Qed.

Lemma window_of_shows (video c : Clip) (rest : list Clip) :
  window_of video c -> exists x, 0 <= x /\ x < duration video /\
                                 shows video (c :: rest) x.
Proof.
  intros (a & b & H1 & H2 & H3 & ->). exists a.
  split; [lra|]. split; [lra|].
  unfold shows, plays. apply Exists_cons_hd. simpl. repeat split; lra.
Qed.

Section CutterAccounts.

Variable video : Clip.
Hypothesis video_nonempty : 0 < duration video.

(** Under the hypotheses of [cut_loop_exact], what the loop appends are
    windows of the clip, and their lengths and the silences' add up to the
    distance covered. *)
Lemma cut_loop_accounts (silence_periods : list Interval) :
  non_overlapping silence_periods ->
  forall (clips : list Clip) (last_end : Q),
    0 <= last_end -> last_end <= duration video ->
    Forall (within last_end (duration video)) silence_periods ->
    exists new last_end',
      cut_loop video silence_periods clips last_end
      = Ok (clips ++ new, last_end') /\
      last_end <= last_end' /\ last_end' <= duration video /\
      Forall (window_of video) new /\
      total_duration_of new + silence_total silence_periods
      == last_end' - last_end.
Proof.
  induction 1 as [|[s e] r Hr IH Hlow]; intros clips last_end L1 L2 Hin;
    simpl.
  - exists [], last_end. rewrite app_nil_r.
    split; [reflexivity|]. split; [lra|]. split; [lra|].
    split; [constructor | simpl; lra].
  - inversion Hin as [|? ? (W1 & W2 & W3) Hin']; subst. simpl in W1, W2, W3.
    assert (B : Qgt_bool s (duration video) = false)
      by (apply Qgt_bool_false; lra).
    rewrite B.
    assert (Ke : Qmin e (duration video) = e).
    { destruct (Qmin_cases e (duration video)) as [[K1 K2]|[K1 K2]];
        [exact K2 | lra]. }
    assert (Ks : Qmin s (duration video) = s).
    { destruct (Qmin_cases s (duration video)) as [[K1 K2]|[K1 K2]];
        [exact K2 | lra]. }
    rewrite Ke, Ks.
    assert (Hr' : Forall (within e (duration video)) r).
    { rewrite Forall_forall in *. intros iv Hiv.
      destruct (Hin' iv Hiv) as (V1 & V2 & V3).
      specialize (Hlow iv Hiv). simpl in Hlow.
      unfold within. repeat split; lra. }
    destruct (Qlt_bool last_end s) eqn:T.
    + apply Qlt_bool_true in T.
      rewrite subclip_inside by lra.
      destruct (IH (clips ++ [mkClip (media video) (origin video + last_end)
                                (s - last_end)]) e)
        as (new & last' & E & M1 & M2 & Hwin & Hsum); try lra; [exact Hr'|].
      rewrite E. rewrite <- app_assoc.
      eexists _, last'. split; [reflexivity|].
      split; [lra|]. split; [lra|]. split.
      * constructor; [|exact Hwin].
        exists last_end, s. repeat split; try lra.
      * simpl. lra.
    + apply Qlt_bool_false in T.
      destruct (IH clips e) as (new & last' & E & M1 & M2 & Hwin & Hsum);
        try lra; [exact Hr'|].
      rewrite E. exists new, last'. split; [reflexivity|].
      split; [lra|]. split; [lra|]. split; [exact Hwin|].
      simpl. lra.
Qed.

Lemma keep_clips_accounts (silence_periods : list Interval) :
  non_overlapping silence_periods ->
  Forall (within 0 (duration video)) silence_periods ->
  exists kept,
    keep_clips video silence_periods = Ok kept /\
    Forall (window_of video) kept /\
    total_duration_of kept + silence_total silence_periods == duration video.
Proof.
  intros Hno Hin. unfold keep_clips.
  destruct (cut_loop_accounts silence_periods Hno [] 0)
    as (new & last' & E & M1 & M2 & Hwin & Hsum); try lra; [exact Hin|].
  rewrite E. simpl.
  destruct (Qlt_bool last' (duration video)) eqn:T.
  - apply Qlt_bool_true in T. rewrite subclip_inside by lra.
    eexists. split; [reflexivity|]. split.
    + apply Forall_app. split; [exact Hwin|].
      constructor; [|constructor].
      exists last', (duration video). repeat split; lra.
    + rewrite total_duration_of_app. simpl. lra.
  - apply Qlt_bool_false in T. exists new. split; [reflexivity|].
    split; [exact Hwin | lra].
Qed.

End CutterAccounts.

(** With the source present, the range inside it and a successful encode,
    [cut_silences] writes what [keep_clips] kept, or the range itself. *)
Lemma cut_silences_writes (sv : Services) (fs : FS)
  (input_video output_video : string) (silence_periods : list Interval)
  (start_time end_time D : Q) (kept : list Clip) :
  find_file input_video (files fs) = Some (Raw D) ->
  0 <= start_time -> start_time <= D -> 0 <= end_time ->
  encode sv output_video = Encoded ->
  keep_clips (mkClip input_video (0 + start_time) (end_time - start_time))
    silence_periods = Ok kept ->
  cut_silences sv input_video output_video silence_periods
    (Some start_time) (Some end_time) fs
  = (Ok tt,
     put_file output_video
       (Rendered (emitted (mkClip input_video (0 + start_time)
                             (end_time - start_time)) kept)) fs).
Proof.
  intros Hf H0 HD He Henc Ek.
  unfold cut_silences, try_except, bind, VideoFileClip, lift_result.
  rewrite Hf. rewrite subclip_inside by (simpl; lra). simpl.
  rewrite Ek. unfold write_videofile, concatenate_videoclips. rewrite Henc.
  destruct kept; reflexivity.
Qed.

(** X3. Given silence periods on the range's own clock, in order, disjoint
    and inside the range, [cut_silences] writes a file that shows exactly the
    instants of the range lying in no silence period; when every instant of
    the range is silent it writes the whole range instead. *)
Theorem cut_silences_excises_exactly (sv : Services) (fs : FS)
  (input_video output_video : string) (silence_periods : list Interval)
  (start_time end_time D : Q) :
  find_file input_video (files fs) = Some (Raw D) ->
  0 <= start_time -> start_time < end_time -> start_time <= D ->
  non_overlapping silence_periods ->
  Forall (within 0 (end_time - start_time)) silence_periods ->
  encode sv output_video = Encoded ->
  let video := mkClip input_video (0 + start_time) (end_time - start_time) in
  exists clips,
    cut_silences sv input_video output_video silence_periods
      (Some start_time) (Some end_time) fs
    = (Ok tt, put_file output_video (Rendered clips) fs) /\
    ((exists x, 0 <= x /\ x < end_time - start_time /\
                ~ in_silence silence_periods x) ->
     forall x, shows video clips x <->
               0 <= x /\ x < end_time - start_time /\
               ~ in_silence silence_periods x) /\
    ((forall x, 0 <= x -> x < end_time - start_time ->
                in_silence silence_periods x) ->
     clips = [video]).
Proof.
  intros Hf H0 Hlt HD Hno Hin Henc video.
  assert (Hv : 0 < duration video) by (simpl; lra).
  destruct (keep_clips_exact video Hv silence_periods Hno Hin)
    as (kept & Ek & Hshow).
  destruct (keep_clips_accounts video Hv silence_periods Hno Hin)
    as (kept' & Ek' & Hwin & _).
  rewrite Ek in Ek'. injection Ek' as <-.
  exists (emitted video kept). split.
  - apply cut_silences_writes with (D := D); try assumption; lra.
  - split.
    + intros (x & X1 & X2 & X3).
      assert (Hx : shows video kept x) by (apply Hshow; simpl; tauto).
      destruct kept as [|c r]; [inversion Hx|]. simpl emitted.
      intros y. rewrite Hshow. simpl. tauto.
    + intros Hall. destruct kept as [|c r]; [reflexivity|]. exfalso.
      inversion Hwin as [|? ? Hc _]; subst.
      destruct (window_of_shows video c r Hc) as (x & X1 & X2 & X3).
      apply Hshow in X3. destruct X3 as (_ & _ & X3).
      apply X3. apply Hall; simpl in *; lra.
Qed.

Lemma cut_silences_excises_exactly_witness :
  find_file "in.mp4" (files source_only) = Some (Raw 600) /\
  0 <= 20 /\ 20 < 30 /\ 20 <= 600 /\
  non_overlapping [(2, 4); (6, 7)] /\
  Forall (within 0 (30 - 20)) [(2, 4); (6, 7)] /\
  encode (reliable empty_transcript) "out.mp4" = Encoded /\
  let video := mkClip "in.mp4" (0 + 20) (30 - 20) in
  exists clips,
    cut_silences (reliable empty_transcript) "in.mp4" "out.mp4"
      [(2, 4); (6, 7)] (Some 20) (Some 30) source_only
    = (Ok tt, put_file "out.mp4" (Rendered clips) source_only) /\
    ((exists x, 0 <= x /\ x < 30 - 20 /\ ~ in_silence [(2, 4); (6, 7)] x) ->
     forall x, shows video clips x <->
               0 <= x /\ x < 30 - 20 /\ ~ in_silence [(2, 4); (6, 7)] x) /\
    ((forall x, 0 <= x -> x < 30 - 20 -> in_silence [(2, 4); (6, 7)] x) ->
     clips = [video]).
Proof.
  assert (Hf : find_file "in.mp4" (files source_only) = Some (Raw 600))
    by reflexivity.
  assert (H0 : 0 <= 20) by lra.
  assert (H1 : 20 < 30) by lra.
  assert (H2 : 20 <= 600) by lra.
  assert (Hno : non_overlapping [(2, 4); (6, 7)]).
  { repeat constructor; simpl; lra. }
  assert (Hin : Forall (within 0 (30 - 20)) [(2, 4); (6, 7)]).
  { repeat constructor; simpl; lra. }
  assert (He : encode (reliable empty_transcript) "out.mp4" = Encoded)
    by reflexivity.
  repeat (split; [assumption|]).
  exact (cut_silences_excises_exactly (reliable empty_transcript) source_only
           "in.mp4" "out.mp4" [(2, 4); (6, 7)] 20 30 600
           Hf H0 H1 H2 Hno Hin He).
Defined.

(** X4. Under the same conditions the file written lasts the length of the
    range less the summed length of the silence periods; when the silences
    fill the range it lasts the length of the range. *)
Theorem cut_silences_output_duration (sv : Services) (fs : FS)
  (input_video output_video : string) (silence_periods : list Interval)
  (start_time end_time D : Q) :
  find_file input_video (files fs) = Some (Raw D) ->
  0 <= start_time -> start_time < end_time -> start_time <= D ->
  non_overlapping silence_periods ->
  Forall (within 0 (end_time - start_time)) silence_periods ->
  encode sv output_video = Encoded ->
  exists clips,
    cut_silences sv input_video output_video silence_periods
      (Some start_time) (Some end_time) fs
    = (Ok tt, put_file output_video (Rendered clips) fs) /\
    silence_total silence_periods <= end_time - start_time /\
    (silence_total silence_periods < end_time - start_time ->
     total_duration_of clips
     == end_time - start_time - silence_total silence_periods) /\
    (silence_total silence_periods == end_time - start_time ->
     total_duration_of clips == end_time - start_time).
Proof.
  intros Hf H0 Hlt HD Hno Hin Henc.
  set (video := mkClip input_video (0 + start_time) (end_time - start_time)).
  assert (Hv : 0 < duration video) by (simpl; lra).
  destruct (keep_clips_accounts video Hv silence_periods Hno Hin)
    as (kept & Ek & Hwin & Hsum).
  simpl duration in Hsum.
  exists (emitted video kept). split.
  - apply cut_silences_writes with (D := D); try assumption; lra.
  - destruct kept as [|c r]; simpl emitted.
    + simpl in Hsum. repeat split; simpl; lra.
    + assert (Hpos : 0 < total_duration_of (c :: r)).
      { apply total_duration_of_positive; [discriminate|].
        eapply Forall_impl; [|exact Hwin]. apply window_of_positive. }
      repeat split; lra.
Qed.

Lemma cut_silences_output_duration_witness :
  find_file "in.mp4" (files source_only) = Some (Raw 600) /\
  0 <= 20 /\ 20 < 30 /\ 20 <= 600 /\
  non_overlapping [(2, 4); (6, 7)] /\
  Forall (within 0 (30 - 20)) [(2, 4); (6, 7)] /\
  encode (reliable empty_transcript) "out.mp4" = Encoded /\
  exists clips,
    cut_silences (reliable empty_transcript) "in.mp4" "out.mp4"
      [(2, 4); (6, 7)] (Some 20) (Some 30) source_only
    = (Ok tt, put_file "out.mp4" (Rendered clips) source_only) /\
    silence_total [(2, 4); (6, 7)] <= 30 - 20 /\
    (silence_total [(2, 4); (6, 7)] < 30 - 20 ->
     total_duration_of clips == 30 - 20 - silence_total [(2, 4); (6, 7)]) /\
    (silence_total [(2, 4); (6, 7)] == 30 - 20 ->
     total_duration_of clips == 30 - 20).
Proof.
  assert (Hf : find_file "in.mp4" (files source_only) = Some (Raw 600))
    by reflexivity.
  assert (H0 : 0 <= 20) by lra.
  assert (H1 : 20 < 30) by lra.
  assert (H2 : 20 <= 600) by lra.
  assert (Hno : non_overlapping [(2, 4); (6, 7)]).
  { repeat constructor; simpl; lra. }
  assert (Hin : Forall (within 0 (30 - 20)) [(2, 4); (6, 7)]).
  { repeat constructor; simpl; lra. }
  assert (He : encode (reliable empty_transcript) "out.mp4" = Encoded)
    by reflexivity.
  repeat (split; [assumption|]).
  exact (cut_silences_output_duration (reliable empty_transcript) source_only
           "in.mp4" "out.mp4" [(2, 4); (6, 7)] 20 30 600
           Hf H0 H1 H2 Hno Hin He).
Defined.

Lemma find_file_put_other (p q : string) (c : Content) (fs : FS) :
  p <> q ->
  find_file p (files (put_file q c fs)) = find_file p (files fs).
Proof.
  intros Hne. unfold put_file. simpl.
  destruct (String.eqb q p) eqn:E.
  - apply String.eqb_eq in E. congruence.
  - now apply find_file_drop_other.
Qed.

(** X5. [cut_silences] returns normally whatever happens inside it.  When
    the source cannot be opened it writes nothing; when the encode of the
    output succeeds it leaves every directory and every file other than the
    output as they were. *)
Theorem cut_silences_returns_and_frames (sv : Services)
  (input_video output_video : string) (silence_periods : list Interval)
  (start_time end_time : option Q) (fs : FS) :
  exists fs',
    cut_silences sv input_video output_video silence_periods
      start_time end_time fs = (Ok tt, fs') /\
    (find_file input_video (files fs) = None -> fs' = fs) /\
    (encode sv output_video = Encoded ->
     dirs fs' = dirs fs /\
     forall p, p <> output_video ->
               find_file p (files fs') = find_file p (files fs)).
Proof.
  destruct (cut_silences_contained sv input_video output_video silence_periods
              start_time end_time fs) as (fs' & E & Hfs').
  exists fs'. split; [exact E|]. split.
  - intros Hnone. revert E.
    unfold cut_silences, try_except, bind, VideoFileClip. rewrite Hnone.
    simpl. intros E. now injection E.
  - intros _. split.
    + destruct Hfs' as [->|[c ->]]; reflexivity.
    + intros p Hp. destruct Hfs' as [->|[c ->]]; [reflexivity|].
      now apply find_file_put_other.
Qed.

Lemma cut_silences_returns_and_frames_witness :
  find_file "missing.mp4" (files source_only) = None /\
  encode (reliable empty_transcript) "out.mp4" = Encoded /\
  (exists fs',
     cut_silences (reliable empty_transcript) "missing.mp4" "out.mp4" [(2, 4)]
       (Some 20) (Some 30) source_only = (Ok tt, fs') /\
     fs' = source_only) /\
  (exists fs',
     cut_silences (reliable empty_transcript) "in.mp4" "out.mp4" [(2, 4)]
       (Some 20) (Some 30) source_only = (Ok tt, fs') /\
     dirs fs' = dirs source_only /\
     forall p, p <> "out.mp4"%string ->
               find_file p (files fs') = find_file p (files source_only)).
Proof.
  assert (Hn : find_file "missing.mp4" (files source_only) = None)
    by reflexivity.
  assert (He : encode (reliable empty_transcript) "out.mp4" = Encoded)
    by reflexivity.
  split; [exact Hn|]. split; [exact He|]. split.
  - destruct (cut_silences_returns_and_frames (reliable empty_transcript)
                "missing.mp4" "out.mp4" [(2, 4)] (Some 20) (Some 30)
                source_only) as (fs' & E & Hs & _).
    exists fs'. split; [exact E | exact (Hs Hn)].
  - destruct (cut_silences_returns_and_frames (reliable empty_transcript)
                "in.mp4" "out.mp4" [(2, 4)] (Some 20) (Some 30)
                source_only) as (fs' & E & _ & Hk).
    exists fs'. split; [exact E | exact (Hk He)].
Defined.

(** A silence that starts past the end of the clip ends the loop: it and
    everything after it are ignored. *)
Lemma cut_loop_break (video : Clip) (s e : Q) (before after : list Interval) :
  duration video < s ->
  forall clips last_end,
    cut_loop video (before ++ (s, e) :: after) clips last_end
    = cut_loop video before clips last_end.
Proof.
  intros Hs. induction before as [|[s1 e1] r IH]; intros clips last_end; simpl.
  - assert (B : Qgt_bool s (duration video) = true)
      by (apply Qgt_bool_true; exact Hs).
    now rewrite B.
  - destruct (Qgt_bool s1 (duration video)); [reflexivity|].
    destruct (Qlt_bool last_end s1); [|apply IH].
    destruct (subclip video last_end _); [apply IH | reflexivity].
Qed.

(** X6. Once a silence period starts past the end of the range, it and all
    the periods listed after it have no effect on what [cut_silences] writes. *)
Theorem cut_silences_stops_at_overrun (sv : Services) (fs : FS)
  (input_video output_video : string) (before after : list Interval)
  (s e start_time end_time D : Q) :
  find_file input_video (files fs) = Some (Raw D) ->
  0 <= start_time -> start_time <= D -> 0 <= end_time ->
  end_time - start_time < s ->
  cut_silences sv input_video output_video (before ++ (s, e) :: after)
    (Some start_time) (Some end_time) fs
  = cut_silences sv input_video output_video before
      (Some start_time) (Some end_time) fs.
Proof.
  intros Hf H0 HD He Hs.
  unfold cut_silences, try_except, bind, VideoFileClip, lift_result.
  rewrite Hf. rewrite subclip_inside by (simpl; lra). simpl.
  unfold keep_clips. rewrite cut_loop_break by (simpl; exact Hs).
  reflexivity.
Qed.

Lemma cut_silences_stops_at_overrun_witness :
  find_file "in.mp4" (files source_only) = Some (Raw 600) /\
  0 <= 20 /\ 20 <= 600 /\ 0 <= 30 /\ 30 - 20 < 12 /\
  cut_silences (reliable empty_transcript) "in.mp4" "out.mp4"
    ([(2, 4)] ++ (12, 13) :: [(5, 6)]) (Some 20) (Some 30) source_only
  = cut_silences (reliable empty_transcript) "in.mp4" "out.mp4" [(2, 4)]
      (Some 20) (Some 30) source_only.
Proof.
  assert (Hf : find_file "in.mp4" (files source_only) = Some (Raw 600))
    by reflexivity.
  assert (H0 : 0 <= 20) by lra.
  assert (H1 : 20 <= 600) by lra.
  assert (H2 : 0 <= 30) by lra.
  assert (H3 : 30 - 20 < 12) by lra.
  repeat (split; [assumption|]).
  exact (cut_silences_stops_at_overrun (reliable empty_transcript) source_only
           "in.mp4" "out.mp4" [(2, 4)] [(5, 6)] 12 13 20 30 600
           Hf H0 H1 H2 H3).
Defined.

(** ** Further properties of the chunk processor *)

Lemma drop_file_idempotent (p : string) (l : list (string * Content)) :
  drop_file p (drop_file p l) = drop_file p l.
Proof.
  induction l as [|[q c] r IH]; simpl; [reflexivity|].
  destruct (String.eqb q p) eqn:E; [exact IH|].
  simpl. rewrite E. now rewrite IH.
Qed.

Lemma drop_file_absent (p : string) (l : list (string * Content)) :
  find_file p l = None -> drop_file p l = l.
Proof.
  induction l as [|[q c] r IH]; simpl; [reflexivity|].
  destruct (String.eqb q p); [discriminate|].
  intros H. now rewrite IH.
Qed.

Lemma without_file_put (p : string) (c : Content) (fs : FS) :
  without_file p (put_file p c fs) = without_file p fs.
Proof.
  unfold without_file, put_file. simpl. rewrite String.eqb_refl.
  now rewrite drop_file_idempotent.
Qed.

Lemma without_file_absent (p : string) (fs : FS) :
  is_file p fs = false -> without_file p fs = fs.
Proof.
  unfold is_file, without_file. intros H.
  destruct (find_file p (files fs)) eqn:E; [discriminate|].
  rewrite drop_file_absent by exact E. now destruct fs.
Qed.

Lemma is_file_without_same (p : string) (fs : FS) :
  is_file p (without_file p fs) = false.
Proof. apply is_file_removed. Qed.

Lemma find_file_without_other (p q : string) (fs : FS) :
  p <> q -> find_file p (files (without_file q fs)) = find_file p (files fs).
Proof. intros H. unfold without_file. simpl. now apply find_file_drop_other. Qed.

(** What a call does once the extraction has succeeded: the temporary chunk
    is written, transcribed and removed, and the cut runs only if both the
    write and the transcription went through. *)
Lemma process_video_chunk_outcome (sv : Services) (fs : FS)
  (video_path output_chunk_path : string) (start_time end_time D : Q) :
  find_file video_path (files fs) = Some (Raw D) ->
  0 <= start_time -> start_time <= D -> 0 <= end_time ->
  is_dir (temp_chunk_name start_time end_time) fs = false ->
  process_video_chunk sv video_path start_time end_time output_chunk_path fs
  = match encode sv (temp_chunk_name start_time end_time),
          transcribe sv (temp_chunk_name start_time end_time) with
    | Encoded, Ok t =>
        (Ok true,
         snd (cut_silences sv video_path output_chunk_path
                (adjust start_time
                   (identify_silence_periods t (end_time - start_time)
                      (1#2) (1#10)))
                (Some start_time) (Some end_time)
                (without_file (temp_chunk_name start_time end_time) fs)))
    | _, _ =>
        (Ok false, without_file (temp_chunk_name start_time end_time) fs)
    end.
Proof.
  intros Hf H0 HD He.
  remember (temp_chunk_name start_time end_time) as temp eqn:Etemp.
  intros Hdir.
  unfold process_video_chunk, call, try_except, bind, in_fs, VideoFileClip,
    lift_result, assign_temp_chunk_path, read_temp_chunk_path, ret.
  run_step. rewrite Hf. rewrite subclip_inside by (simpl; lra).
  run_step. rewrite <- Etemp. unfold write_videofile.
  destruct (encode sv temp) eqn:Enc; run_step.
  - unfold whisper_transcribe. rewrite is_file_put_same.
    destruct (transcribe sv temp) as [t|e]; run_step.
    + unfold os_remove at 1. rewrite is_file_put_same. run_step.
      fold (without_file temp (put_file temp
              (Rendered [mkClip video_path (0 + start_time)
                           (end_time - start_time)]) fs)).
      rewrite without_file_put.
      match goal with
      | |- context [cut_silences sv ?i ?o ?s ?a ?b ?f] =>
          destruct (cut_silences_contained sv i o s a b f) as (fs' & Ec & _)
      end.
      rewrite Ec. reflexivity.
    + unfold os_path_exists, os_remove. run_step.
      rewrite is_file_put_same. run_step. rewrite is_file_put_same.
      fold (without_file temp (put_file temp
              (Rendered [mkClip video_path (0 + start_time)
                           (end_time - start_time)]) fs)).
      now rewrite without_file_put.
  - destruct (transcribe sv temp);
      unfold os_path_exists, os_remove; run_step; rewrite Hdir;
      destruct (is_file temp fs) eqn:F; run_step;
      try rewrite F; try reflexivity;
      now rewrite without_file_absent.
  - destruct (transcribe sv temp);
      unfold os_path_exists, os_remove; run_step;
      rewrite is_file_put_same; run_step; rewrite is_file_put_same;
      fold (without_file temp (put_file temp Truncated fs));
      now rewrite without_file_put.
Qed.

Lemma temp_chunk_name_temp_prefixed (s e : Q) :
  temp_prefixed (temp_chunk_name s e) = true.
Proof.
  unfold temp_prefixed, temp_chunk_name. simpl.
  match goal with
  | |- String.prefix _ ?rest = true => now destruct rest
  end.
Qed.

(** X7. Take a source that opens and a range that can be extracted from it,
    no directory and neither the source nor the output named like a
    temporary chunk, and encodes of the temporary chunk and of the output that
    succeed.  Then [process_video_chunk] returns, and returns [True] exactly when
    Whisper answered with a transcription.  It leaves directories alone; the
    one file named like a temporary chunk that it wrote is gone again, and
    every file other than that one and the output is as it was; on [False]
    the output is as it was too. *)
Theorem process_video_chunk_follows_whisper (sv : Services) (fs : FS)
  (video_path output_chunk_path : string) (start_time end_time D : Q)
  (r : Result Transcription) :
  find_file video_path (files fs) = Some (Raw D) ->
  0 <= start_time -> start_time <= D -> 0 <= end_time ->
  (forall p, temp_prefixed p = true -> is_dir p fs = false) ->
  temp_prefixed video_path = false ->
  temp_prefixed output_chunk_path = false ->
  (forall p, temp_prefixed p = true -> encode sv p = Encoded) ->
  (forall p, temp_prefixed p = true -> transcribe sv p = r) ->
  encode sv output_chunk_path = Encoded ->
  exists fs' q,
    process_video_chunk sv video_path start_time end_time output_chunk_path fs
    = (Ok (answered r), fs') /\
    dirs fs' = dirs fs /\
    temp_prefixed q = true /\
    find_file q (files fs') = None /\
    (forall p, p <> q -> p <> output_chunk_path ->
               find_file p (files fs') = find_file p (files fs)) /\
    (answered r = false ->
     find_file output_chunk_path (files fs')
     = find_file output_chunk_path (files fs)).
Proof.
  intros Hf H0 HD He Hdirs Hin Hout Henc Htr _.
  pose proof (temp_chunk_name_temp_prefixed start_time end_time) as Ht.
  rewrite (process_video_chunk_outcome sv fs video_path output_chunk_path
             start_time end_time D Hf H0 HD He (Hdirs _ Ht)).
  rewrite (Henc _ Ht), (Htr _ Ht).
  set (temp := temp_chunk_name start_time end_time) in *.
  assert (Hto : output_chunk_path <> temp) by (intros ->; congruence).
  assert (Hgone : find_file temp (files (without_file temp fs)) = None)
    by (unfold without_file; simpl; apply find_file_drop_same).
  destruct r as [t|e]; simpl answered.
  - match goal with
    | |- context [cut_silences sv ?i ?o ?s ?a ?b ?f] =>
        destruct (cut_silences_contained sv i o s a b f) as (fs' & Ec & Hfs')
    end.
    rewrite Ec. simpl snd. exists fs', temp. split; [reflexivity|].
    destruct Hfs' as [->|[c ->]].
    + split; [reflexivity|]. split; [exact Ht|]. split; [exact Hgone|].
      split; [|discriminate].
      intros p Hp _. now apply find_file_without_other.
    + split; [reflexivity|]. split; [exact Ht|]. split.
      * rewrite find_file_put_other by congruence. exact Hgone.
      * split; [|discriminate].
        intros p Hp Hp'. rewrite find_file_put_other by exact Hp'.
        now apply find_file_without_other.
  - exists (without_file temp fs), temp. split; [reflexivity|].
    split; [reflexivity|]. split; [exact Ht|]. split; [exact Hgone|]. split.
    + intros p Hp _. now apply find_file_without_other.
    + intros _. now apply find_file_without_other.
Qed.

Lemma process_video_chunk_follows_whisper_witness :
  find_file "in.mp4" (files source_only) = Some (Raw 600) /\
  0 <= 300 /\ 300 <= 600 /\ 0 <= 600 /\
  (forall p, temp_prefixed p = true -> is_dir p source_only = false) /\
  temp_prefixed "in.mp4" = false /\
  temp_prefixed "out.mp4" = false /\
  (forall p, temp_prefixed p = true ->
             encode (reliable speech_pause_speech) p = Encoded) /\
  (forall p, temp_prefixed p = true ->
             transcribe (reliable speech_pause_speech) p
             = Ok speech_pause_speech) /\
  encode (reliable speech_pause_speech) "out.mp4" = Encoded /\
  exists fs' q,
    process_video_chunk (reliable speech_pause_speech) "in.mp4" 300 600
      "out.mp4" source_only
    = (Ok (answered (Ok speech_pause_speech)), fs') /\
    dirs fs' = dirs source_only /\
    temp_prefixed q = true /\
    find_file q (files fs') = None /\
    (forall p, p <> q -> p <> "out.mp4"%string ->
               find_file p (files fs') = find_file p (files source_only)) /\
    (answered (Ok speech_pause_speech) = false ->
     find_file "out.mp4" (files fs') = find_file "out.mp4" (files source_only)).
Proof.
  assert (Hf : find_file "in.mp4" (files source_only) = Some (Raw 600))
    by reflexivity.
  assert (H0 : 0 <= 300) by lra.
  assert (H1 : 300 <= 600) by lra.
  assert (H2 : 0 <= 600) by lra.
  assert (Hd : forall p, temp_prefixed p = true ->
                         is_dir p source_only = false)
    by reflexivity.
  assert (Hi : temp_prefixed "in.mp4" = false) by reflexivity.
  assert (Ho : temp_prefixed "out.mp4" = false) by reflexivity.
  assert (E1 : forall p, temp_prefixed p = true ->
                         encode (reliable speech_pause_speech) p = Encoded)
    by reflexivity.
  assert (E2 : forall p, temp_prefixed p = true ->
                         transcribe (reliable speech_pause_speech) p
                         = Ok speech_pause_speech)
    by reflexivity.
  assert (E3 : encode (reliable speech_pause_speech) "out.mp4" = Encoded)
    by reflexivity.
  repeat (split; [assumption|]).
  exact (process_video_chunk_follows_whisper (reliable speech_pause_speech)
           source_only "in.mp4" "out.mp4" 300 600 600 (Ok speech_pause_speech)
           Hf H0 H1 H2 Hd Hi Ho E1 E2 E3).
Defined.

(** *** Translating silences *)

Lemma in_silence_adjust (a : Q) (l : list Interval) (x : Q) :
  in_silence (adjust a l) x <-> in_silence l (x - a).
Proof.
  unfold in_silence, adjust. rewrite Exists_map.
  split; apply Exists_impl; intros [s e]; simpl; intros [H1 H2]; split; lra.
Qed.

Lemma adjust_non_overlapping (a : Q) (l : list Interval) :
  non_overlapping l -> non_overlapping (adjust a l).
Proof.
  unfold non_overlapping, adjust.
  induction 1 as [|[s e] r Hr IH Hlow]; simpl; constructor; [exact IH|].
  rewrite Forall_map. eapply Forall_impl; [|exact Hlow].
  intros [s' e']. simpl. lra.
Qed.

Lemma adjust_zero_within (lo d : Q) (l : list Interval) :
  Forall (within lo d) l -> Forall (within lo d) (adjust 0 l).
Proof.
  unfold adjust. rewrite Forall_map. apply Forall_impl.
  intros [s e] (H1 & H2 & H3). unfold within in *. simpl in *.
  repeat split; lra.
Qed.

Lemma plays_Qeq (clips : list Clip) (path : string) (x y : Q) :
  x == y -> plays clips path x -> plays clips path y.
Proof.
  intros E. unfold plays. apply Exists_impl.
  intros c (H1 & H2 & H3). repeat split; [exact H1 | lra | lra].
Qed.

Lemma find_file_put_same (p : string) (c : Content) (fs : FS) :
  find_file p (files (put_file p c fs)) = Some c.
Proof. unfold put_file. simpl. now rewrite String.eqb_refl. Qed.

(** Every interval the scan returns starts at least a buffer after time 0
    when no segment ends before time 0. *)
Lemma gaps_start_after_buffer (vd th buf : Q) (words : list Segment) :
  forall prev,
    0 <= prev ->
    Forall (fun w => 0 <= seg_end w) words ->
    Forall (fun iv => buf <= fst iv) (gaps vd th buf prev words).
Proof.
  induction words as [|w r IH]; intros prev Hp Hall; simpl.
  - destruct (candidate_cases vd th buf prev vd)
      as [E|(e & E & H1 & H2 & H3 & H4)]; rewrite E; [constructor|].
    constructor; [simpl; lra | constructor].
  - inversion Hall as [|? ? Hw Hr]; subst. apply Forall_app. split.
    + destruct (candidate_cases vd th buf prev (seg_start w))
        as [E|(e & E & H1 & H2 & H3 & H4)]; rewrite E; [constructor|].
      constructor; [simpl; lra | constructor].
    + apply IH; assumption.
Qed.

(** X8. For the chunk that starts at 0, when the temporary chunk and the
    output encode and the transcript is monotone, [process_video_chunk]
    returns [True] and its output shows exactly the instants of
    [[0, end_time)] that [identify_silence_periods] did not report silent. *)
Theorem process_video_chunk_first_chunk_exact (sv : Services) (fs : FS)
  (video_path output_chunk_path : string) (end_time D : Q)
  (t : Transcription) :
  find_file video_path (files fs) = Some (Raw D) ->
  0 <= D -> 0 < end_time ->
  is_dir (temp_chunk_name 0 end_time) fs = false ->
  video_path <> temp_chunk_name 0 end_time ->
  encode sv (temp_chunk_name 0 end_time) = Encoded ->
  transcribe sv (temp_chunk_name 0 end_time) = Ok t ->
  monotone_transcript t ->
  encode sv output_chunk_path = Encoded ->
  exists fs' clips,
    process_video_chunk sv video_path 0 end_time output_chunk_path fs
    = (Ok true, fs') /\
    find_file output_chunk_path (files fs') = Some (Rendered clips) /\
    forall x,
      plays clips video_path x <->
      0 <= x /\ x < end_time /\
      ~ in_silence
          (identify_silence_periods t (end_time - 0) (1#2) (1#10)) x.
Proof.
  intros Hf HD He Hdir Hin Henc Htr [Hok Hsorted] Hout.
  assert (H00 : 0 <= 0) by lra.
  assert (He' : 0 <= end_time) by lra.
  rewrite (process_video_chunk_outcome sv fs video_path output_chunk_path
             0 end_time D Hf H00 HD He' Hdir).
  rewrite Henc, Htr.
  set (temp := temp_chunk_name 0 end_time) in *.
  set (sil := identify_silence_periods t (end_time - 0) (1#2) (1#10)).
  set (video := mkClip video_path (0 + 0) (end_time - 0)).
  assert (Hv : 0 < duration video) by (simpl; lra).
  assert (Hb : 0 <= 1#10) by lra.
  assert (Hsil : Forall (within (0 + (1#10)) (end_time - 0)) sil /\
                 non_overlapping sil).
  { unfold sil. rewrite identify_silence_periods_gaps.
    apply Sorted_StronglySorted in Hsorted; [|exact seg_start_le_trans].
    assert (Hok' : Forall (fun s => 0 <= seg_start s /\ seg_start s <= seg_end s)
                          (segments t)).
    { eapply Forall_impl; [|exact Hok]. intros s [H1 H2]. split; assumption. }
    assert (H00' : 0 <= 0) by lra.
    destruct (gaps_sound (end_time - 0) (1#2) (1#10) Hb (segments t) 0 0
                H00' Hok' Hsorted) as (B & _ & N).
    split; assumption. }
  destruct Hsil as [Hwithin Hno].
  assert (Hwithin0 : Forall (within 0 (duration video)) (adjust 0 sil)).
  { apply adjust_zero_within.
    apply within_weaken with (m' := 0 + (1#10)); [lra | exact Hwithin]. }
  destruct (keep_clips_exact video Hv (adjust 0 sil)
              (adjust_non_overlapping 0 sil Hno) Hwithin0)
    as (kept & Ek & Hshow).
  assert (Hquiet0 : ~ in_silence sil 0).
  { unfold in_silence. rewrite Exists_exists. intros (iv & Hiv & I1 & I2).
    rewrite Forall_forall in Hwithin. destruct (Hwithin iv Hiv) as (W1 & _).
    lra. }
  assert (Hpresent : find_file video_path (files (without_file temp fs))
                     = Some (Raw D))
    by (rewrite find_file_without_other by exact Hin; exact Hf).
  rewrite (cut_silences_writes sv (without_file temp fs) video_path
             output_chunk_path (adjust 0 sil) 0 end_time D kept
             Hpresent H00 HD He' Hout Ek).
  simpl snd. fold video.
  assert (Hkept : emitted video kept = kept).
  { destruct kept as [|c r]; [|reflexivity]. exfalso.
    assert (Hx : shows video [] 0).
    { apply Hshow. split; [lra|]. split; [exact Hv|].
      rewrite in_silence_adjust. intros Hs. apply Hquiet0.
      unfold in_silence in *. revert Hs. apply Exists_impl.
      intros iv [I1 I2]. split; lra. }
    inversion Hx. }
  rewrite Hkept.
  eexists _, kept. split; [reflexivity|].
  split; [apply find_file_put_same|].
  intros x. split.
  - intros Hp.
    assert (Hs : shows video kept x).
    { unfold shows. simpl. apply plays_Qeq with (x := x); [lra | exact Hp]. }
    apply Hshow in Hs. destruct Hs as (S1 & S2 & S3). simpl in S2.
    split; [exact S1|]. split; [lra|].
    intros Hq. apply S3. rewrite in_silence_adjust.
    unfold in_silence in *. revert Hq. apply Exists_impl.
    intros iv [I1 I2]. split; lra.
  - intros (X1 & X2 & X3).
    assert (Hs : shows video kept x).
    { apply Hshow. split; [exact X1|]. split; [simpl; lra|].
      rewrite in_silence_adjust. intros Hq. apply X3.
      unfold in_silence in *. revert Hq. apply Exists_impl.
      intros iv [I1 I2]. split; lra. }
    unfold shows in Hs. simpl in Hs.
    apply plays_Qeq with (x := 0 + 0 + x); [lra | exact Hs].
Qed.

Lemma speech_pause_speech_monotone : monotone_transcript speech_pause_speech.
Proof.
  split.
  - repeat constructor; simpl; lra.
  - repeat constructor; simpl; lra.
Defined.

Lemma process_video_chunk_first_chunk_exact_witness :
  find_file "in.mp4" (files source_only) = Some (Raw 600) /\
  0 <= 600 /\ 0 < 300 /\
  is_dir (temp_chunk_name 0 300) source_only = false /\
  "in.mp4"%string <> temp_chunk_name 0 300 /\
  encode (reliable speech_pause_speech) (temp_chunk_name 0 300) = Encoded /\
  transcribe (reliable speech_pause_speech) (temp_chunk_name 0 300)
  = Ok speech_pause_speech /\
  monotone_transcript speech_pause_speech /\
  encode (reliable speech_pause_speech) "out.mp4" = Encoded /\
  exists fs' clips,
    process_video_chunk (reliable speech_pause_speech) "in.mp4" 0 300
      "out.mp4" source_only = (Ok true, fs') /\
    find_file "out.mp4" (files fs') = Some (Rendered clips) /\
    forall x,
      plays clips "in.mp4" x <->
      0 <= x /\ x < 300 /\
      ~ in_silence
          (identify_silence_periods speech_pause_speech (300 - 0) (1#2) (1#10))
          x.
Proof.
  assert (Hf : find_file "in.mp4" (files source_only) = Some (Raw 600))
    by reflexivity.
  assert (H0 : 0 <= 600) by lra.
  assert (H1 : 0 < 300) by lra.
  assert (Hd : is_dir (temp_chunk_name 0 300) source_only = false)
    by reflexivity.
  assert (Hn : "in.mp4"%string <> temp_chunk_name 0 300)
    by (vm_compute; discriminate).
  assert (E1 : encode (reliable speech_pause_speech) (temp_chunk_name 0 300)
               = Encoded) by reflexivity.
  assert (E2 : transcribe (reliable speech_pause_speech) (temp_chunk_name 0 300)
               = Ok speech_pause_speech) by reflexivity.
  assert (E3 : encode (reliable speech_pause_speech) "out.mp4" = Encoded)
    by reflexivity.
  pose proof speech_pause_speech_monotone as Hm.
  repeat (split; [assumption|]).
  exact (process_video_chunk_first_chunk_exact (reliable speech_pause_speech)
           source_only "in.mp4" "out.mp4" 300 600 speech_pause_speech
           Hf H0 H1 Hd Hn E1 E2 Hm E3).
Defined.

(** X9. For a chunk that starts at or after its own length, as every chunk
    but the first does, the translated silences all lie past the end of the
    sub-clip's clock: when the temporary chunk and the output encode and no
    segment ends before time 0, the output is the whole range, untrimmed. *)
Theorem process_video_chunk_later_chunk_untrimmed (sv : Services) (fs : FS)
  (video_path output_chunk_path : string) (start_time end_time D : Q)
  (t : Transcription) :
  find_file video_path (files fs) = Some (Raw D) ->
  start_time < end_time -> end_time - start_time <= start_time ->
  start_time <= D ->
  is_dir (temp_chunk_name start_time end_time) fs = false ->
  video_path <> temp_chunk_name start_time end_time ->
  encode sv (temp_chunk_name start_time end_time) = Encoded ->
  transcribe sv (temp_chunk_name start_time end_time) = Ok t ->
  Forall (fun w => 0 <= seg_end w) (segments t) ->
  encode sv output_chunk_path = Encoded ->
  exists fs',
    process_video_chunk sv video_path start_time end_time output_chunk_path fs
    = (Ok true, fs') /\
    find_file output_chunk_path (files fs')
    = Some (Rendered [mkClip video_path (0 + start_time + 0)
                        (end_time - start_time - 0)]).
Proof.
  intros Hf Hlt Hlate HD Hdir Hin Henc Htr Hends Hout.
  assert (H0 : 0 <= start_time) by lra.
  assert (He : 0 <= end_time) by lra.
  rewrite (process_video_chunk_outcome sv fs video_path output_chunk_path
             start_time end_time D Hf H0 HD He Hdir).
  rewrite Henc, Htr.
  set (temp := temp_chunk_name start_time end_time) in *.
  set (sil := identify_silence_periods t (end_time - start_time) (1#2) (1#10)).
  set (video := mkClip video_path (0 + start_time) (end_time - start_time)).
  assert (Hpos : Forall (fun iv => 0 < fst iv) sil).
  { unfold sil. rewrite identify_silence_periods_gaps.
    eapply Forall_impl;
      [|apply gaps_start_after_buffer; [lra | exact Hends]].
    intros iv Hiv. simpl in Hiv. lra. }
  assert (Ek : keep_clips video (adjust start_time sil)
               = Ok [mkClip (media video) (origin video + 0)
                       (duration video - 0)]).
  { apply keep_clips_translated; simpl; try lra. exact Hpos. }
  assert (Hpresent : find_file video_path (files (without_file temp fs))
                     = Some (Raw D))
    by (rewrite find_file_without_other by exact Hin; exact Hf).
  rewrite (cut_silences_writes sv (without_file temp fs) video_path
             output_chunk_path (adjust start_time sil) start_time end_time D _
             Hpresent H0 HD He Hout Ek).
  eexists. split; [reflexivity|].
  simpl snd. rewrite find_file_put_same. reflexivity.
Qed.

Lemma process_video_chunk_later_chunk_untrimmed_witness :
  find_file "in.mp4" (files source_only) = Some (Raw 600) /\
  300 < 600 /\ 600 - 300 <= 300 /\ 300 <= 600 /\
  is_dir (temp_chunk_name 300 600) source_only = false /\
  "in.mp4"%string <> temp_chunk_name 300 600 /\
  encode (reliable speech_pause_speech) (temp_chunk_name 300 600) = Encoded /\
  transcribe (reliable speech_pause_speech) (temp_chunk_name 300 600)
  = Ok speech_pause_speech /\
  Forall (fun w => 0 <= seg_end w) (segments speech_pause_speech) /\
  encode (reliable speech_pause_speech) "out.mp4" = Encoded /\
  exists fs',
    process_video_chunk (reliable speech_pause_speech) "in.mp4" 300 600
      "out.mp4" source_only = (Ok true, fs') /\
    find_file "out.mp4" (files fs')
    = Some (Rendered [mkClip "in.mp4" (0 + 300 + 0) (600 - 300 - 0)]).
Proof.
  assert (Hf : find_file "in.mp4" (files source_only) = Some (Raw 600))
    by reflexivity.
  assert (H0 : 300 < 600) by lra.
  assert (H1 : 600 - 300 <= 300) by lra.
  assert (H2 : 300 <= 600) by lra.
  assert (Hd : is_dir (temp_chunk_name 300 600) source_only = false)
    by reflexivity.
  assert (Hn : "in.mp4"%string <> temp_chunk_name 300 600)
    by (vm_compute; discriminate).
  assert (E1 : encode (reliable speech_pause_speech) (temp_chunk_name 300 600)
               = Encoded) by reflexivity.
  assert (E2 : transcribe (reliable speech_pause_speech)
                 (temp_chunk_name 300 600) = Ok speech_pause_speech)
    by reflexivity.
  assert (E3 : encode (reliable speech_pause_speech) "out.mp4" = Encoded)
    by reflexivity.
  assert (Hs : Forall (fun w => 0 <= seg_end w) (segments speech_pause_speech)).
  { repeat constructor; simpl; lra. }
  repeat (split; [assumption|]).
  exact (process_video_chunk_later_chunk_untrimmed
           (reliable speech_pause_speech) source_only "in.mp4" "out.mp4"
           300 600 600 speech_pause_speech Hf H0 H1 H2 Hd Hn E1 E2 Hs E3).
Defined.

(** ** Further properties of the orchestrator *)

(** *** Names *)

Lemma prefix_nil (s : string) : String.prefix "" s = true.
Proof. now destruct s. Qed.

Lemma temp_chunk_name_scratch (s e : Q) :
  scratch_name (temp_chunk_name s e) = true.
Proof.
  unfold scratch_name, temp_chunk_name. simpl. now rewrite prefix_nil.
Qed.

Lemma chunk_output_name_scratch (i : Z) :
  scratch_name (chunk_output_name i) = true.
Proof. reflexivity. Qed.

Lemma chunk_output_name_in_temp_dir (i : Z) :
  in_temp_dir (chunk_output_name i) = true.
Proof. reflexivity. Qed.

Lemma temp_chunk_name_not_in_temp_dir (s e : Q) :
  in_temp_dir (temp_chunk_name s e) = false.
Proof. reflexivity. Qed.

Lemma in_temp_dir_scratch (p : string) :
  in_temp_dir p = true -> scratch_name p = true.
Proof. unfold scratch_name, in_temp_dir. intros ->. apply orb_true_r. Qed.

Lemma temp_dir_not_scratch : scratch_name temp_dir = false.
Proof. reflexivity. Qed.

Lemma chunk_output_not_temp (i : Z) (s e : Q) :
  chunk_output_name i <> temp_chunk_name s e.
Proof.
  intros H.
  pose proof (chunk_output_name_in_temp_dir i) as H1.
  rewrite H, temp_chunk_name_not_in_temp_dir in H1. discriminate.
Qed.

Lemma not_scratch_differs (p q : string) :
  scratch_name p = false -> scratch_name q = true -> p <> q.
Proof. intros Hp Hq ->. congruence. Qed.

Lemma is_dir_scratch_free (fs : FS) (p : string) :
  Forall (fun d => scratch_name d = false) (dirs fs) ->
  scratch_name p = true -> is_dir p fs = false.
Proof.
  intros Hd Hp. unfold is_dir.
  destruct (existsb (String.eqb p) (dirs fs)) eqn:E; [|reflexivity].
  apply existsb_exists in E. destruct E as (d & Hin & He).
  apply String.eqb_eq in He. subst d.
  rewrite Forall_forall in Hd. specialize (Hd p Hin). congruence.
Qed.

(** *** One chunk, as the loop runs it *)

Lemma gaps_proper (vd th buf : Q) (words : list Segment) :
  forall prev, Forall (fun iv => fst iv < snd iv) (gaps vd th buf prev words).
Proof.
  induction words as [|w r IH]; intros prev; simpl.
  - destruct (candidate_cases vd th buf prev vd)
      as [E|(e & E & H1 & H2 & H3 & H4)]; rewrite E; [constructor|].
    constructor; [simpl; lra | constructor].
  - apply Forall_app. split; [|apply IH].
    destruct (candidate_cases vd th buf prev (seg_start w))
      as [E|(e & E & H1 & H2 & H3 & H4)]; rewrite E; [constructor|].
    constructor; [simpl; lra | constructor].
Qed.

(** The silences handed to the cutter are well formed whenever no segment
    ends before time 0 and the chunk does not start before time 0. *)
Lemma adjusted_silences_ok (t : Transcription) (d start_time : Q) :
  0 <= start_time ->
  Forall (fun w => 0 <= seg_end w) (segments t) ->
  Forall interval_ok
    (adjust start_time (identify_silence_periods t d (1#2) (1#10))).
Proof.
  intros H0 Hends. rewrite identify_silence_periods_gaps.
  pose proof (gaps_proper d (1#2) (1#10) (segments t) 0) as Hp.
  assert (H00 : 0 <= 0) by lra.
  pose proof (gaps_start_after_buffer d (1#2) (1#10) (segments t) 0 H00 Hends)
    as Hb.
  unfold adjust. rewrite Forall_map.
  rewrite Forall_forall in *. intros [s e] Hin.
  specialize (Hp _ Hin). specialize (Hb _ Hin). simpl in *.
  unfold interval_ok. simpl. split; lra.
Qed.

(** What [cut_silences] leaves behind, for each way the encode can end. *)
Lemma cut_silences_outcome (sv : Services) (fs : FS)
  (input_video output_video : string) (silence_periods : list Interval)
  (start_time end_time D : Q) (kept : list Clip) :
  find_file input_video (files fs) = Some (Raw D) ->
  0 <= start_time -> start_time <= D -> 0 <= end_time ->
  keep_clips (mkClip input_video (0 + start_time) (end_time - start_time))
    silence_periods = Ok kept ->
  cut_silences sv input_video output_video silence_periods
    (Some start_time) (Some end_time) fs
  = (Ok tt,
     match encode sv output_video with
     | Encoded =>
         put_file output_video
           (Rendered (emitted (mkClip input_video (0 + start_time)
                                 (end_time - start_time)) kept)) fs
     | EncodeFailedClean => fs
     | EncodeFailedPartial => put_file output_video Truncated fs
     end).
Proof.
  intros Hf H0 HD He Ek.
  unfold cut_silences, try_except, bind, VideoFileClip, lift_result.
  rewrite Hf. rewrite subclip_inside by (simpl; lra). simpl.
  rewrite Ek. unfold write_videofile, concatenate_videoclips.
  destruct kept; destruct (encode sv output_video); reflexivity.
Qed.

Lemma emitted_positive (video : Clip) (kept : list Clip) :
  0 < duration video -> Forall positive_clip kept ->
  0 < total_duration_of (emitted video kept).
Proof.
  intros Hv Hk. destruct kept as [|c r]; simpl emitted.
  - simpl. lra.
  - apply total_duration_of_positive; [discriminate | exact Hk].
Qed.

Section ChunkStep.

Variables (sv : Services) (input_video : string) (D : Q).
Hypothesis input_not_scratch : scratch_name input_video = false.
Hypothesis transcripts_ok :
  forall p t, transcribe sv p = Ok t ->
              Forall (fun w => 0 <= seg_end w) (segments t).

(** One call of the loop body on a chunk lying inside the source. *)
Lemma process_video_chunk_step (fs : FS) (c : Chunk) :
  find_file input_video (files fs) = Some (Raw D) ->
  Forall (fun d => scratch_name d = false) (dirs fs) ->
  0 <= c_start c -> c_start c < c_end c -> c_start c <= D ->
  exists fs',
    process_video_chunk sv input_video (c_start c) (c_end c) (chunk_output c) fs
    = (Ok (chunk_reported sv c), fs') /\
    dirs fs' = dirs fs /\
    (forall p, p <> chunk_temp c -> p <> chunk_output c ->
               find_file p (files fs') = find_file p (files fs)) /\
    find_file (chunk_temp c) (files fs') = None /\
    (chunk_reported sv c = false ->
     find_file (chunk_output c) (files fs')
     = find_file (chunk_output c) (files fs)) /\
    (chunk_reported sv c = true ->
     if encoded sv (chunk_output c) then
       exists clips,
         find_file (chunk_output c) (files fs') = Some (Rendered clips) /\
         0 < total_duration_of clips
     else
       find_file (chunk_output c) (files fs')
       = find_file (chunk_output c) (files fs) \/
       find_file (chunk_output c) (files fs') = Some Truncated).
Proof.
  intros Hf Hdirs H0 Hlt HD.
  assert (He : 0 <= c_end c) by lra.
  assert (Hdir : is_dir (temp_chunk_name (c_start c) (c_end c)) fs = false)
    by (apply is_dir_scratch_free;
        [exact Hdirs | apply temp_chunk_name_scratch]).
  rewrite (process_video_chunk_outcome sv fs input_video (chunk_output c)
             (c_start c) (c_end c) D Hf H0 HD He Hdir).
  unfold chunk_reported, transcribed. fold (chunk_temp c).
  assert (Hto : chunk_output c <> chunk_temp c)
    by apply chunk_output_not_temp.
  assert (Hti : input_video <> chunk_temp c).
  { apply not_scratch_differs;
      [exact input_not_scratch | apply temp_chunk_name_scratch]. }
  assert (Hnone : find_file (chunk_temp c)
                    (files (without_file (chunk_temp c) fs)) = None)
    by (unfold without_file; simpl; apply find_file_drop_same).
  assert (Hfail : exists fs',
    (Ok false, without_file (chunk_temp c) fs) = (Ok false, fs') /\
    dirs fs' = dirs fs /\
    (forall p, p <> chunk_temp c -> p <> chunk_output c ->
               find_file p (files fs') = find_file p (files fs)) /\
    find_file (chunk_temp c) (files fs') = None /\
    (false = false ->
     find_file (chunk_output c) (files fs')
     = find_file (chunk_output c) (files fs)) /\
    (false = true ->
     if encoded sv (chunk_output c) then
       exists clips,
         find_file (chunk_output c) (files fs') = Some (Rendered clips) /\
         0 < total_duration_of clips
     else
       find_file (chunk_output c) (files fs')
       = find_file (chunk_output c) (files fs) \/
       find_file (chunk_output c) (files fs') = Some Truncated)).
  { exists (without_file (chunk_temp c) fs). split; [reflexivity|].
    split; [reflexivity|]. split.
    - intros p Hp _. now apply find_file_without_other.
    - split; [exact Hnone|]. split; [|discriminate].
      intros _. now apply find_file_without_other. }
  destruct (encode sv (chunk_temp c)) eqn:Enc; try exact Hfail.
  destruct (transcribe sv (chunk_temp c)) as [t|e] eqn:Htr; try exact Hfail.
  clear Hfail.
  set (sil := adjust (c_start c)
                (identify_silence_periods t (c_end c - c_start c) (1#2) (1#10))).
  set (video := mkClip input_video (0 + c_start c) (c_end c - c_start c)).
  assert (Hv : 0 < duration video) by (simpl; lra).
  assert (Hsil : Forall interval_ok sil)
    by (apply adjusted_silences_ok; [exact H0 | exact (transcripts_ok _ _ Htr)]).
  destruct (keep_clips_sound video Hv sil Hsil) as (kept & Ek & Hk).
  assert (Hpresent : find_file input_video
                       (files (without_file (chunk_temp c) fs)) = Some (Raw D))
    by (rewrite find_file_without_other by exact Hti; exact Hf).
  rewrite (cut_silences_outcome sv (without_file (chunk_temp c) fs)
             input_video (chunk_output c) sil (c_start c) (c_end c) D kept
             Hpresent H0 HD He Ek).
  simpl snd. fold video. unfold encoded.
  eexists. split; [reflexivity|].
  destruct (encode sv (chunk_output c)).
  - split; [reflexivity|]. split.
    + intros p Hp Hp'. rewrite find_file_put_other by exact Hp'.
      now apply find_file_without_other.
    + split.
      * rewrite find_file_put_other by congruence. exact Hnone.
      * split; [discriminate|]. intros _.
        exists (emitted video kept). split; [apply find_file_put_same|].
        now apply emitted_positive.
  - split; [reflexivity|]. split.
    + intros p Hp _. now apply find_file_without_other.
    + split; [exact Hnone|]. split; [discriminate|]. intros _. left.
      now apply find_file_without_other.
  - split; [reflexivity|]. split.
    + intros p Hp Hp'. rewrite find_file_put_other by exact Hp'.
      now apply find_file_without_other.
    + split.
      * rewrite find_file_put_other by congruence. exact Hnone.
      * split; [discriminate|]. intros _. right. apply find_file_put_same.
Qed.

End ChunkStep.

(** *** The chunk loop *)

Section ChunkLoop.

Variables (sv : Services) (input_video : string) (D : Q) (fs1 : FS).
Hypothesis input_not_scratch : scratch_name input_video = false.
Hypothesis transcripts_ok :
  forall p t, transcribe sv p = Ok t ->
              Forall (fun w => 0 <= seg_end w) (segments t).
Hypothesis dirs_not_scratch :
  Forall (fun d => scratch_name d = false) (dirs fs1).

Lemma loop_invariant_step (fs : FS) (done : list Chunk) (acc : list string)
  (c : Chunk) :
  loop_invariant sv input_video D fs1 fs done acc ->
  chunk_inside D c ->
  exists fs',
    process_video_chunk sv input_video (c_start c) (c_end c) (chunk_output c) fs
    = (Ok (chunk_reported sv c), fs') /\
    loop_invariant sv input_video D fs1 fs' (done ++ [c])
      (if chunk_reported sv c then acc ++ [chunk_output c] else acc).
Proof.
  intros (I1 & I2 & I3 & I4 & I5 & I6 & I7) (C1 & C2 & C3).
  assert (Hdirs : Forall (fun d => scratch_name d = false) (dirs fs))
    by (rewrite I2; exact dirs_not_scratch).
  assert (HD : c_start c <= D) by lra.
  destruct (process_video_chunk_step sv input_video D input_not_scratch
              transcripts_ok fs c I1 Hdirs C1 C2 HD)
    as (fs' & E & S1 & S2 & S3 & S4 & S5).
  exists fs'. split; [exact E|].
  assert (Hto : chunk_output c <> chunk_temp c) by apply chunk_output_not_temp.
  assert (Hts : scratch_name (chunk_temp c) = true)
    by apply temp_chunk_name_scratch.
  assert (Hos : scratch_name (chunk_output c) = true)
    by apply chunk_output_name_scratch.
  assert (Hot : in_temp_dir (chunk_output c) = true)
    by apply chunk_output_name_in_temp_dir.
  assert (Htt : in_temp_dir (chunk_temp c) = false)
    by apply temp_chunk_name_not_in_temp_dir.
  assert (Hkeep : forall p, in_temp_dir p = true -> p <> chunk_output c ->
                            find_file p (files fs') = find_file p (files fs)).
  { intros p Hp Hne. apply S2; [|exact Hne]. intros ->. congruence. }
  assert (Hold : forall q, In q acc -> q <> chunk_output c ->
                           chunk_file_ok sv fs' q).
  { intros q Hq Hne. rewrite Forall_forall in I4, I5.
    specialize (I5 q Hq). unfold chunk_file_ok in *.
    rewrite (Hkeep q (I4 q Hq) Hne). exact I5. }
  assert (Hprev : find_file (chunk_output c) (files fs) = None \/
                  chunk_file_ok sv fs (chunk_output c)).
  { destruct (in_dec string_dec (chunk_output c) acc) as [Hi|Hn].
    - right. rewrite Forall_forall in I5. now apply I5.
    - left. now apply I6. }
  assert (Hnew : chunk_reported sv c = true ->
                 chunk_file_ok sv fs' (chunk_output c)).
  { intros Hr. specialize (S5 Hr). unfold chunk_file_ok in *.
    destruct (encoded sv (chunk_output c)); [exact S5|].
    destruct S5 as [S5|S5]; [|now right]. rewrite S5.
    destruct Hprev as [->|Hp]; [now left | exact Hp]. }
  assert (Hsame : chunk_reported sv c = false ->
                  forall q, In q acc -> chunk_file_ok sv fs' q).
  { intros Hr q Hq.
    destruct (string_dec q (chunk_output c)) as [->|Hne];
      [|now apply Hold].
    rewrite Forall_forall in I5. specialize (I5 _ Hq).
    unfold chunk_file_ok in *. rewrite (S4 Hr). exact I5. }
  unfold loop_invariant. repeat apply conj.
  - rewrite S2; [exact I1 | |];
      apply not_scratch_differs; assumption.
  - rewrite S1. exact I2.
  - intros p Hp. rewrite S2; [now apply I3 | |];
      apply not_scratch_differs; assumption.
  - destruct (chunk_reported sv c); [|exact I4].
    apply Forall_app. split; [exact I4|]. now constructor.
  - destruct (chunk_reported sv c) eqn:Hr.
    + apply Forall_app. split.
      * rewrite Forall_forall. intros q Hq.
        destruct (string_dec q (chunk_output c)) as [->|Hne];
          [now apply Hnew | now apply Hold].
      * constructor; [now apply Hnew | constructor].
    + rewrite Forall_forall. intros q Hq. now apply Hsame.
  - intros p Hp Hnot.
    destruct (string_dec p (chunk_output c)) as [->|Hne].
    + destruct (chunk_reported sv c) eqn:Hr.
      * exfalso. apply Hnot. apply in_or_app. right. now left.
      * rewrite (S4 eq_refl). now apply I6.
    + rewrite (Hkeep p Hp Hne). apply I6; [exact Hp|].
      intros Hi. apply Hnot.
      destruct (chunk_reported sv c); [apply in_or_app; now left | exact Hi].
  - apply Forall_app. split; [|constructor; [exact S3 | constructor]].
    rewrite Forall_forall in *. intros c' Hc'.
    destruct (string_dec (chunk_temp c') (chunk_temp c)) as [->|Hne];
      [exact S3|].
    rewrite S2; [now apply I7 | exact Hne |].
    intros Heq. symmetry in Heq. revert Heq. apply chunk_output_not_temp.
Qed.

(** The loop never raises; it collects, in plan order, the outputs of the
    chunks that were reported, and keeps the invariant. *)
Lemma plan_loop_collects (plan : list Chunk) :
  Forall (chunk_inside D) plan ->
  forall (fs : FS) (done : list Chunk) (acc : list string),
    loop_invariant sv input_video D fs1 fs done acc ->
    exists fs',
      plan_loop sv input_video plan acc fs
      = (Ok (acc ++ map chunk_output (filter (chunk_reported sv) plan)), fs') /\
      loop_invariant sv input_video D fs1 fs' (done ++ plan)
        (acc ++ map chunk_output (filter (chunk_reported sv) plan)).
Proof.
  induction 1 as [|c r Hc _ IH]; intros fs done acc Hinv; simpl.
  - exists fs. rewrite !app_nil_r. split; [reflexivity | exact Hinv].
  - destruct (loop_invariant_step fs done acc c Hinv Hc) as (fs' & E & Hinv').
    unfold bind. fold (chunk_output c). rewrite E.
    assert (Ed : (done ++ [c]) ++ r = done ++ c :: r)
      by (rewrite <- app_assoc; reflexivity).
    destruct (IH fs' (done ++ [c]) _ Hinv') as (fs'' & E' & Hinv'').
    exists fs''. rewrite E'. rewrite Ed in Hinv''.
    destruct (chunk_reported sv c); simpl.
    + assert (Ea : forall l, (acc ++ [chunk_output c]) ++ l
                             = acc ++ chunk_output c :: l)
        by (intro l; rewrite <- app_assoc; reflexivity).
      rewrite Ea in Hinv'' |- *. split; [reflexivity | exact Hinv''].
    + split; [reflexivity | exact Hinv''].
Qed.

End ChunkLoop.

(** *** Loading and removing the processed chunks *)

Lemma find_file_in (p : string) (c : Content) (l : list (string * Content)) :
  In (p, c) l -> find_file p l <> None.
Proof.
  induction l as [|[q d] r IH]; simpl; [tauto|].
  intros [H|H].
  - injection H as -> ->. now rewrite String.eqb_refl.
  - destruct (String.eqb q p); [discriminate | now apply IH].
Qed.

Lemma is_file_find (p : string) (fs : FS) :
  is_file p fs = false <-> find_file p (files fs) = None.
Proof.
  unfold is_file. destruct (find_file p (files fs)); split; congruence.
Qed.

Lemma filter_delivered (sv : Services) (plan : list Chunk) :
  filter (encoded sv) (map chunk_output (filter (chunk_reported sv) plan))
  = map chunk_output (filter (chunk_delivered sv) plan).
Proof.
  induction plan as [|c r IH]; simpl; [reflexivity|].
  unfold chunk_delivered at 1.
  destruct (chunk_reported sv c); simpl; [|exact IH].
  destruct (encoded sv (chunk_output c)); simpl; now rewrite IH.
Qed.

Section LoadLoop.

Variable sv : Services.

(** Loading keeps, in order, a whole-file clip for every processed chunk
    whose output was encoded, and deletes what is left of the others. *)
Lemma load_loop_keeps_encoded (l : list string) :
  forall (final_clips : list Clip) (fs : FS),
    Forall (fun d => scratch_name d = false) (dirs fs) ->
    Forall (fun q => in_temp_dir q = true) l ->
    Forall (chunk_file_ok sv fs) l ->
    exists final fs',
      load_loop l final_clips fs = (Ok (final_clips ++ final), fs') /\
      map media final = filter (encoded sv) l /\
      Forall whole_file_clip final /\
      dirs fs' = dirs fs /\
      (forall p, ~ In p l -> find_file p (files fs') = find_file p (files fs)) /\
      (forall p, In p l -> encoded sv p = true ->
                 find_file p (files fs') = find_file p (files fs)) /\
      (forall p, In p l -> encoded sv p = false ->
                 find_file p (files fs') = None).
Proof.
  induction l as [|p r IH]; intros acc fs Hdirs Htemp Hok; simpl.
  - exists [], fs. rewrite app_nil_r. split; [reflexivity|].
    split; [reflexivity|]. split; [constructor|]. split; [reflexivity|].
    split; [reflexivity|]. split; [tauto | tauto].
  - inversion Htemp as [|? ? Hp Htemp']; subst.
    inversion Hok as [|? ? Hpok Hok']; subst.
    assert (Hpd : is_dir p fs = false).
    { apply is_dir_scratch_free; [exact Hdirs|]. now apply in_temp_dir_scratch. }
    unfold chunk_file_ok in Hpok.
    unfold bind at 1. unfold try_except, bind, VideoFileClip.
    destruct (encoded sv p) eqn:Enc.
    + destruct Hpok as (clips & Hfile & Hpos). rewrite Hfile. simpl.
      assert (G : Qgt_bool (total_duration_of clips) 0 = true)
        by (apply Qgt_bool_true; exact Hpos).
      rewrite G. simpl.
      destruct (IH (acc ++ [mkClip p 0 (total_duration_of clips)]) fs
                  Hdirs Htemp' Hok')
        as (final & fs' & E & M & W & Dd & F1 & F2 & F3).
      rewrite E. rewrite <- app_assoc. simpl.
      eexists _, fs'. split; [reflexivity|]. split; [simpl; now rewrite M|].
      split; [constructor; [split; [reflexivity | exact Hpos] | exact W]|].
      split; [exact Dd|]. split; [|split].
      * intros q Hq. apply F1. tauto.
      * intros q [<-|Hq] Hq'.
        -- destruct (in_dec string_dec p r) as [Hi|Hn];
             [now apply F2 | now apply F1].
        -- now apply F2.
      * intros q [<-|Hq] Hq'; [congruence | now apply F3].
    + assert (Hafter : exists fs2,
                (match find_file p (files fs) with
                 | Some (Raw d) => (Ok (mkClip p 0 d), fs)
                 | Some (Rendered clips) =>
                     (Ok (mkClip p 0 (total_duration_of clips)), fs)
                 | Some Truncated => (Raise IOError, fs)
                 | None => (Raise IOError, fs)
                 end = (Raise IOError, fs)) /\
                (let (r0, s') := os_path_exists p fs in
                 match r0 with
                 | Ok a =>
                     let (r1, s'0) :=
                       (if a then os_remove p else ret tt) s' in
                     match r1 with
                     | Ok _ => ret acc s'0
                     | Raise e => (Raise e, s'0)
                     end
                 | Raise e => (Raise e, s')
                 end) = (Ok acc, fs2) /\
                dirs fs2 = dirs fs /\
                find_file p (files fs2) = None /\
                (forall q, q <> p ->
                           find_file q (files fs2) = find_file q (files fs))).
      { unfold os_path_exists, os_remove, ret. rewrite Hpd.
        destruct Hpok as [Hn|Ht].
        - exists fs. rewrite Hn.
          assert (F : is_file p fs = false) by (now apply is_file_find).
          rewrite F. simpl. repeat split; auto.
        - exists (without_file p fs). rewrite Ht.
          assert (F : is_file p fs = true) by (unfold is_file; now rewrite Ht).
          rewrite F. simpl. rewrite F.
          split; [reflexivity|]. split; [reflexivity|].
          split; [reflexivity|]. split.
          + unfold without_file. simpl. apply find_file_drop_same.
          + intros q Hq. now apply find_file_without_other. }
      destruct Hafter as (fs2 & Eload & Ehandler & D2 & N2 & K2).
      rewrite Eload, Ehandler.
      assert (Hok2 : Forall (chunk_file_ok sv fs2) r).
      { rewrite Forall_forall in *. intros q Hq. specialize (Hok' q Hq).
        unfold chunk_file_ok in *.
        destruct (string_dec q p) as [->|Hne].
        - rewrite Enc. left. exact N2.
        - rewrite (K2 q Hne). exact Hok'. }
      assert (Hdirs2 : Forall (fun d => scratch_name d = false) (dirs fs2))
        by (rewrite D2; exact Hdirs).
      destruct (IH acc fs2 Hdirs2 Htemp' Hok2)
        as (final & fs' & E & M & W & Dd & F1 & F2 & F3).
      rewrite E. exists final, fs'. split; [reflexivity|].
      split; [exact M|]. split; [exact W|].
      split; [congruence|]. split; [|split].
      * intros q Hq. rewrite F1 by tauto. apply K2. intros ->. apply Hq. now left.
      * intros q [<-|Hq] Hq'; [congruence|].
        rewrite F2 by assumption. apply K2. intros ->. congruence.
      * intros q [<-|Hq] Hq'; [|now apply F3].
        destruct (in_dec string_dec p r) as [Hi|Hn];
          [now apply F3 | rewrite F1 by exact Hn; exact N2].
Qed.

End LoadLoop.

Lemma remove_loop_clears (l : list string) :
  forall fs : FS,
    (forall p, In p l -> is_dir p fs = false) ->
    exists fs',
      remove_loop l fs = (Ok tt, fs') /\
      dirs fs' = dirs fs /\
      (forall p, In p l -> find_file p (files fs') = None) /\
      (forall p, ~ In p l -> find_file p (files fs') = find_file p (files fs)).
Proof.
  induction l as [|p r IH]; intros fs Hd; simpl.
  - exists fs. split; [reflexivity|]. split; [reflexivity|].
    split; [tauto | reflexivity].
  - unfold bind at 1. unfold os_path_exists.
    rewrite (Hd p (or_introl eq_refl)). rewrite orb_false_r.
    assert (Hstep : exists fs2,
              bind (if is_file p fs then os_remove p else ret tt)
                   (fun _ => remove_loop r) fs = remove_loop r fs2 /\
              dirs fs2 = dirs fs /\ find_file p (files fs2) = None /\
              (forall q, q <> p ->
                         find_file q (files fs2) = find_file q (files fs))).
    { unfold bind, os_remove, ret. destruct (is_file p fs) eqn:F.
      - exists (without_file p fs). rewrite F. split; [reflexivity|].
        split; [reflexivity|]. split.
        + unfold without_file. simpl. apply find_file_drop_same.
        + intros q Hq. now apply find_file_without_other.
      - exists fs. split; [reflexivity|]. split; [reflexivity|].
        split; [now apply is_file_find | reflexivity]. }
    destruct Hstep as (fs2 & E & D2 & N2 & K2). rewrite E.
    destruct (IH fs2) as (fs' & E' & D' & C' & K').
    { intros q Hq. unfold is_dir. rewrite D2. apply Hd. now right. }
    exists fs'. split; [exact E'|]. split; [congruence|]. split.
    + intros q [<-|Hq].
      * destruct (in_dec string_dec p r) as [Hi|Hn];
          [now apply C' | rewrite K' by exact Hn; exact N2].
      * now apply C'.
    + intros q Hq. rewrite K' by tauto. apply K2. intros ->. apply Hq. now left.
Qed.

Lemma chained_inside (cs : list Chunk) :
  forall a b, chained a cs b ->
              Forall (fun c => a <= c_start c /\ c_start c < c_end c /\
                               c_end c <= b) cs.
Proof.
  induction cs as [|c r IH]; simpl; intros a b H; constructor.
  - destruct H as (H1 & H2 & H3). pose proof (chained_le _ _ _ H3). lra.
  - destruct H as (H1 & H2 & H3).
    eapply Forall_impl; [|exact (IH _ _ H3)]. simpl. intros d Hd. lra.
Qed.

Lemma chunk_plan_inside (D C : Q) :
  0 <= D -> 0 < C -> Forall (chunk_inside D) (chunk_plan D C).
Proof.
  intros HD HC. unfold chunk_plan.
  pose proof (chained_inside _ _ _ (candidate_chunks_chained D C HD HC)) as H.
  rewrite Forall_forall in *. intros c Hc. apply filter_In in Hc.
  exact (H c (proj1 Hc)).
Qed.

Lemma is_dir_after_rmdir_same (d : string) (fs : FS) :
  is_dir d (mkFS (files fs)
              (filter (fun x => negb (String.eqb d x)) (dirs fs))) = false.
Proof.
  unfold is_dir. simpl.
  induction (dirs fs) as [|x r IH]; simpl; [reflexivity|].
  destruct (String.eqb d x) eqn:E; simpl; [exact IH|].
  rewrite E. exact IH.
Qed.

Lemma is_dir_after_rmdir_other (d e : string) (fs : FS) :
  e <> d ->
  is_dir e (mkFS (files fs)
              (filter (fun x => negb (String.eqb d x)) (dirs fs)))
  = is_dir e fs.
Proof.
  intros Hne. unfold is_dir. simpl.
  induction (dirs fs) as [|x r IH]; simpl; [reflexivity|].
  destruct (String.eqb d x) eqn:E; simpl.
  - apply String.eqb_eq in E. subst x.
    destruct (String.eqb e d) eqn:E'; [|exact IH].
    apply String.eqb_eq in E'. congruence.
  - now rewrite IH.
Qed.

Lemma dir_is_empty_temp_dir (fs : FS) :
  (forall p, in_temp_dir p = true -> find_file p (files fs) = None) ->
  dir_is_empty temp_dir fs = true.
Proof.
  intros H. unfold dir_is_empty. apply forallb_forall. intros [p c] Hin.
  simpl. change (temp_dir ++ "/")%string with "temp_chunks/"%string.
  fold (in_temp_dir p). destruct (in_temp_dir p) eqn:E; [|reflexivity].
  exfalso. exact (find_file_in p c _ Hin (H p E)).
Qed.

(** *** The whole run *)

Section Orchestrator.

Variables (sv : Services) (input_video output_video : string) (D C : Q).
Variable fs0 : FS.

Hypothesis source_present : find_file input_video (files fs0) = Some (Raw D).
Hypothesis D_nonneg : 0 <= D.
Hypothesis C_pos : 0 < C.
Hypothesis input_not_scratch : scratch_name input_video = false.
Hypothesis transcripts_ok :
  forall p t, transcribe sv p = Ok t ->
              Forall (fun w => 0 <= seg_end w) (segments t).
Hypothesis dirs_not_scratch :
  Forall (fun d => scratch_name d = false) (dirs fs0).
Hypothesis temp_dir_not_a_file : is_file temp_dir fs0 = false.
Hypothesis temp_dir_holds_nothing :
  forall p, in_temp_dir p = true -> find_file p (files fs0) = None.

Local Abbreviation plan := (chunk_plan D C).
Local Abbreviation processed :=
  (map chunk_output (filter (chunk_reported sv) (chunk_plan D C))).
Local Abbreviation delivered :=
  (map chunk_output (filter (chunk_delivered sv) (chunk_plan D C))).

(** The run up to the test [if final_clips:], and the state it reaches. *)
Lemma process_long_video_phases :
  exists (final : list Clip) (fs3 : FS),
    process_long_video sv input_video output_video C fs0
    = match final with
      | [] => (Ok tt, fs3)
      | _ :: _ =>
          bind (write_videofile sv (concatenate_videoclips final) output_video)
               (fun _ => bind (remove_loop processed)
                              (fun _ => os_rmdir temp_dir)) fs3
      end /\
    map media final = delivered /\
    Forall whole_file_clip final /\
    is_dir temp_dir fs3 = true /\
    (forall d, d <> temp_dir -> is_dir d fs3 = is_dir d fs0) /\
    Forall (fun d => scratch_name d = false) (dirs fs3) /\
    (forall p, scratch_name p = false ->
               find_file p (files fs3) = find_file p (files fs0)) /\
    (forall p, in_temp_dir p = true -> ~ In p delivered ->
               find_file p (files fs3) = None) /\
    (forall p, In p delivered ->
               exists clips, find_file p (files fs3) = Some (Rendered clips) /\
                             0 < total_duration_of clips) /\
    Forall (fun c => find_file (chunk_temp c) (files fs3) = None) plan.
Proof.
  set (fs1 := if is_dir temp_dir fs0 then fs0
              else mkFS (files fs0) (temp_dir :: dirs fs0)).
  assert (Hfiles1 : files fs1 = files fs0)
    by (unfold fs1; destruct (is_dir temp_dir fs0); reflexivity).
  assert (Hmk : os_makedirs temp_dir fs0 = (Ok tt, fs1)).
  { unfold os_makedirs, fs1. destruct (is_dir temp_dir fs0); [reflexivity|].
    now rewrite temp_dir_not_a_file. }
  assert (Hdir1 : is_dir temp_dir fs1 = true).
  { unfold fs1. destruct (is_dir temp_dir fs0) eqn:E; [exact E|].
    unfold is_dir. simpl. try rewrite String.eqb_refl. reflexivity. }
  assert (Hdirs1 : forall d, d <> temp_dir -> is_dir d fs1 = is_dir d fs0).
  { intros d Hd. unfold fs1. destruct (is_dir temp_dir fs0); [reflexivity|].
    unfold is_dir. simpl.
    destruct (String.eqb d temp_dir) eqn:E; [|reflexivity].
    apply String.eqb_eq in E. congruence. }
  assert (Hns1 : Forall (fun d => scratch_name d = false) (dirs fs1)).
  { unfold fs1. destruct (is_dir temp_dir fs0); [exact dirs_not_scratch|].
    simpl. constructor; [exact temp_dir_not_scratch | exact dirs_not_scratch]. }
  assert (Hinv1 : loop_invariant sv input_video D fs1 fs1 [] []).
  { unfold loop_invariant. rewrite Hfiles1. repeat apply conj; auto. }
  destruct (plan_loop_collects sv input_video D fs1 input_not_scratch
              transcripts_ok Hns1 plan (chunk_plan_inside D C D_nonneg C_pos)
              fs1 [] [] Hinv1)
    as (fs2 & Eloop & (I1 & I2 & I3 & I4 & I5 & I6 & I7)).
  simpl app in *.
  assert (Hns2 : Forall (fun d => scratch_name d = false) (dirs fs2))
    by (rewrite I2; exact Hns1).
  destruct (load_loop_keeps_encoded sv processed [] fs2 Hns2 I4 I5)
    as (final & fs3 & Eload & M & W & Dd & F1 & F2 & F3).
  simpl app in Eload. rewrite filter_delivered in M.
  assert (Hsub : forall p, In p delivered -> In p processed /\ encoded sv p = true).
  { intros p Hp. rewrite <- filter_delivered in Hp. apply filter_In in Hp.
    exact Hp. }
  assert (Hsup : forall p, In p processed -> encoded sv p = true ->
                           In p delivered).
  { intros p Hp He. rewrite <- filter_delivered. apply filter_In. tauto. }
  pose proof (proj1 (Forall_forall _ _) I4) as I4'.
  pose proof (proj1 (Forall_forall _ _) I5) as I5'.
  exists final, fs3. split.
  - unfold process_long_video. unfold bind at 1. unfold VideoFileClip.
    rewrite source_present. simpl duration.
    assert (Hz : Qeq_bool C 0 = false).
    { destruct (Qeq_bool C 0) eqn:E; [|reflexivity].
      apply Qeq_bool_iff in E. lra. }
    rewrite Hz. unfold bind at 1. unfold ret at 1.
    unfold bind at 1. rewrite Hmk.
    unfold bind at 1.
    rewrite chunk_loop_follows_plan.
    change (filter (fun c => negb (too_short c))
              (map (chunk_of D C) (range (num_chunks D C))))
      with (chunk_plan D C).
    rewrite Eloop.
    destruct processed as [|q qs] eqn:Hproc.
    + simpl in Eload. injection Eload as <- <-. reflexivity.
    + unfold bind at 1. rewrite Eload. destruct final; reflexivity.
  - split; [exact M|]. split; [exact W|].
    split; [unfold is_dir in *; rewrite Dd, I2; exact Hdir1|].
    split; [intros d Hd; unfold is_dir in *; rewrite Dd, I2; now apply Hdirs1|].
    split; [rewrite Dd; exact Hns2|]. split; [|split; [|split]].
    + intros p Hp. rewrite F1.
      * rewrite I3 by exact Hp. now rewrite Hfiles1.
      * intros Hin. specialize (I4' p Hin).
        apply in_temp_dir_scratch in I4'. congruence.
    + intros p Hp Hnot.
      destruct (in_dec string_dec p processed) as [Hi|Hn].
      * apply F3; [exact Hi|].
        destruct (encoded sv p) eqn:E; [|reflexivity].
        exfalso. apply Hnot. now apply Hsup.
      * rewrite F1 by exact Hn. now apply I6.
    + intros p Hp. destruct (Hsub p Hp) as [Hi He].
      rewrite F2 by assumption.
      specialize (I5' p Hi).
      unfold chunk_file_ok in I5'. now rewrite He in I5'.
    + rewrite Forall_forall in *. intros c Hc. rewrite F1; [now apply I7|].
      intros Hin. specialize (I4' _ Hin). unfold chunk_temp in I4'.
      now rewrite temp_chunk_name_not_in_temp_dir in I4'.
Qed.

Hypothesis output_not_scratch : scratch_name output_video = false.

(** X13. When at least one chunk is delivered but the final encode fails,
    the error leaves [process_long_video]: nothing is cleaned up, the
    temporary directory and the delivered chunks' outputs stay in place. *)
Theorem process_long_video_final_encode_fails :
  filter (chunk_delivered sv) (chunk_plan D C) <> [] ->
  encode sv output_video <> Encoded ->
  exists fs',
    process_long_video sv input_video output_video C fs0
    = (Raise IOError, fs') /\
    is_dir temp_dir fs' = true /\
    Forall (fun c => exists clips,
              find_file (chunk_output c) (files fs') = Some (Rendered clips) /\
              0 < total_duration_of clips)
           (filter (chunk_delivered sv) (chunk_plan D C)).
Proof.
  intros Hsome Henc.
  destruct process_long_video_phases
    as (final & fs3 & E & M & W & Hd & Hdo & Hns & Hkeep & Hempty & Hdel & Htmp).
  assert (Hfiles : forall fs', (fs' = fs3 \/
                                fs' = put_file output_video Truncated fs3) ->
            is_dir temp_dir fs' = true /\
            Forall (fun c => exists clips,
                      find_file (chunk_output c) (files fs')
                      = Some (Rendered clips) /\ 0 < total_duration_of clips)
                   (filter (chunk_delivered sv) (chunk_plan D C))).
  { intros fs' Hfs'. split.
    - destruct Hfs' as [->| ->]; exact Hd.
    - rewrite Forall_forall. intros c Hc.
      assert (Hin : In (chunk_output c) delivered) by (now apply in_map).
      destruct (Hdel _ Hin) as (clips & Hf & Hp). exists clips.
      split; [|exact Hp]. destruct Hfs' as [->| ->]; [exact Hf|].
      rewrite find_file_put_other; [exact Hf|].
      apply not_eq_sym. apply not_scratch_differs;
        [exact output_not_scratch | apply chunk_output_name_scratch]. }
  destruct final as [|c0 r0].
  { exfalso. apply Hsome. simpl in M.
    destruct (filter (chunk_delivered sv) (chunk_plan D C)); [reflexivity|].
    discriminate M. }
  rewrite E. unfold bind at 1. unfold write_videofile.
  destruct (encode sv output_video); [congruence| |].
  - exists fs3. split; [reflexivity|]. apply Hfiles. now left.
  - eexists. split; [reflexivity|]. apply Hfiles. now right.
Qed.

End Orchestrator.

(** *** Worked instances *)

Lemma source_only_temp_dir_empty :
  forall p, in_temp_dir p = true -> find_file p (files source_only) = None.
Proof.
  intros p Hp.
  change (find_file p (files source_only))
    with (if String.eqb "in.mp4" p then Some (Raw 600) else None).
  destruct (String.eqb "in.mp4" p) eqn:E; [|reflexivity].
  apply String.eqb_eq in E. subst p. discriminate Hp.
Defined.

Lemma reliable_transcripts_ok :
  forall p t, transcribe (reliable speech_pause_speech) p = Ok t ->
              Forall (fun w => 0 <= seg_end w) (segments t).
Proof.
  intros p t H. injection H as <-. repeat constructor; simpl; lra.
Defined.

Lemma whisper_down_transcripts_ok :
  forall p t, transcribe whisper_down p = Ok t ->
              Forall (fun w => 0 <= seg_end w) (segments t).
Proof. intros p t H. discriminate H. Defined.

Lemma final_encode_fails_transcripts_ok :
  forall p t,
    transcribe (encode_fails_at "final.mp4" speech_pause_speech) p = Ok t ->
    Forall (fun w => 0 <= seg_end w) (segments t).
Proof.
  intros p t H. injection H as <-. repeat constructor; simpl; lra.
Defined.

Lemma process_long_video_final_encode_fails_witness :
  find_file "in.mp4" (files source_only) = Some (Raw 600) /\
  0 <= 600 /\ 0 < 300 /\
  scratch_name "in.mp4" = false /\
  (forall p t,
     transcribe (encode_fails_at "final.mp4" speech_pause_speech) p = Ok t ->
     Forall (fun w => 0 <= seg_end w) (segments t)) /\
  Forall (fun d => scratch_name d = false) (dirs source_only) /\
  is_file temp_dir source_only = false /\
  (forall p, in_temp_dir p = true -> find_file p (files source_only) = None) /\
  scratch_name "final.mp4" = false /\
  filter (chunk_delivered (encode_fails_at "final.mp4" speech_pause_speech))
         (chunk_plan 600 300) <> [] /\
  encode (encode_fails_at "final.mp4" speech_pause_speech) "final.mp4"
  <> Encoded /\
  exists fs',
    process_long_video (encode_fails_at "final.mp4" speech_pause_speech)
      "in.mp4" "final.mp4" 300 source_only = (Raise IOError, fs') /\
    is_dir temp_dir fs' = true /\
    Forall (fun c => exists clips,
              find_file (chunk_output c) (files fs') = Some (Rendered clips) /\
              0 < total_duration_of clips)
           (filter (chunk_delivered
                      (encode_fails_at "final.mp4" speech_pause_speech))
                   (chunk_plan 600 300)).
Proof.
  assert (Hf : find_file "in.mp4" (files source_only) = Some (Raw 600))
    by reflexivity.
  assert (HD : 0 <= 600) by lra.
  assert (HC : 0 < 300) by lra.
  assert (Hin : scratch_name "in.mp4" = false) by reflexivity.
  assert (Hd : Forall (fun d => scratch_name d = false) (dirs source_only))
    by constructor.
  assert (Hnf : is_file temp_dir source_only = false) by reflexivity.
  pose proof source_only_temp_dir_empty as Hempty.
  assert (Hout : scratch_name "final.mp4" = false) by reflexivity.
  pose proof final_encode_fails_transcripts_ok as Htr.
  assert (Hsome : filter (chunk_delivered
                            (encode_fails_at "final.mp4" speech_pause_speech))
                         (chunk_plan 600 300) <> [])
    by (vm_compute; discriminate).
  assert (Henc : encode (encode_fails_at "final.mp4" speech_pause_speech)
                   "final.mp4" <> Encoded)
    by (vm_compute; discriminate).
  repeat (split; [assumption|]).
  exact (process_long_video_final_encode_fails
           (encode_fails_at "final.mp4" speech_pause_speech) "in.mp4"
           "final.mp4" 600 300 source_only Hf HD HC Hin Htr Hd Hnf Hempty Hout
           Hsome Henc).
Defined.

(** ** A run in a fresh working directory, with encodes that succeed *)

Lemma chunk_output_not_temp_prefixed (c : Chunk) :
  temp_prefixed (chunk_output c) = false.
Proof. reflexivity. Qed.

Lemma scratch_name_cases (p : string) :
  scratch_name p = true -> temp_prefixed p = true \/ in_temp_dir p = true.
Proof. unfold scratch_name, temp_prefixed, in_temp_dir. apply orb_prop. Qed.

Lemma temp_prefixed_scratch (p : string) :
  temp_prefixed p = true -> scratch_name p = true.
Proof. unfold scratch_name, temp_prefixed. now intros ->. Qed.

Lemma match_nonempty {A B : Type} (l : list A) (x y : B) :
  l <> [] -> match l with [] => x | _ :: _ => y end = y.
Proof. destruct l; [congruence | reflexivity]. Qed.

(** Loading files that all hold an encoding of positive length keeps each of
    them whole, in order, and changes nothing. *)
Lemma load_loop_whole (l : list string) (fs : FS) :
  Forall (playable fs) l ->
  forall final_clips,
    load_loop l final_clips fs
    = (Ok (final_clips ++ map (loaded_clip fs) l), fs).
Proof.
  induction 1 as [|p r (clips & Hfile & Hpos) _ IH]; intros acc; simpl.
  - now rewrite app_nil_r.
  - unfold bind at 1. unfold try_except, bind, VideoFileClip.
    rewrite Hfile. simpl.
    assert (G : Qgt_bool (total_duration_of clips) 0 = true)
      by (apply Qgt_bool_true; exact Hpos).
    rewrite G. simpl. rewrite IH. rewrite <- app_assoc. simpl.
    unfold loaded_clip at 2, file_length. now rewrite Hfile.
Qed.

(** The loop is started on a source that opens, with a positive chunk
    duration, where no file and no directory bears an intermediate name
    ([temp_chunk_...] or [temp_chunks/...]); Whisper returns no segment that
    ends before time 0, and every encode of an intermediate file succeeds. *)
Section FreshLoop.

Variables (sv : Services) (input_video : string) (D C : Q) (fs1 : FS).
Hypothesis source_present : find_file input_video (files fs1) = Some (Raw D).
Hypothesis D_nonneg : 0 <= D.
Hypothesis C_pos : 0 < C.
Hypothesis input_not_scratch : scratch_name input_video = false.
Hypothesis transcripts_ok :
  forall p t, transcribe sv p = Ok t ->
              Forall (fun w => 0 <= seg_end w) (segments t).
Hypothesis dirs_not_scratch :
  Forall (fun d => scratch_name d = false) (dirs fs1).
Hypothesis fresh :
  forall p, scratch_name p = true -> find_file p (files fs1) = None.
Hypothesis encodes_ok :
  forall p, scratch_name p = true -> encode sv p = Encoded.

(** No file named like a temporary chunk survives an iteration. *)
Lemma plan_loop_temp_free (plan : list Chunk) :
  Forall (chunk_inside D) plan ->
  forall (fs : FS) (done : list Chunk) (acc : list string),
    loop_invariant sv input_video D fs1 fs done acc ->
    (forall p, temp_prefixed p = true -> find_file p (files fs) = None) ->
    forall p, temp_prefixed p = true ->
              find_file p (files (snd (plan_loop sv input_video plan acc fs)))
              = None.
Proof.
  induction 1 as [|c r Hc _ IH]; intros fs done acc Hinv Hfree; simpl.
  - exact Hfree.
  - destruct (loop_invariant_step sv input_video D fs1 input_not_scratch
                transcripts_ok dirs_not_scratch fs done acc c Hinv Hc)
      as (fs' & E & Hinv').
    unfold bind. fold (chunk_output c). rewrite E.
    apply (IH fs' (done ++ [c]) _ Hinv').
    destruct Hinv as (I1 & I2 & _). destruct Hc as (C1 & C2 & C3).
    assert (Hdirs : Forall (fun d => scratch_name d = false) (dirs fs))
      by (rewrite I2; exact dirs_not_scratch).
    assert (HD : c_start c <= D) by lra.
    destruct (process_video_chunk_step sv input_video D input_not_scratch
                transcripts_ok fs c I1 Hdirs C1 C2 HD)
      as (fs'' & E' & _ & S2 & S3 & _).
    rewrite E in E'. injection E' as <-.
    intros q Hq.
    destruct (string_dec q (chunk_temp c)) as [->|Hne]; [exact S3|].
    rewrite S2; [now apply Hfree | exact Hne |].
    intros ->. rewrite chunk_output_not_temp_prefixed in Hq. discriminate.
Qed.

(** The chunk loop, started where no intermediate file exists. *)
Lemma fresh_chunk_loop :
  exists fs2,
    chunk_loop sv input_video D C (range (num_chunks D C)) [] fs1
    = (Ok (map chunk_output (filter (chunk_reported sv) (chunk_plan D C))),
       fs2) /\
    dirs fs2 = dirs fs1 /\
    (forall p, scratch_name p = false ->
               find_file p (files fs2) = find_file p (files fs1)) /\
    (forall p, temp_prefixed p = true -> find_file p (files fs2) = None) /\
    Forall (playable fs2)
      (map chunk_output (filter (chunk_reported sv) (chunk_plan D C))) /\
    (forall p, in_temp_dir p = true ->
               ~ In p (map chunk_output
                         (filter (chunk_reported sv) (chunk_plan D C))) ->
               find_file p (files fs2) = None).
Proof.
  assert (Hinv : loop_invariant sv input_video D fs1 fs1 [] []).
  { unfold loop_invariant. repeat apply conj; auto.
    intros p Hp _. apply fresh. now apply in_temp_dir_scratch. }
  pose proof (chunk_plan_inside D C D_nonneg C_pos) as Hplan.
  destruct (plan_loop_collects sv input_video D fs1 input_not_scratch
              transcripts_ok dirs_not_scratch (chunk_plan D C) Hplan
              fs1 [] [] Hinv)
    as (fs2 & Eloop & (I1 & I2 & I3 & I4 & I5 & I6 & I7)).
  simpl app in *.
  assert (Hfree0 : forall p, temp_prefixed p = true ->
                             find_file p (files fs1) = None)
    by (intros p Hp; apply fresh; now apply temp_prefixed_scratch).
  pose proof (plan_loop_temp_free (chunk_plan D C) Hplan fs1 [] [] Hinv Hfree0)
    as Hfree.
  rewrite Eloop in Hfree. simpl snd in Hfree.
  exists fs2. split.
  - rewrite chunk_loop_follows_plan. exact Eloop.
  - split; [exact I2|]. split; [exact I3|]. split; [exact Hfree|].
    split; [|exact I6].
    rewrite Forall_forall in *. intros p Hp.
    specialize (I5 p Hp). specialize (I4 p Hp). simpl in I4.
    unfold chunk_file_ok, encoded in I5.
    rewrite encodes_ok in I5 by (now apply in_temp_dir_scratch).
    exact I5.
Qed.

(** X10. Start the chunk loop on a readable source with a positive chunk
    duration, the temporary directory in place, no file and no directory
    under an intermediate name ([temp_chunk_...], [temp_chunks/...]), no
    transcript segment ending before time 0, and every encode of an
    intermediate file succeeding.  The loop then returns: it collects, in
    index order, the outputs of exactly the chunks that Whisper transcribed.
    Afterwards each collected output holds an encoding of positive length,
    no other intermediate file exists, and the directories and all other
    files are as they were. *)
Theorem chunk_loop_collects_transcribed :
  is_dir temp_dir fs1 = true ->
  exists fs2,
    chunk_loop sv input_video D C (range (num_chunks D C)) [] fs1
    = (Ok (map chunk_output (filter (chunk_reported sv) (chunk_plan D C))),
       fs2) /\
    index_increasing (filter (chunk_reported sv) (chunk_plan D C)) /\
    (forall c, chunk_reported sv c = answered (transcribe sv (chunk_temp c))) /\
    dirs fs2 = dirs fs1 /\
    (forall p, scratch_name p = false ->
               find_file p (files fs2) = find_file p (files fs1)) /\
    Forall (playable fs2)
      (map chunk_output (filter (chunk_reported sv) (chunk_plan D C))) /\
    (forall p, scratch_name p = true ->
               ~ In p (map chunk_output
                         (filter (chunk_reported sv) (chunk_plan D C))) ->
               find_file p (files fs2) = None).
Proof.
  intros _.
  destruct fresh_chunk_loop as (fs2 & E & Hd & Hk & Hfree & Hplay & Hrest).
  exists fs2. split; [exact E|]. split.
  { apply StronglySorted_filter. unfold chunk_plan.
    apply StronglySorted_filter. apply (indices_increasing D C _ 0%nat). }
  split.
  { intros c. unfold chunk_reported, transcribed.
    rewrite encodes_ok by apply temp_chunk_name_scratch.
    now destruct (transcribe sv (chunk_temp c)). }
  split; [exact Hd|]. split; [exact Hk|]. split; [exact Hplay|].
  intros p Hp Hnot.
  destruct (scratch_name_cases p Hp) as [Ht|Ht];
    [now apply Hfree | now apply Hrest].
Qed.

End FreshLoop.

(** The same assumptions on the state [process_long_video] is called in,
    where moreover no file is called [temp_chunks]. *)
Section FreshRun.

Variables (sv : Services) (input_video output_video : string) (D C : Q).
Variable fs0 : FS.
Hypothesis source_present : find_file input_video (files fs0) = Some (Raw D).
Hypothesis D_nonneg : 0 <= D.
Hypothesis C_pos : 0 < C.
Hypothesis input_not_scratch : scratch_name input_video = false.
Hypothesis transcripts_ok :
  forall p t, transcribe sv p = Ok t ->
              Forall (fun w => 0 <= seg_end w) (segments t).
Hypothesis dirs_not_scratch :
  Forall (fun d => scratch_name d = false) (dirs fs0).
Hypothesis temp_dir_not_a_file : is_file temp_dir fs0 = false.
Hypothesis fresh :
  forall p, scratch_name p = true -> find_file p (files fs0) = None.
Hypothesis encodes_ok :
  forall p, scratch_name p = true -> encode sv p = Encoded.

Local Abbreviation processed :=
  (map chunk_output (filter (chunk_reported sv) (chunk_plan D C))).

(** The run up to the test [if final_clips:]: the directory is made, the
    loop collects the transcribed chunks' outputs, and each is loaded whole. *)
Lemma fresh_run_phases :
  exists fs2,
    chunk_loop sv input_video D C (range (num_chunks D C)) []
      (snd (os_makedirs temp_dir fs0)) = (Ok processed, fs2) /\
    process_long_video sv input_video output_video C fs0
    = match processed with
      | [] => (Ok tt, fs2)
      | _ :: _ =>
          bind (write_videofile sv (map (loaded_clip fs2) processed)
                  output_video)
               (fun _ => bind (remove_loop processed)
                              (fun _ => os_rmdir temp_dir)) fs2
      end /\
    is_dir temp_dir fs2 = true /\
    (forall d, d <> temp_dir -> is_dir d fs2 = is_dir d fs0) /\
    Forall (fun d => scratch_name d = false) (dirs fs2) /\
    (forall p, scratch_name p = false ->
               find_file p (files fs2) = find_file p (files fs0)) /\
    Forall (playable fs2) processed /\
    (forall p, scratch_name p = true -> ~ In p processed ->
               find_file p (files fs2) = None).
Proof.
  set (fs1 := if is_dir temp_dir fs0 then fs0
              else mkFS (files fs0) (temp_dir :: dirs fs0)).
  assert (Hfiles1 : files fs1 = files fs0)
    by (unfold fs1; destruct (is_dir temp_dir fs0); reflexivity).
  assert (Hmk : os_makedirs temp_dir fs0 = (Ok tt, fs1)).
  { unfold os_makedirs, fs1. destruct (is_dir temp_dir fs0); [reflexivity|].
    now rewrite temp_dir_not_a_file. }
  assert (Hdir1 : is_dir temp_dir fs1 = true).
  { unfold fs1. destruct (is_dir temp_dir fs0) eqn:E; [exact E|].
    unfold is_dir. simpl. try rewrite String.eqb_refl. reflexivity. }
  assert (Hdirs1 : forall d, d <> temp_dir -> is_dir d fs1 = is_dir d fs0).
  { intros d Hd. unfold fs1. destruct (is_dir temp_dir fs0); [reflexivity|].
    unfold is_dir. simpl.
    destruct (String.eqb d temp_dir) eqn:E; [|reflexivity].
    apply String.eqb_eq in E. congruence. }
  assert (Hns1 : Forall (fun d => scratch_name d = false) (dirs fs1)).
  { unfold fs1. destruct (is_dir temp_dir fs0); [exact dirs_not_scratch|].
    simpl. constructor; [exact temp_dir_not_scratch | exact dirs_not_scratch]. }
  assert (Hsrc1 : find_file input_video (files fs1) = Some (Raw D))
    by (rewrite Hfiles1; exact source_present).
  assert (Hfresh1 : forall p, scratch_name p = true ->
                              find_file p (files fs1) = None)
    by (intros p Hp; rewrite Hfiles1; now apply fresh).
  destruct (fresh_chunk_loop sv input_video D C fs1 Hsrc1 D_nonneg C_pos
              input_not_scratch transcripts_ok Hns1 Hfresh1 encodes_ok)
    as (fs2 & Eloop & Hd & Hk & Hfree & Hplay & Hrest).
  exists fs2. rewrite Hmk. simpl snd. split; [exact Eloop|]. split.
  - unfold process_long_video. unfold bind at 1. unfold VideoFileClip.
    rewrite source_present. simpl duration.
    assert (Hz : Qeq_bool C 0 = false).
    { destruct (Qeq_bool C 0) eqn:E; [|reflexivity].
      apply Qeq_bool_iff in E. lra. }
    rewrite Hz. unfold bind at 1. unfold ret at 1.
    unfold bind at 1. rewrite Hmk.
    unfold bind at 1. rewrite Eloop.
    pose proof (load_loop_whole processed fs2 Hplay []) as Eload.
    simpl app in Eload.
    destruct processed as [|q qs] eqn:Hproc; [reflexivity|].
    unfold bind at 1. rewrite Eload. reflexivity.
  - split; [unfold is_dir in *; rewrite Hd; exact Hdir1|].
    split; [intros d Hne; unfold is_dir in *; rewrite Hd; now apply Hdirs1|].
    split; [rewrite Hd; exact Hns1|].
    split; [intros p Hp; rewrite Hk by exact Hp; now rewrite Hfiles1|].
    split; [exact Hplay|].
    intros p Hp Hnot.
    destruct (scratch_name_cases p Hp) as [Ht|Ht];
      [now apply Hfree | now apply Hrest].
Qed.

(** X11. Run [process_long_video] on a readable source with a positive
    chunk duration, in a working directory that holds no file and no
    directory under an intermediate name ([temp_chunk_...],
    [temp_chunks/...]) and no file called [temp_chunks], with no transcript
    segment ending before time 0 and every encode of an intermediate file
    succeeding.  If Whisper
    transcribes none of the chunks, the call returns normally: the directory
    [temp_chunks] exists afterwards, empty; no intermediate file exists, and
    every other file, the output included, and every other directory is as
    it was. *)
Theorem process_long_video_nothing_transcribed :
  Forall (fun c => answered (transcribe sv (chunk_temp c)) = false)
         (chunk_plan D C) ->
  exists fs',
    process_long_video sv input_video output_video C fs0 = (Ok tt, fs') /\
    is_dir temp_dir fs' = true /\
    (forall d, d <> temp_dir -> is_dir d fs' = is_dir d fs0) /\
    (forall p, scratch_name p = true -> find_file p (files fs') = None) /\
    (forall p, scratch_name p = false ->
               find_file p (files fs') = find_file p (files fs0)).
Proof.
  intros Hnone.
  assert (Hproc : processed = []).
  { assert (Hf : filter (chunk_reported sv) (chunk_plan D C) = []).
    { induction Hnone as [|c r Hc _ IH]; [reflexivity|]. simpl.
      assert (Hr : chunk_reported sv c = false).
      { unfold chunk_reported, transcribed.
        destruct (encode sv (chunk_temp c)); try reflexivity.
        destruct (transcribe sv (chunk_temp c)); [discriminate Hc|reflexivity]. }
      now rewrite Hr. }
    now rewrite Hf. }
  destruct fresh_run_phases
    as (fs2 & _ & E & Hd & Hdo & _ & Hk & _ & Hrest).
  rewrite Hproc in E, Hrest.
  exists fs2. split; [exact E|]. split; [exact Hd|]. split; [exact Hdo|].
  split; [|exact Hk]. intros p Hp. apply Hrest; [exact Hp | tauto].
Qed.

(** X12. Run [process_long_video] on a readable source with a positive
    chunk duration, in a working directory that holds no file and no
    directory under an intermediate name ([temp_chunk_...],
    [temp_chunks/...]) and no file called [temp_chunks], with an output that
    is not an intermediate name, no transcript segment ending before time 0,
    and every encode, of the intermediate files and of the output,
    succeeding.  If Whisper
    transcribes at least one chunk, the call returns normally and the output
    holds the concatenation, in index order, of the outputs of exactly the
    transcribed chunks, each taken whole, from its start to the full length
    of the file the chunk loop left, and each of positive length.  Afterwards
    no intermediate file exists, the directory [temp_chunks] is gone, and
    every other file and directory is as it was. *)
Theorem process_long_video_concatenates_whole_chunks :
  scratch_name output_video = false ->
  encode sv output_video = Encoded ->
  filter (chunk_reported sv) (chunk_plan D C) <> [] ->
  exists fs2 fs',
    chunk_loop sv input_video D C (range (num_chunks D C)) []
      (snd (os_makedirs temp_dir fs0))
    = (Ok (map chunk_output (filter (chunk_reported sv) (chunk_plan D C))),
       fs2) /\
    process_long_video sv input_video output_video C fs0 = (Ok tt, fs') /\
    find_file output_video (files fs')
    = Some (Rendered
              (map (loaded_clip fs2)
                 (map chunk_output
                    (filter (chunk_reported sv) (chunk_plan D C))))) /\
    Forall (playable fs2)
      (map chunk_output (filter (chunk_reported sv) (chunk_plan D C))) /\
    index_increasing (filter (chunk_reported sv) (chunk_plan D C)) /\
    (forall c, chunk_reported sv c = answered (transcribe sv (chunk_temp c))) /\
    is_dir temp_dir fs' = false /\
    (forall d, d <> temp_dir -> is_dir d fs' = is_dir d fs0) /\
    (forall p, scratch_name p = true -> find_file p (files fs') = None) /\
    (forall p, scratch_name p = false -> p <> output_video ->
               find_file p (files fs') = find_file p (files fs0)).
Proof.
  intros output_not_scratch Henc Hsome.
  destruct fresh_run_phases
    as (fs2 & Eloop & E & Hd & Hdo & Hns & Hk & Hplay & Hrest).
  set (final := map (loaded_clip fs2) processed) in *.
  set (fs4 := put_file output_video (Rendered final) fs2).
  assert (Hin_temp : forall p, In p processed -> in_temp_dir p = true).
  { intros p Hp. apply in_map_iff in Hp. destruct Hp as (c & <- & _).
    apply chunk_output_name_in_temp_dir. }
  assert (Hout_proc : ~ In output_video processed).
  { intros Hin. apply Hin_temp in Hin.
    apply in_temp_dir_scratch in Hin. congruence. }
  destruct (remove_loop_clears processed fs4) as (fs5 & Erem & D5 & C5 & K5).
  { intros p Hp. apply is_dir_scratch_free; [exact Hns|].
    apply in_temp_dir_scratch. now apply Hin_temp. }
  assert (Hgone : forall p, scratch_name p = true ->
                            find_file p (files fs5) = None).
  { intros p Hp. destruct (in_dec string_dec p processed) as [Hi|Hn].
    - now apply C5.
    - rewrite K5 by exact Hn. unfold fs4.
      rewrite find_file_put_other; [now apply Hrest|].
      intros ->. congruence. }
  assert (Hrm : os_rmdir temp_dir fs5
                = (Ok tt, mkFS (files fs5)
                            (filter (fun d => negb (String.eqb temp_dir d))
                                    (dirs fs5)))).
  { unfold os_rmdir.
    assert (Hd5 : is_dir temp_dir fs5 = true)
      by (unfold is_dir in *; rewrite D5; exact Hd).
    rewrite Hd5. rewrite dir_is_empty_temp_dir; [reflexivity|].
    intros p Hp. apply Hgone. now apply in_temp_dir_scratch. }
  exists fs2. eexists. split; [exact Eloop|]. split.
  - rewrite E.
    assert (Hne : processed <> [])
      by (intros H; apply Hsome; now apply map_eq_nil in H).
    rewrite (match_nonempty processed _ _ Hne).
    unfold bind at 1. unfold write_videofile.
    rewrite Henc. fold final. fold fs4. unfold bind at 1. rewrite Erem.
    exact Hrm.
  - simpl files. split.
    { rewrite K5 by exact Hout_proc. unfold fs4. apply find_file_put_same. }
    split; [exact Hplay|]. split.
    { apply StronglySorted_filter. unfold chunk_plan.
      apply StronglySorted_filter. apply (indices_increasing D C _ 0%nat). }
    split.
    { intros c. unfold chunk_reported, transcribed.
      rewrite encodes_ok by apply temp_chunk_name_scratch.
      now destruct (transcribe sv (chunk_temp c)). }
    split; [apply (is_dir_after_rmdir_same temp_dir fs5)|].
    split.
    { intros d Hne.
      rewrite (is_dir_after_rmdir_other temp_dir d fs5 Hne).
      unfold is_dir. rewrite D5. now apply Hdo. }
    split; [exact Hgone|].
    intros p Hp Hne. rewrite K5.
    + unfold fs4. rewrite find_file_put_other by exact Hne. now apply Hk.
    + intros Hin. apply Hin_temp in Hin.
      apply in_temp_dir_scratch in Hin. congruence.
Qed.

End FreshRun.

(** *** Worked instances of the fresh run *)

Lemma source_only_fresh :
  forall p, scratch_name p = true -> find_file p (files source_only) = None.
Proof.
  intros p Hp.
  change (find_file p (files source_only))
    with (if String.eqb "in.mp4" p then Some (Raw 600) else None).
  destruct (String.eqb "in.mp4" p) eqn:E; [|reflexivity].
  apply String.eqb_eq in E. subst p. discriminate Hp.
Defined.

Lemma chunk_loop_collects_transcribed_witness :
  find_file "in.mp4" (files source_and_temp_dir) = Some (Raw 600) /\
  0 <= 600 /\ 0 < 300 /\
  scratch_name "in.mp4" = false /\
  (forall p t, transcribe (reliable speech_pause_speech) p = Ok t ->
               Forall (fun w => 0 <= seg_end w) (segments t)) /\
  Forall (fun d => scratch_name d = false) (dirs source_and_temp_dir) /\
  (forall p, scratch_name p = true ->
             find_file p (files source_and_temp_dir) = None) /\
  (forall p, scratch_name p = true ->
             encode (reliable speech_pause_speech) p = Encoded) /\
  is_dir temp_dir source_and_temp_dir = true /\
  exists fs2,
    chunk_loop (reliable speech_pause_speech) "in.mp4" 600 300
      (range (num_chunks 600 300)) [] source_and_temp_dir
    = (Ok (map chunk_output
             (filter (chunk_reported (reliable speech_pause_speech))
                     (chunk_plan 600 300))), fs2) /\
    index_increasing (filter (chunk_reported (reliable speech_pause_speech))
                             (chunk_plan 600 300)) /\
    (forall c, chunk_reported (reliable speech_pause_speech) c
               = answered (transcribe (reliable speech_pause_speech)
                             (chunk_temp c))) /\
    dirs fs2 = dirs source_and_temp_dir /\
    (forall p, scratch_name p = false ->
               find_file p (files fs2)
               = find_file p (files source_and_temp_dir)) /\
    Forall (playable fs2)
      (map chunk_output
         (filter (chunk_reported (reliable speech_pause_speech))
                 (chunk_plan 600 300))) /\
    (forall p, scratch_name p = true ->
               ~ In p (map chunk_output
                         (filter (chunk_reported (reliable speech_pause_speech))
                                 (chunk_plan 600 300))) ->
               find_file p (files fs2) = None).
Proof.
  assert (Hf : find_file "in.mp4" (files source_and_temp_dir) = Some (Raw 600))
    by reflexivity.
  assert (HD : 0 <= 600) by lra.
  assert (HC : 0 < 300) by lra.
  assert (Hin : scratch_name "in.mp4" = false) by reflexivity.
  pose proof reliable_transcripts_ok as Htr.
  assert (Hd : Forall (fun d => scratch_name d = false)
                      (dirs source_and_temp_dir))
    by (constructor; [reflexivity | constructor]).
  assert (Hfresh : forall p, scratch_name p = true ->
                             find_file p (files source_and_temp_dir) = None)
    by exact source_only_fresh.
  assert (Henc : forall p, scratch_name p = true ->
                           encode (reliable speech_pause_speech) p = Encoded)
    by reflexivity.
  assert (Hdir : is_dir temp_dir source_and_temp_dir = true) by reflexivity.
  repeat (split; [assumption|]).
  exact (chunk_loop_collects_transcribed (reliable speech_pause_speech)
           "in.mp4" 600 300 source_and_temp_dir Hf HD HC Hin Htr Hd Hfresh
           Henc Hdir).
Defined.

Lemma process_long_video_nothing_transcribed_witness :
  find_file "in.mp4" (files source_only) = Some (Raw 600) /\
  0 <= 600 /\ 0 < 300 /\
  scratch_name "in.mp4" = false /\
  (forall p t, transcribe whisper_down p = Ok t ->
               Forall (fun w => 0 <= seg_end w) (segments t)) /\
  Forall (fun d => scratch_name d = false) (dirs source_only) /\
  is_file temp_dir source_only = false /\
  (forall p, scratch_name p = true ->
             find_file p (files source_only) = None) /\
  (forall p, scratch_name p = true -> encode whisper_down p = Encoded) /\
  Forall (fun c => answered (transcribe whisper_down (chunk_temp c)) = false)
         (chunk_plan 600 300) /\
  exists fs',
    process_long_video whisper_down "in.mp4" "final.mp4" 300 source_only
    = (Ok tt, fs') /\
    is_dir temp_dir fs' = true /\
    (forall d, d <> temp_dir -> is_dir d fs' = is_dir d source_only) /\
    (forall p, scratch_name p = true -> find_file p (files fs') = None) /\
    (forall p, scratch_name p = false ->
               find_file p (files fs') = find_file p (files source_only)).
Proof.
  assert (Hf : find_file "in.mp4" (files source_only) = Some (Raw 600))
    by reflexivity.
  assert (HD : 0 <= 600) by lra.
  assert (HC : 0 < 300) by lra.
  assert (Hin : scratch_name "in.mp4" = false) by reflexivity.
  pose proof whisper_down_transcripts_ok as Htr.
  assert (Hd : Forall (fun d => scratch_name d = false) (dirs source_only))
    by constructor.
  assert (Hnf : is_file temp_dir source_only = false) by reflexivity.
  pose proof source_only_fresh as Hfresh.
  assert (Henc : forall p, scratch_name p = true ->
                           encode whisper_down p = Encoded)
    by reflexivity.
  assert (Hnone : Forall (fun c => answered (transcribe whisper_down
                                               (chunk_temp c)) = false)
                         (chunk_plan 600 300))
    by (vm_compute; repeat constructor).
  repeat (split; [assumption|]).
  exact (process_long_video_nothing_transcribed whisper_down "in.mp4"
           "final.mp4" 600 300 source_only Hf HD HC Hin Htr Hd Hnf Hfresh
           Henc Hnone).
Defined.

Lemma process_long_video_concatenates_whole_chunks_witness :
  find_file "in.mp4" (files source_only) = Some (Raw 600) /\
  0 <= 600 /\ 0 < 300 /\
  scratch_name "in.mp4" = false /\
  (forall p t, transcribe (reliable speech_pause_speech) p = Ok t ->
               Forall (fun w => 0 <= seg_end w) (segments t)) /\
  Forall (fun d => scratch_name d = false) (dirs source_only) /\
  is_file temp_dir source_only = false /\
  (forall p, scratch_name p = true ->
             find_file p (files source_only) = None) /\
  (forall p, scratch_name p = true ->
             encode (reliable speech_pause_speech) p = Encoded) /\
  scratch_name "final.mp4" = false /\
  encode (reliable speech_pause_speech) "final.mp4" = Encoded /\
  filter (chunk_reported (reliable speech_pause_speech)) (chunk_plan 600 300)
  <> [] /\
  exists fs2 fs',
    chunk_loop (reliable speech_pause_speech) "in.mp4" 600 300
      (range (num_chunks 600 300)) [] (snd (os_makedirs temp_dir source_only))
    = (Ok (map chunk_output
             (filter (chunk_reported (reliable speech_pause_speech))
                     (chunk_plan 600 300))), fs2) /\
    process_long_video (reliable speech_pause_speech) "in.mp4" "final.mp4" 300
      source_only = (Ok tt, fs') /\
    find_file "final.mp4" (files fs')
    = Some (Rendered
              (map (loaded_clip fs2)
                 (map chunk_output
                    (filter (chunk_reported (reliable speech_pause_speech))
                            (chunk_plan 600 300))))) /\
    Forall (playable fs2)
      (map chunk_output
         (filter (chunk_reported (reliable speech_pause_speech))
                 (chunk_plan 600 300))) /\
    index_increasing (filter (chunk_reported (reliable speech_pause_speech))
                             (chunk_plan 600 300)) /\
    (forall c, chunk_reported (reliable speech_pause_speech) c
               = answered (transcribe (reliable speech_pause_speech)
                             (chunk_temp c))) /\
    is_dir temp_dir fs' = false /\
    (forall d, d <> temp_dir -> is_dir d fs' = is_dir d source_only) /\
    (forall p, scratch_name p = true -> find_file p (files fs') = None) /\
    (forall p, scratch_name p = false -> p <> "final.mp4"%string ->
               find_file p (files fs') = find_file p (files source_only)).
Proof.
  assert (Hf : find_file "in.mp4" (files source_only) = Some (Raw 600))
    by reflexivity.
  assert (HD : 0 <= 600) by lra.
  assert (HC : 0 < 300) by lra.
  assert (Hin : scratch_name "in.mp4" = false) by reflexivity.
  pose proof reliable_transcripts_ok as Htr.
  assert (Hd : Forall (fun d => scratch_name d = false) (dirs source_only))
    by constructor.
  assert (Hnf : is_file temp_dir source_only = false) by reflexivity.
  pose proof source_only_fresh as Hfresh.
  assert (Henc : forall p, scratch_name p = true ->
                           encode (reliable speech_pause_speech) p = Encoded)
    by reflexivity.
  assert (Hout : scratch_name "final.mp4" = false) by reflexivity.
  assert (Hfin : encode (reliable speech_pause_speech) "final.mp4" = Encoded)
    by reflexivity.
  assert (Hsome : filter (chunk_reported (reliable speech_pause_speech))
                         (chunk_plan 600 300) <> [])
    by (vm_compute; discriminate).
  repeat (split; [assumption|]).
  exact (process_long_video_concatenates_whole_chunks
           (reliable speech_pause_speech) "in.mp4" "final.mp4" 600 300
           source_only Hf HD HC Hin Htr Hd Hnf Hfresh Henc Hout Hfin Hsome).
Defined.

(** ** Further properties: sizes, counts and early failures *)

(** A gap whose shrunk end stays inside the chunk yields an interval of the
    gap's length less two buffers. *)
Lemma candidate_length (vd th buf prev next : Q) :
  next - buf <= vd ->
  Forall (fun iv => th - 2 * buf < snd iv - fst iv)
         (candidate vd th buf prev next).
Proof.
  intros Hin. unfold candidate.
  destruct (Qgt_bool (next - prev) th) eqn:G; [|constructor].
  cbv zeta. destruct (Qgt_bool _ (prev + buf)) eqn:E; [|constructor].
  apply Qgt_bool_true in G.
  destruct (Qmin_cases (next - buf) vd) as [[M1 M2]|[M1 M2]]; [|lra].
  rewrite M2. constructor; [simpl; lra | constructor].
Qed.

Lemma gaps_min_length (vd th buf : Q) (words : list Segment) :
  0 <= buf ->
  Forall (fun w => seg_start w - buf <= vd) words ->
  forall prev,
    Forall (fun iv => th - 2 * buf < snd iv - fst iv)
           (gaps vd th buf prev words).
Proof.
  intros Hb. induction 1 as [|w r Hw _ IH]; intros prev; simpl.
  - apply candidate_length. lra.
  - apply Forall_app. split; [now apply candidate_length | apply IH].
Qed.

(** X14. With a buffer that is not negative and segments that start no later
    than a buffer past the end of the chunk, every interval returned by
    [identify_silence_periods] is longer than the threshold less two
    buffers: shorter pauses are never reported. *)
Theorem identify_silence_periods_min_length
  (t : Transcription) (video_duration threshold buffer : Q) :
  0 <= buffer ->
  Forall (fun w => seg_start w - buffer <= video_duration) (segments t) ->
  Forall (fun iv => threshold - 2 * buffer < snd iv - fst iv)
         (identify_silence_periods t video_duration threshold buffer).
Proof.
  intros Hb Hin. rewrite identify_silence_periods_gaps.
  now apply gaps_min_length.
Qed.

Lemma identify_silence_periods_min_length_witness :
  0 <= 1#10 /\
  Forall (fun w => seg_start w - (1#10) <= 10) (segments three_utterances) /\
  Forall (fun iv => 1 - 2 * (1#10) < snd iv - fst iv)
         (identify_silence_periods three_utterances 10 1 (1#10)).
Proof.
  assert (Hb : 0 <= 1#10) by lra.
  assert (Hin : Forall (fun w => seg_start w - (1#10) <= 10)
                       (segments three_utterances)).
  { repeat constructor; simpl; lra. }
  split; [exact Hb|]. split; [exact Hin|].
  exact (identify_silence_periods_min_length three_utterances 10 1 (1#10)
           Hb Hin).
Defined.

(** X15. For a duration [D >= 0] and a chunk size [C > 0], [num_chunks] is
    the least number of chunks of size [C] that reach [D]; every chunk of the
    plan lies inside [[0, D]], lasts at least one second and at most [C]. *)
Theorem num_chunks_and_chunk_sizes (D C : Q) :
  0 <= D -> 0 < C ->
  (0 <= num_chunks D C)%Z /\
  D <= inject_Z (num_chunks D C) * C /\
  (forall n : Z, (0 <= n)%Z -> D <= inject_Z n * C -> (num_chunks D C <= n)%Z) /\
  Forall (fun c => 0 <= c_start c /\ c_end c <= D /\
                   1 <= c_end c - c_start c /\ c_end c - c_start c <= C)
         (chunk_plan D C).
Proof.
  intros HD HC.
  split; [exact (num_chunks_nonneg D C HD HC)|].
  split; [exact (last_index_reaches_end D C HD HC)|].
  split.
  - intros n Hn Hreach.
    destruct (Z_lt_le_dec n (num_chunks D C)) as [Hlt|Hle]; [|exact Hle].
    pose proof (index_starts_inside D C HD HC n Hlt). lra.
  - pose proof (chunk_plan_inside D C HD HC) as Hin.
    rewrite Forall_forall in *. intros c Hc.
    destruct (Hin c Hc) as (I1 & I2 & I3).
    split; [exact I1|]. split; [exact I3|].
    unfold chunk_plan in Hc. apply filter_In in Hc. destruct Hc as [Hcand Hlen].
    apply negb_true_iff in Hlen. unfold too_short in Hlen.
    apply Qlt_bool_false in Hlen. split; [exact Hlen|].
    unfold candidate_chunks in Hcand. apply in_map_iff in Hcand.
    destruct Hcand as (i & <- & _). simpl.
    rewrite inject_Z_plus. change (inject_Z 1) with 1.
    destruct (Qmin_cases ((inject_Z i + 1) * C) D) as [[M1 M2]|[M1 M2]];
      rewrite M2; lra.
Qed.

Lemma num_chunks_and_chunk_sizes_witness :
  0 <= 310 /\ 0 < 300 /\
  (0 <= num_chunks 310 300)%Z /\
  310 <= inject_Z (num_chunks 310 300) * 300 /\
  (forall n : Z, (0 <= n)%Z -> 310 <= inject_Z n * 300 ->
                 (num_chunks 310 300 <= n)%Z) /\
  Forall (fun c => 0 <= c_start c /\ c_end c <= 310 /\
                   1 <= c_end c - c_start c /\ c_end c - c_start c <= 300)
         (chunk_plan 310 300).
Proof.
  assert (HD : 0 <= 310) by lra.
  assert (HC : 0 < 300) by lra.
  split; [exact HD|]. split; [exact HC|].
  exact (num_chunks_and_chunk_sizes 310 300 HD HC).
Defined.

(** X16. [process_long_video] fails before it creates anything when the
    source cannot be opened ([IOError]) or the chunk duration is zero
    ([ZeroDivisionError]): the file system is left exactly as it was. *)
Theorem process_long_video_fails_early (sv : Services)
  (input_video output_video : string) (chunk_duration : Q) (fs : FS) :
  (find_file input_video (files fs) = None ->
   process_long_video sv input_video output_video chunk_duration fs
   = (Raise IOError, fs)) /\
  (forall D, find_file input_video (files fs) = Some (Raw D) ->
             chunk_duration == 0 ->
             process_long_video sv input_video output_video chunk_duration fs
             = (Raise ZeroDivisionError, fs)).
Proof.
  split.
  - intros Hnone. unfold process_long_video, bind, VideoFileClip.
    now rewrite Hnone.
  - intros D Hf Hz. unfold process_long_video, bind, VideoFileClip.
    rewrite Hf. apply Qeq_bool_iff in Hz. now rewrite Hz.
Qed.

(** X17. When the extraction itself fails, because the source cannot be
    opened or because the chunk starts past the end of the source,
    [process_video_chunk] does not return [False]: its handler raises
    [UnboundLocalError], and nothing has been written. *)
Theorem process_video_chunk_extraction_failure (sv : Services)
  (video_path output_chunk_path : string) (start_time end_time : Q) (fs : FS) :
  (find_file video_path (files fs) = None ->
   process_video_chunk sv video_path start_time end_time output_chunk_path fs
   = (Raise UnboundLocalError, fs)) /\
  (forall D, find_file video_path (files fs) = Some (Raw D) ->
             0 <= start_time -> D < start_time ->
             process_video_chunk sv video_path start_time end_time
               output_chunk_path fs
             = (Raise UnboundLocalError, fs)).
Proof.
  split.
  - intros Hnone.
    unfold process_video_chunk, call, try_except, bind, in_fs, VideoFileClip,
      read_temp_chunk_path.
    simpl. rewrite Hnone. simpl. now destruct fs.
  - intros D Hf H0 Hlate.
    unfold process_video_chunk, call, try_except, bind, in_fs, VideoFileClip,
      lift_result, read_temp_chunk_path, subclip.
    simpl. rewrite Hf. simpl.
    assert (E1 : Qlt_bool start_time 0 = false)
      by (apply Qlt_bool_false; exact H0).
    rewrite E1.
    assert (E2 : Qgt_bool start_time D = true)
      by (apply Qgt_bool_true; exact Hlate).
    rewrite E2. simpl. now destruct fs.
Qed.

Lemma process_long_video_fails_early_witness :
  find_file "missing.mp4" (files source_only) = None /\
  process_long_video whisper_down "missing.mp4" "final.mp4" 300 source_only
  = (Raise IOError, source_only) /\
  find_file "in.mp4" (files source_only) = Some (Raw 600) /\ 0 == 0 /\
  process_long_video whisper_down "in.mp4" "final.mp4" 0 source_only
  = (Raise ZeroDivisionError, source_only).
Proof.
  assert (Hn : find_file "missing.mp4" (files source_only) = None)
    by reflexivity.
  assert (Hf : find_file "in.mp4" (files source_only) = Some (Raw 600))
    by reflexivity.
  assert (Hz : 0 == 0) by reflexivity.
  split; [exact Hn|]. split.
  - exact (proj1 (process_long_video_fails_early whisper_down "missing.mp4"
                    "final.mp4" 300 source_only) Hn).
  - split; [exact Hf|]. split; [exact Hz|].
    exact (proj2 (process_long_video_fails_early whisper_down "in.mp4"
                    "final.mp4" 0 source_only) 600 Hf Hz).
Defined.

Lemma process_video_chunk_extraction_failure_witness :
  find_file "missing.mp4" (files source_only) = None /\
  process_video_chunk whisper_down "missing.mp4" 0 300 "out.mp4" source_only
  = (Raise UnboundLocalError, source_only) /\
  find_file "in.mp4" (files source_only) = Some (Raw 600) /\
  0 <= 700 /\ 600 < 700 /\
  process_video_chunk whisper_down "in.mp4" 700 800 "out.mp4" source_only
  = (Raise UnboundLocalError, source_only).
Proof.
  assert (Hn : find_file "missing.mp4" (files source_only) = None)
    by reflexivity.
  assert (Hf : find_file "in.mp4" (files source_only) = Some (Raw 600))
    by reflexivity.
  assert (H0 : 0 <= 700) by lra.
  assert (H1 : 600 < 700) by lra.
  split; [exact Hn|]. split.
  - exact (proj1 (process_video_chunk_extraction_failure whisper_down
                    "missing.mp4" "out.mp4" 0 300 source_only) Hn).
  - split; [exact Hf|]. split; [exact H0|]. split; [exact H1|].
    exact (proj2 (process_video_chunk_extraction_failure whisper_down
                    "in.mp4" "out.mp4" 700 800 source_only) 600 Hf H0 H1).
Defined.
